(** * The aws_iam_role resource: create, read, update, delete

    A shallow embedding of [aws/resource_aws_iam_role.go].  The handlers of
    the resource are written as programs over the IAM API: a program is a
    tree whose nodes are the API calls the Go code issues through
    [iamconn] and whose branches are the replies of the service.  Running a
    program against a service (any state type with any reply function)
    yields the value returned, the final state of the service and the
    trace of calls that were issued, in order, each with the error it
    returned. *)

From Stdlib Require Import ZArith Sorted.
From stdpp Require Import base strings list gmap sorting.

Local Open Scope Z_scope.
Local Open Scope string_scope.
Local Open Scope list_scope.

(** ** Errors *)

(** An [awserr.Error] as returned by the SDK: a code and a message. *)
Record awserr := AwsErr { Code : string; Message : string }.

#[global] Instance awserr_eq_dec : EqDecision awserr.
Proof. solve_decision. Defined.

(** Go [error] values that occur in the file.  The [text] of a formatted
    error is its format up to the colon before the error, with the other
    arguments of the format filled in. *)
#[warnings="-register-all"]
Inductive error : Type :=
| AwsError (e : awserr)                    (* an SDK error, unwrapped *)
| Errorf_w (text : string) (err : error)   (* fmt.Errorf(text + ": %w", err) *)
| Errorf_s (text : string) (err : error)   (* fmt.Errorf(text + ": %s", err) *)
| TimeoutError                             (* *resource.TimeoutError, LastError == nil *)
| EscapeError (text : string)              (* url.EscapeError *)
| MultiError (errs : list error).          (* *multierror.Error *)

Definition ErrCodeNoSuchEntityException : string := "NoSuchEntity".
Definition ErrCodeDeleteConflictException : string := "DeleteConflict".

(** [strings.Contains]. *)
Fixpoint Contains (s substr : string) : bool :=
  String.prefix substr s ||
  match s with
  | EmptyString => false
  | String _ s' => Contains s' substr
  end.

(** [errors.As(err, &awsErr)]: the first [awserr.Error] on the unwrap chain.
    [%w] is unwrapped, [%s] is not; a multierror is searched in order. *)
Fixpoint asAwsErr (err : error) : option awserr :=
  match err with
  | AwsError e => Some e
  | Errorf_w _ inner => asAwsErr inner
  | Errorf_s _ _ => None
  | TimeoutError => None
  | EscapeError _ => None
  | MultiError errs =>
      (fix first (l : list error) : option awserr :=
         match l with
         | [] => None
         | e :: l' => match asAwsErr e with Some a => Some a | None => first l' end
         end) errs
  end.

(** [tfawserr.ErrCodeEquals(err, code)]; a nil error is [None]. *)
Definition ErrCodeEquals (err : option error) (code : string) : bool :=
  match err with
  | None => false
  | Some e =>
      match asAwsErr e with
      | Some a => String.eqb (Code a) code
      | None => false
      end
  end.

(** Modelled from the spec: [isAWSErr] is defined in another file of the
    provider.  Errors are classified by their AWS error code; the call
    sites also pass a fragment that the message has to contain (the empty
    fragment is contained in every message). *)
Definition isAWSErr (err : option error) (code message : string) : bool :=
  match err with
  | None => false
  | Some e =>
      match asAwsErr e with
      | Some a => String.eqb (Code a) code && Contains (Message a) message
      | None => false
      end
  end.

(** Modelled from the spec: [isResourceTimeoutError] is defined in another
    file of the provider.  It recognises the error of a retry whose window
    closed before any attempt completed, that is a [resource.TimeoutError]
    that carries no last error. *)
Definition isResourceTimeoutError (err : option error) : bool :=
  match err with
  | Some TimeoutError => true
  | _ => false
  end.

(** [ErrorOrNil] of a multierror: nil when nothing was appended. *)
Definition ErrorOrNil (errs : list error) : option error :=
  match errs with
  | [] => None
  | _ => Some (MultiError errs)
  end.

(** ** The IAM API *)

Abbreviation tags := (gmap string string).

(** [iam.Role], with the fields the resource reads. *)
Record Role := {
  Arn : string;
  CreateDate : string;
  Description : string;
  MaxSessionDuration : Z;
  RoleName : string;
  Path : string;
  PermissionsBoundary : option string;
  RoleId : string;
  Tags : tags;
  AssumeRolePolicyDocument : string
}.

(** [iam.CreateRoleInput]. *)
Record CreateRoleInput := {
  cr_Path : string;
  cr_RoleName : string;
  cr_AssumeRolePolicyDocument : string;
  cr_Description : option string;
  cr_MaxSessionDuration : option Z;
  cr_PermissionsBoundary : option string;
  cr_Tags : option tags
}.

(** [iam.PutRolePolicyInput]; every field is a [*string]. *)
Record PutRolePolicyInput := {
  PolicyDocument : option string;
  PolicyName : option string;
  pr_RoleName : option string
}.

(** [aws.StringValue]. *)
Definition StringValue (p : option string) : string := default "" p.

(** The calls issued through [iamconn], each with its input.
    [keyvaluetags.IamRoleUpdateTags], a helper of the provider that brings
    the tags of the role from the old map to the new one, is defined in
    another package: it stands here as one call of the interface. *)
Inductive Call : Type :=
| CreateRole (input : CreateRoleInput)
| GetRole (roleName : string)
| UpdateAssumeRolePolicy (roleName policyDocument : string)
| UpdateRoleDescription (roleName description : string)
| UpdateRole (roleName : string) (maxSessionDuration : Z)
| PutRolePermissionsBoundary (permissionsBoundary roleName : string)
| DeleteRolePermissionsBoundary (roleName : string)
| IamRoleUpdateTags (identifier : string) (oldTags newTags : tags)
| PutRolePolicy (input : PutRolePolicyInput)
| DeleteRolePolicy (policyName roleName : string)
| GetRolePolicy (roleName policyName : string)
| ListRolePoliciesPages (roleName : string)
| AttachRolePolicy (roleName policyArn : string)
| DetachRolePolicy (policyArn roleName : string)
| ListAttachedRolePoliciesPages (roleName : string)
| ListInstanceProfilesForRole (roleName : string)
| RemoveRoleFromInstanceProfile (instanceProfileName roleName : string)
| DeleteRole (roleName : string).

#[global] Instance Role_eq_dec : EqDecision Role.
Proof. solve_decision. Defined.
#[global] Instance CreateRoleInput_eq_dec : EqDecision CreateRoleInput.
Proof. solve_decision. Defined.
#[global] Instance PutRolePolicyInput_eq_dec : EqDecision PutRolePolicyInput.
Proof. solve_decision. Defined.
#[global] Instance Call_eq_dec : EqDecision Call.
Proof. solve_decision. Defined.

(** What a call returns: an output or an error. *)
Inductive result (A : Type) : Type :=
| Ok (out : A)
| Failed (e : awserr).
Arguments Ok {A} out.
Arguments Failed {A} e.

(** A paginated call hands the pages it fetched to the callback and may
    still end in an error. *)
Definition Reply (c : Call) : Type :=
  match c with
  | CreateRole _ => result Role
  | GetRole _ => result (option Role)
  | GetRolePolicy _ _ => result string
  | ListInstanceProfilesForRole _ => result (list string)
  | ListRolePoliciesPages _ => (list (list string) * option awserr)%type
  | ListAttachedRolePoliciesPages _ => (list (list string) * option awserr)%type
  | _ => result unit
  end.

Definition result_err {A} (r : result A) : option awserr :=
  match r with
  | Ok _ => None
  | Failed e => Some e
  end.

Definition reply_err (c : Call) : Reply c -> option awserr :=
  match c with
  | ListRolePoliciesPages _ => snd
  | ListAttachedRolePoliciesPages _ => snd
  | CreateRole _ => result_err
  | GetRole _ => result_err
  | GetRolePolicy _ _ => result_err
  | ListInstanceProfilesForRole _ => result_err
  | _ => result_err
  end.

(** ** Programs over the API *)

Inductive Prog (A : Type) : Type :=
| Ret (a : A)
| Do (c : Call) (k : Reply c -> Prog A).
Arguments Ret {A} a.
Arguments Do {A} c k.

Fixpoint bind {A B} (p : Prog A) (f : A -> Prog B) : Prog B :=
  match p with
  | Ret a => f a
  | Do c k => Do c (fun r => bind (k r) f)
  end.

Notation "x <- p ;; k" := (bind p (fun x => k))
  (at level 100, p at next level, right associativity, only parsing).

(** Issue one call and return its reply. *)
Definition invoke (c : Call) : Prog (Reply c) := Do c Ret.

(** An event of the trace: the call and the error it returned, if any. *)
Record Event := Ev { ev_call : Call; ev_err : option awserr }.

#[global] Instance Event_eq_dec : EqDecision Event.
Proof. solve_decision. Defined.

Section Run.
Context {W : Type} (handle : forall c : Call, W -> Reply c * W).

Fixpoint run {A} (p : Prog A) (w : W) : A * W * list Event :=
  match p with
  | Ret a => (a, w, [])
  | Do c k =>
      let '(r, w1) := handle c w in
      let '(a, w2, t) := run (k r) w1 in
      (a, w2, Ev c (reply_err c r) :: t)
  end.

Definition value_of {A} (x : A * W * list Event) : A := x.1.1.
Definition world_of {A} (x : A * W * list Event) : W := x.1.2.
Definition trace_of {A} (x : A * W * list Event) : list Event := x.2.
End Run.
Arguments value_of {W A} !x /.
Arguments world_of {W A} !x /.
Arguments trace_of {W A} !x /.

(** ** The host: what the SDK and the provider supply

    The retry helper polls until its window closes, so a run is determined
    by how many attempts complete within a window; the other entries are
    the helpers of the plugin SDK and of sibling packages that the file
    calls. *)
Record Host := {
  attemptsWithin : Z -> nat;            (* attempts completed within so many seconds *)
  PropagationTimeout : Z;               (* waiter.PropagationTimeout, in seconds *)
  UniqueId : string;                    (* resource.UniqueId() *)
  PrefixedUniqueId : string -> string;  (* resource.PrefixedUniqueId *)
  IgnoreAws : tags -> tags;             (* keyvaluetags ... IgnoreAws() *)
  IgnoreConfig : tags -> tags;          (* ... IgnoreConfig(ignoreTagsConfig) *)
  QueryUnescape : string -> string + string   (* url.QueryUnescape: value or error text *)
}.

Definition Second : Z := 1.

(** ** resource.Retry *)

Inductive RetryError : Type :=
| RetryableError (err : error)
| NonRetryableError (err : error).

(** [f] is polled while it answers with a retryable error and the window
    is open; the value of a successful attempt is what the closure assigns
    to the variable it captured.  When the window closes the last error of
    [f] is returned; if no attempt completed at all, the bare timeout error
    is. *)
Fixpoint retryLoop {A} (n : nat) (f : Prog (A + RetryError)) (resultErr : option error)
  : Prog (A + error) :=
  match n with
  | O => Ret (inr (default TimeoutError resultErr))
  | S n' =>
      rerr <- f ;;
      match rerr with
      | inl a => Ret (inl a)
      | inr (NonRetryableError e) => Ret (inr e)
      | inr (RetryableError e) => retryLoop n' f (Some e)
      end
  end.

Definition Retry {A} (host : Host) (timeout : Z) (f : Prog (A + RetryError))
  : Prog (A + error) :=
  retryLoop (attemptsWithin host timeout) f None.

(** The error of a retry, as [err] of [err := resource.Retry(...)]. *)
Definition retryErr {A} (r : A + error) : option error :=
  match r with
  | inl _ => None
  | inr e => Some e
  end.

(** ** Resource data *)

(** An element of the [inline_policy] set or a flattened policy:
    [map[string]interface{}] with string values. *)
Abbreviation tfMap := (gmap string string).

(** [m[k].(string)]; every element read from the set carries each key of
    the element schema. *)
Definition tfString (m : tfMap) (k : string) : string := default "" (m !! k).

(** The attributes of the schema. *)
Record Values := MkValues {
  arn : string;
  unique_id : string;
  name : string;
  name_prefix : string;
  path : string;
  permissions_boundary : string;
  description : string;
  assume_role_policy : string;
  force_detach_policies : bool;
  create_date : string;
  max_session_duration : Z;
  tags_ : tags;
  inline_policy : list tfMap;
  managed_policy_arns : list string
}.

(** [*schema.ResourceData]: the id, the prior state and the planned
    values.  [d.Get] reads the planned values, [d.GetChange] returns both,
    [d.Set] writes the planned values. *)
Record ResourceData := { Id : string; prior : Values; planned : Values }.

Definition SetId (v : string) (d : ResourceData) : ResourceData :=
  {| Id := v; prior := prior d; planned := planned d |}.

Definition Set_ (f : Values -> Values) (d : ResourceData) : ResourceData :=
  {| Id := Id d; prior := prior d; planned := f (planned d) |}.

Definition with_arn (v : string) '(MkValues _ a2 a3 a4 a5 a6 a7 a8 a9 a10 a11 a12 a13 a14) :=
  MkValues v a2 a3 a4 a5 a6 a7 a8 a9 a10 a11 a12 a13 a14.
Definition with_unique_id (v : string) '(MkValues a1 _ a3 a4 a5 a6 a7 a8 a9 a10 a11 a12 a13 a14) :=
  MkValues a1 v a3 a4 a5 a6 a7 a8 a9 a10 a11 a12 a13 a14.
Definition with_name (v : string) '(MkValues a1 a2 _ a4 a5 a6 a7 a8 a9 a10 a11 a12 a13 a14) :=
  MkValues a1 a2 v a4 a5 a6 a7 a8 a9 a10 a11 a12 a13 a14.
Definition with_path (v : string) '(MkValues a1 a2 a3 a4 _ a6 a7 a8 a9 a10 a11 a12 a13 a14) :=
  MkValues a1 a2 a3 a4 v a6 a7 a8 a9 a10 a11 a12 a13 a14.
Definition with_permissions_boundary (v : string)
  '(MkValues a1 a2 a3 a4 a5 _ a7 a8 a9 a10 a11 a12 a13 a14) :=
  MkValues a1 a2 a3 a4 a5 v a7 a8 a9 a10 a11 a12 a13 a14.
Definition with_description (v : string)
  '(MkValues a1 a2 a3 a4 a5 a6 _ a8 a9 a10 a11 a12 a13 a14) :=
  MkValues a1 a2 a3 a4 a5 a6 v a8 a9 a10 a11 a12 a13 a14.
Definition with_assume_role_policy (v : string)
  '(MkValues a1 a2 a3 a4 a5 a6 a7 _ a9 a10 a11 a12 a13 a14) :=
  MkValues a1 a2 a3 a4 a5 a6 a7 v a9 a10 a11 a12 a13 a14.
Definition with_force_detach_policies (v : bool)
  '(MkValues a1 a2 a3 a4 a5 a6 a7 a8 _ a10 a11 a12 a13 a14) :=
  MkValues a1 a2 a3 a4 a5 a6 a7 a8 v a10 a11 a12 a13 a14.
Definition with_create_date (v : string)
  '(MkValues a1 a2 a3 a4 a5 a6 a7 a8 a9 _ a11 a12 a13 a14) :=
  MkValues a1 a2 a3 a4 a5 a6 a7 a8 a9 v a11 a12 a13 a14.
Definition with_max_session_duration (v : Z)
  '(MkValues a1 a2 a3 a4 a5 a6 a7 a8 a9 a10 _ a12 a13 a14) :=
  MkValues a1 a2 a3 a4 a5 a6 a7 a8 a9 a10 v a12 a13 a14.
Definition with_tags (v : tags) '(MkValues a1 a2 a3 a4 a5 a6 a7 a8 a9 a10 a11 _ a13 a14) :=
  MkValues a1 a2 a3 a4 a5 a6 a7 a8 a9 a10 a11 v a13 a14.
Definition with_inline_policy (v : list tfMap)
  '(MkValues a1 a2 a3 a4 a5 a6 a7 a8 a9 a10 a11 a12 _ a14) :=
  MkValues a1 a2 a3 a4 a5 a6 a7 a8 a9 a10 a11 a12 v a14.
Definition with_managed_policy_arns (v : list string)
  '(MkValues a1 a2 a3 a4 a5 a6 a7 a8 a9 a10 a11 a12 a13 _) :=
  MkValues a1 a2 a3 a4 a5 a6 a7 a8 a9 a10 a11 a12 a13 v.

(** *** Sets

    A [*schema.Set] holds its elements under their hash codes.  It is
    modelled by the list of its elements, two elements being the same when
    they are equal (hash collisions apart). *)
Section SchemaSet.
Context {A : Type} `{EqDecision A}.

(** [s.Difference(other)]: the elements of [s] that [other] lacks. *)
Definition Difference (s other : list A) : list A :=
  filter (fun x => x ∉ other) s.

(** [s.Equal(other)]: the same elements. *)
Definition Equal (s other : list A) : bool :=
  bool_decide (s ⊆ other) && bool_decide (other ⊆ s).
End SchemaSet.

(** Modelled from the spec: [expandStringList] and [expandStringSet] are
    defined with the other flatteners and expanders of the provider.  They
    turn the elements of a list, or of a set, into strings and leave the
    empty string out. *)
Definition expandStringList (configured : list string) : list string :=
  filter (fun v => v ≠ "") configured.

Definition expandStringSet (configured : list string) : list string :=
  expandStringList configured.

(** The attributes that the update handler inspects with [d.HasChange]. *)
Module key.
Inductive t : Type :=
| assume_role_policy
| description
| max_session_duration
| permissions_boundary
| tags
| inline_policy
| managed_policy_arns.
End key.

(** [d.HasChange(key)]: old and new value differ; sets are compared with
    [Equal]. *)
Definition HasChange (d : ResourceData) (k : key.t) : bool :=
  let o := prior d in
  let n := planned d in
  match k with
  | key.assume_role_policy => bool_decide (assume_role_policy o ≠ assume_role_policy n)
  | key.description => bool_decide (description o ≠ description n)
  | key.max_session_duration => bool_decide (max_session_duration o ≠ max_session_duration n)
  | key.permissions_boundary => bool_decide (permissions_boundary o ≠ permissions_boundary n)
  | key.tags => bool_decide (tags_ o ≠ tags_ n)
  | key.inline_policy => negb (Equal (inline_policy o) (inline_policy n))
  | key.managed_policy_arns => negb (Equal (managed_policy_arns o) (managed_policy_arns n))
  end.

(** ** The schema *)

Inductive ValueType := TypeString | TypeBool | TypeInt | TypeMap | TypeSet.

Record Schema := {
  Type_ : ValueType;
  Optional : bool;
  Required : bool;
  Computed : bool;
  ForceNew : bool
}.

Definition attr (t : ValueType) (optional required computed forceNew : bool) : Schema :=
  {| Type_ := t; Optional := optional; Required := required;
     Computed := computed; ForceNew := forceNew |}.

(** The [Schema] map of [resourceAwsIamRole]. *)
Definition resourceAwsIamRole : gmap string Schema :=
  list_to_map
    [ ("arn", attr TypeString false false true false);
      ("unique_id", attr TypeString false false true false);
      ("name", attr TypeString true false true true);
      ("name_prefix", attr TypeString true false false true);
      ("path", attr TypeString true false false true);
      ("permissions_boundary", attr TypeString true false false false);
      ("description", attr TypeString true false false false);
      ("assume_role_policy", attr TypeString false true false false);
      ("force_detach_policies", attr TypeBool true false false false);
      ("create_date", attr TypeString false false true false);
      ("max_session_duration", attr TypeInt true false false false);
      ("tags", attr TypeMap true false false false);
      ("inline_policy", attr TypeSet true false true false);
      ("managed_policy_arns", attr TypeSet true false true false) ].

(** ** Control flow

    A block of a handler either falls through to the statements after it
    or returns from the handler. *)
Inductive Flow (A : Type) : Type :=
| Next
| Return (a : A).
Arguments Next {A}.
Arguments Return {A} a.

Definition andThen {A} (block : Prog (Flow A)) (rest : Prog A) : Prog A :=
  f <- block ;;
  match f with
  | Next => rest
  | Return a => Ret a
  end.

Notation "block ;;; rest" := (andThen block rest)
  (at level 100, rest at level 200, right associativity, only parsing).

(** The [error] of a reply: nil, or the SDK error. *)
Definition errOf {A} (r : result A) : option error := AwsError <$> result_err r.

(** ** Deleting *)

Fixpoint deleteAwsIamRolePolicyAttachments (rolename : string) (managedPolicies : list string)
  : Prog (option error) :=
  match managedPolicies with
  | [] => Ret None
  | parn :: rest =>
      r <- invoke (DetachRolePolicy parn rolename) ;;
      let err := errOf r in
      if ErrCodeEquals err ErrCodeNoSuchEntityException
      then deleteAwsIamRolePolicyAttachments rolename rest
      else match err with
           | Some e => Ret (Some e)
           | None => deleteAwsIamRolePolicyAttachments rolename rest
           end
  end.

Fixpoint deleteAwsIamRolePolicies (rolename : string) (policyNames : list string)
  : Prog (option error) :=
  match policyNames with
  | [] => Ret None
  | name :: rest =>
      r <- invoke (DeleteRolePolicy name rolename) ;;
      let err := errOf r in
      if ErrCodeEquals err ErrCodeNoSuchEntityException
      then Ret None
      else match err with
           | Some e => Ret (Some e)
           | None => deleteAwsIamRolePolicies rolename rest
           end
  end.

(** The loop of [deleteAwsIamRoleInstanceProfiles] over [resp.InstanceProfiles]. *)
Fixpoint removeRoleFromInstanceProfiles (rolename : string) (profiles : list string)
  : Prog (option error) :=
  match profiles with
  | [] => Ret None
  | i :: rest =>
      r <- invoke (RemoveRoleFromInstanceProfile i rolename) ;;
      let err := errOf r in
      if ErrCodeEquals err ErrCodeNoSuchEntityException
      then removeRoleFromInstanceProfiles rolename rest
      else match err with
           | Some e => Ret (Some e)
           | None => removeRoleFromInstanceProfiles rolename rest
           end
  end.

Definition deleteAwsIamRoleInstanceProfiles (rolename : string) : Prog (option error) :=
  resp <- invoke (ListInstanceProfilesForRole rolename) ;;
  let err := errOf resp in
  if ErrCodeEquals err ErrCodeNoSuchEntityException
  then Ret None
  else match resp with
       | Failed e => Ret (Some (AwsError e))
       | Ok profiles => removeRoleFromInstanceProfiles rolename profiles
       end.

(** The callback appends every page; the error of the listing is dropped
    when its code is NoSuchEntity. *)
Definition readAwsIamRolePolicyAttachments (rolename : string)
  : Prog (list string * option error) :=
  r <- invoke (ListAttachedRolePoliciesPages rolename) ;;
  let managedPolicies := concat r.1 in
  let err := AwsError <$> r.2 in
  match err with
  | Some e =>
      if negb (ErrCodeEquals err ErrCodeNoSuchEntityException)
      then Ret ([], Some e)
      else Ret (managedPolicies, None)
  | None => Ret (managedPolicies, None)
  end.

Definition readAwsIamRolePolicyNames (rolename : string)
  : Prog (list string * option error) :=
  r <- invoke (ListRolePoliciesPages rolename) ;;
  let inlinePolicies := concat r.1 in
  let err := AwsError <$> r.2 in
  match err with
  | Some e =>
      if negb (ErrCodeEquals err ErrCodeNoSuchEntityException)
      then Ret ([], Some e)
      else Ret (inlinePolicies, None)
  | None => Ret (inlinePolicies, None)
  end.

Section Handlers.
Context (host : Host).

(** The function polled by the retry of [deleteAwsIamRole]. *)
Definition tryDeleteRole (rolename : string) : Prog (unit + RetryError) :=
  r <- invoke (DeleteRole rolename) ;;
  match errOf r with
  | Some e =>
      if ErrCodeEquals (Some e) ErrCodeDeleteConflictException
      then Ret (inr (RetryableError e))
      else Ret (inr (NonRetryableError e))
  | None => Ret (inl ())
  end.

(** The three parts of [deleteAwsIamRole]: the instance profiles, the
    policies when [forceDetach] is set, and the retried DeleteRole. *)
Definition detachInstanceProfiles (rolename : string) : Prog (Flow (option error)) :=
  err <- deleteAwsIamRoleInstanceProfiles rolename ;;
  match err with
  | Some e => Ret (Return (Some (Errorf_w "unable to detach instance profiles" e)))
  | None => Ret Next
  end.

Definition detachPolicies (rolename : string) : Prog (Flow (option error)) :=
  r <- readAwsIamRolePolicyAttachments rolename ;;
  match r.2 with
  | Some e => Ret (Return (Some e))
  | None =>
      err <- deleteAwsIamRolePolicyAttachments rolename r.1 ;;
      match err with
      | Some e => Ret (Return (Some (Errorf_w "unable to detach policies" e)))
      | None =>
          r <- readAwsIamRolePolicyNames rolename ;;
          match r.2 with
          | Some e => Ret (Return (Some e))
          | None =>
              err <- deleteAwsIamRolePolicies rolename r.1 ;;
              match err with
              | Some e => Ret (Return (Some (Errorf_w "unable to delete inline policies" e)))
              | None => Ret Next
              end
          end
      end
  end.

Definition deleteRoleWithRetry (rolename : string) : Prog (option error) :=
  r <- Retry host (PropagationTimeout host) (tryDeleteRole rolename) ;;
  let err := retryErr r in
  if isResourceTimeoutError err
  then r <- invoke (DeleteRole rolename) ;; Ret (errOf r)
  else Ret err.

Definition deleteAwsIamRole (rolename : string) (forceDetach : bool) : Prog (option error) :=
  detachInstanceProfiles rolename ;;;
  (if forceDetach then detachPolicies rolename else Ret Next) ;;;
  deleteRoleWithRetry rolename.

Definition resourceAwsIamRoleDelete (d : ResourceData) : Prog (option error) :=
  err <- deleteAwsIamRole (Id d) (force_detach_policies (planned d)) ;;
  if ErrCodeEquals err ErrCodeNoSuchEntityException
  then Ret None
  else match err with
       | Some e => Ret (Some (Errorf_w ("error deleting IAM Role (" +:+ Id d +:+ ")") e))
       | None => Ret None
       end.

(** *** Inline policies and managed policies *)

Definition flattenIamInlinePolicy (apiObject : PutRolePolicyInput) : tfMap :=
  <["policy" := StringValue (PolicyDocument apiObject)]>
    (<["name" := StringValue (PolicyName apiObject)]> ∅).

Definition flattenIamInlinePolicies (apiObjects : list PutRolePolicyInput) : list tfMap :=
  match apiObjects with
  | [] => []
  | _ => map flattenIamInlinePolicy apiObjects
  end.

Definition expandIamInlinePolicy (roleName : string) (m : tfMap) : PutRolePolicyInput :=
  let policyName :=
    match m !! "name" with
    | Some v => v
    | None =>
        match m !! "name_prefix" with
        | Some v => PrefixedUniqueId host v
        | None => UniqueId host
        end
    end in
  {| pr_RoleName := Some roleName;
     PolicyDocument := Some (tfString m "policy");
     PolicyName := Some policyName |}.

Definition expandIamInlinePolicies (roleName : string) (tfList : list tfMap)
  : list PutRolePolicyInput :=
  match tfList with
  | [] => []
  | _ => map (expandIamInlinePolicy roleName) tfList
  end.

(** The loop of [resourceAwsIamRoleCreateInlinePolicies]; [errs] is the
    multierror built so far. *)
Fixpoint putRolePolicies (policies : list PutRolePolicyInput) (errs : list error)
  : Prog (option error) :=
  match policies with
  | [] => Ret (ErrorOrNil errs)
  | policy :: rest =>
      r <- invoke (PutRolePolicy policy) ;;
      match errOf r with
      | Some err =>
          let newErr :=
            Errorf_w ("creating inline policy (" +:+ StringValue (PolicyName policy) +:+ ")") err in
          putRolePolicies rest (errs ++ [newErr])
      | None => putRolePolicies rest errs
      end
  end.

Definition resourceAwsIamRoleCreateInlinePolicies (policies : list PutRolePolicyInput)
  : Prog (option error) :=
  putRolePolicies policies [].

(** Modelled from the spec: [attachPolicyToRole] is defined in the file of
    the policy attachment resource.  It issues AttachRolePolicy for the
    role and the policy and returns the error of the call. *)
Definition attachPolicyToRole (role policyArn : string) : Prog (option error) :=
  r <- invoke (AttachRolePolicy role policyArn) ;;
  Ret (errOf r).

(** The loop of [resourceAwsIamRoleAttachManagedPolicies]. *)
Fixpoint attachRolePolicies (roleName : string) (policies : list string) (errs : list error)
  : Prog (option error) :=
  match policies with
  | [] => Ret (ErrorOrNil errs)
  | policyArn :: rest =>
      e <- attachPolicyToRole roleName policyArn ;;
      match e with
      | Some err =>
          let newErr := Errorf_w ("attaching managed policy (" +:+ policyArn +:+ ")") err in
          attachRolePolicies roleName rest (errs ++ [newErr])
      | None => attachRolePolicies roleName rest errs
      end
  end.

Definition resourceAwsIamRoleAttachManagedPolicies (roleName : string) (policies : list string)
  : Prog (option error) :=
  attachRolePolicies roleName policies [].

(** The loop of [resourceAwsIamRoleListInlinePolicies] over the policy
    names; the objects it builds carry no [PolicyName]. *)
Fixpoint getRolePolicies (roleName : string) (policyNames : list string)
    (apiObjects : list PutRolePolicyInput)
  : Prog (list PutRolePolicyInput * option error) :=
  match policyNames with
  | [] => Ret (apiObjects, None)
  | policyName :: rest =>
      policyResp <- invoke (GetRolePolicy roleName policyName) ;;
      match policyResp with
      | Failed e => Ret ([], Some (AwsError e))
      | Ok document =>
          match QueryUnescape host document with
          | inr text => Ret ([], Some (EscapeError text))
          | inl policy =>
              let apiObject :=
                {| pr_RoleName := Some roleName;
                   PolicyDocument := Some policy;
                   PolicyName := None |} in
              getRolePolicies roleName rest (apiObjects ++ [apiObject])
          end
      end
  end.

Definition resourceAwsIamRoleListInlinePolicies (roleName : string)
  : Prog (list PutRolePolicyInput * option error) :=
  r <- readAwsIamRolePolicyNames roleName ;;
  match r.2 with
  | Some e => Ret ([], Some e)
  | None => getRolePolicies roleName r.1 []
  end.
End Handlers.

(** ** Importing *)

Definition resourceAwsIamRoleImport (d : ResourceData) : list ResourceData :=
  [Set_ (with_force_detach_policies false) d].

(** ** Reading, creating, updating *)

Section Lifecycle.
Context (host : Host).

(** [d.Set] of a value of the attribute's type does not fail; the checks
    of its error in the source never fire. *)
Definition resourceAwsIamRoleRead (d : ResourceData) : Prog (option error * ResourceData) :=
  getResp <- invoke (GetRole (Id d)) ;;
  match getResp with
  | Failed e =>
      if isAWSErr (Some (AwsError e)) ErrCodeNoSuchEntityException ""
      then Ret (None, SetId "" d)
      else Ret (Some (Errorf_s ("Error reading IAM Role " +:+ Id d) (AwsError e)), d)
  | Ok None => Ret (None, SetId "" d)
  | Ok (Some role) =>
      let d := Set_ (with_arn (Arn role)) d in
      let d := Set_ (with_create_date (CreateDate role)) d in
      let d := Set_ (with_description (Description role)) d in
      let d := Set_ (with_max_session_duration (MaxSessionDuration role)) d in
      let d := Set_ (with_name (RoleName role)) d in
      let d := Set_ (with_path (Path role)) d in
      let d := match PermissionsBoundary role with
               | Some boundary => Set_ (with_permissions_boundary boundary) d
               | None => d
               end in
      let d := Set_ (with_unique_id (RoleId role)) d in
      let d := Set_ (with_tags (IgnoreConfig host (IgnoreAws host (Tags role)))) d in
      match QueryUnescape host (AssumeRolePolicyDocument role) with
      | inr text => Ret (Some (EscapeError text), d)
      | inl assumRolePolicy =>
          let d := Set_ (with_assume_role_policy assumRolePolicy) d in
          r <- resourceAwsIamRoleListInlinePolicies host (RoleName role) ;;
          match r.2 with
          | Some e =>
              Ret (Some (Errorf_s ("reading inline policies for IAM role " +:+ Id d +:+ ", error")
                           e), d)
          | None =>
              let d := Set_ (with_inline_policy (flattenIamInlinePolicies r.1)) d in
              r <- readAwsIamRolePolicyAttachments (RoleName role) ;;
              match r.2 with
              | Some e =>
                  Ret (Some (Errorf_s
                               ("reading managed policies for IAM role " +:+ Id d +:+ ", error")
                               e), d)
              | None => Ret (None, Set_ (with_managed_policy_arns r.1) d)
              end
          end
      end
  end.

(** The function polled by the retry of [resourceAwsIamRoleCreate]. *)
Definition tryCreateRole (request : CreateRoleInput) : Prog (Role + RetryError) :=
  r <- invoke (CreateRole request) ;;
  match r with
  | Failed e =>
      let err := AwsError e in
      if isAWSErr (Some err) "MalformedPolicyDocument" "Invalid principal in policy"
      then Ret (inr (RetryableError err))
      else Ret (inr (NonRetryableError err))
  | Ok role => Ret (inl role)
  end.

(** [d.GetOk] is true on a value that is not the zero value of its type. *)
Definition createRoleInput (d : ResourceData) : CreateRoleInput :=
  let v := planned d in
  let name :=
    if bool_decide (name v ≠ "") then name v
    else if bool_decide (name_prefix v ≠ "") then PrefixedUniqueId host (name_prefix v)
    else UniqueId host in
  {| cr_Path := path v;
     cr_RoleName := name;
     cr_AssumeRolePolicyDocument := assume_role_policy v;
     cr_Description :=
       if bool_decide (description v ≠ "") then Some (description v) else None;
     cr_MaxSessionDuration :=
       if bool_decide (max_session_duration v ≠ 0)
       then Some (max_session_duration v) else None;
     cr_PermissionsBoundary :=
       if bool_decide (permissions_boundary v ≠ "")
       then Some (permissions_boundary v) else None;
     cr_Tags :=
       if bool_decide (size (tags_ v) ≠ 0%nat)
       then Some (IgnoreAws host (tags_ v)) else None |}.

(** The retried CreateRole and the attempt after a bare timeout. *)
Definition createRoleWithRetry (request : CreateRoleInput) : Prog (Role + error) :=
  created <- Retry host (30 * Second) (tryCreateRole request) ;;
  if isResourceTimeoutError (retryErr created)
  then r <- invoke (CreateRole request) ;;
       match r with
       | Ok role => Ret (inl role)
       | Failed e => Ret (inr (AwsError e))
       end
  else Ret created.

(** What follows a successful CreateRole: the inline policies, the managed
    policies, the read. *)
Definition provision (d : ResourceData) (role : Role) : Prog (option error * ResourceData) :=
  let v := planned d in
  let roleName := RoleName role in
  (if bool_decide (inline_policy v ≠ []) then
     let policies := expandIamInlinePolicies host roleName (inline_policy v) in
     err <- resourceAwsIamRoleCreateInlinePolicies policies ;;
     match err with
     | Some e => Ret (Return (Some e, d))
     | None => Ret Next
     end
   else Ret Next) ;;;
  (if bool_decide (managed_policy_arns v ≠ []) then
     let managedPolicies := expandStringSet (managed_policy_arns v) in
     err <- resourceAwsIamRoleAttachManagedPolicies roleName managedPolicies ;;
     match err with
     | Some e => Ret (Return (Some e, d))
     | None => Ret Next
     end
   else Ret Next) ;;;
  resourceAwsIamRoleRead (SetId roleName d).

Definition resourceAwsIamRoleCreate (d : ResourceData) : Prog (option error * ResourceData) :=
  let request := createRoleInput d in
  created <- createRoleWithRetry request ;;
  match created with
  | inr err =>
      Ret (Some (Errorf_s ("Error creating IAM Role " +:+ cr_RoleName request) err), d)
  | inl role => provision d role
  end.

(** One call whose output is not used: [_, err := iamconn.X(input)]. *)
Definition attempt (c : Call) : Prog (option error) :=
  r <- invoke c ;;
  Ret (AwsError <$> reply_err c r).

(** The blocks of [resourceAwsIamRoleUpdate], one for each attribute. *)
Definition updateAssumeRolePolicy (d : ResourceData)
  : Prog (Flow (option error * ResourceData)) :=
  if HasChange d key.assume_role_policy then
    err <- attempt (UpdateAssumeRolePolicy (Id d) (assume_role_policy (planned d))) ;;
    match err with
    | Some err =>
        if isAWSErr (Some err) ErrCodeNoSuchEntityException ""
        then Ret (Return (None, SetId "" d))
        else Ret (Return (Some (Errorf_s ("Error Updating IAM Role (" +:+ Id d +:+
                                          ") Assume Role Policy") err), d))
    | None => Ret Next
    end
  else Ret Next.

Definition updateDescription (d : ResourceData)
  : Prog (Flow (option error * ResourceData)) :=
  if HasChange d key.description then
    err <- attempt (UpdateRoleDescription (Id d) (description (planned d))) ;;
    match err with
    | Some err =>
        if isAWSErr (Some err) ErrCodeNoSuchEntityException ""
        then Ret (Return (None, SetId "" d))
        else Ret (Return (Some (Errorf_s ("Error Updating IAM Role (" +:+ Id d +:+
                                          ") Assume Role Policy") err), d))
    | None => Ret Next
    end
  else Ret Next.

Definition updateMaxSessionDuration (d : ResourceData)
  : Prog (Flow (option error * ResourceData)) :=
  if HasChange d key.max_session_duration then
    err <- attempt (UpdateRole (Id d) (max_session_duration (planned d))) ;;
    match err with
    | Some err =>
        if isAWSErr (Some err) ErrCodeNoSuchEntityException ""
        then Ret (Return (None, SetId "" d))
        else Ret (Return (Some (Errorf_s ("Error Updating IAM Role (" +:+ Id d +:+
                                          ") Max Session Duration") err), d))
    | None => Ret Next
    end
  else Ret Next.

Definition updatePermissionsBoundary (d : ResourceData)
  : Prog (Flow (option error * ResourceData)) :=
  if HasChange d key.permissions_boundary then
    let permissionsBoundary := permissions_boundary (planned d) in
    if bool_decide (permissionsBoundary ≠ "") then
      err <- attempt (PutRolePermissionsBoundary permissionsBoundary (Id d)) ;;
      match err with
      | Some err =>
          Ret (Return (Some (Errorf_s "error updating IAM Role permissions boundary" err), d))
      | None => Ret Next
      end
    else
      err <- attempt (DeleteRolePermissionsBoundary (Id d)) ;;
      match err with
      | Some err =>
          Ret (Return (Some (Errorf_s "error deleting IAM Role permissions boundary" err), d))
      | None => Ret Next
      end
  else Ret Next.

Definition updateTags (d : ResourceData) : Prog (Flow (option error * ResourceData)) :=
  if HasChange d key.tags then
    err <- attempt (IamRoleUpdateTags (Id d) (tags_ (prior d)) (tags_ (planned d))) ;;
    match err with
    | Some err =>
        Ret (Return (Some (Errorf_s ("error updating IAM Role (" +:+ Id d +:+ ") tags") err), d))
    | None => Ret Next
    end
  else Ret Next.

Definition updateInlinePolicies (d : ResourceData)
  : Prog (Flow (option error * ResourceData)) :=
  if HasChange d key.inline_policy then
    let roleName := name (planned d) in
    let os := inline_policy (prior d) in
    let ns := inline_policy (planned d) in
    let remove := Difference os ns in
    let add := Difference ns os in
    let policyNames := map (fun m => tfString m "name") remove in
    err <- deleteAwsIamRolePolicies roleName policyNames ;;
    match err with
    | Some e => Ret (Return (Some (Errorf_w "unable to delete inline policies" e), d))
    | None =>
        let policies := expandIamInlinePolicies host roleName add in
        err <- resourceAwsIamRoleCreateInlinePolicies policies ;;
        match err with
        | Some e => Ret (Return (Some e, d))
        | None => Ret Next
        end
    end
  else Ret Next.

Definition updateManagedPolicies (d : ResourceData)
  : Prog (Flow (option error * ResourceData)) :=
  if HasChange d key.managed_policy_arns then
    let roleName := name (planned d) in
    let os := managed_policy_arns (prior d) in
    let ns := managed_policy_arns (planned d) in
    let remove := expandStringList (Difference os ns) in
    let add := expandStringList (Difference ns os) in
    err <- deleteAwsIamRolePolicyAttachments roleName remove ;;
    match err with
    | Some e => Ret (Return (Some (Errorf_w "unable to detach policies" e), d))
    | None =>
        err <- resourceAwsIamRoleAttachManagedPolicies roleName add ;;
        match err with
        | Some e => Ret (Return (Some e, d))
        | None => Ret Next
        end
    end
  else Ret Next.

Definition resourceAwsIamRoleUpdate (d : ResourceData) : Prog (option error * ResourceData) :=
  updateAssumeRolePolicy d ;;;
  updateDescription d ;;;
  updateMaxSessionDuration d ;;;
  updatePermissionsBoundary d ;;;
  updateTags d ;;;
  updateInlinePolicies d ;;;
  updateManagedPolicies d ;;;
  resourceAwsIamRoleRead d.
End Lifecycle.

(** * A small IAM service

    One role with its inline policies, attached policies and instance
    profiles, and a script of faults: each call consumes one entry of the
    script and fails with it when it holds an error.  The handlers are
    exercised against it. *)

Record Service := {
  svc_role : option Role;
  svc_inline : list (string * string);   (* policy name, document *)
  svc_attached : list string;            (* policy ARNs *)
  svc_profiles : list string;            (* instance profile names *)
  svc_faults : list (option awserr)
}.

Definition with_faults (fs : list (option awserr)) (s : Service) : Service :=
  {| svc_role := svc_role s; svc_inline := svc_inline s; svc_attached := svc_attached s;
     svc_profiles := svc_profiles s; svc_faults := fs |}.
Definition with_role (r : option Role) (s : Service) : Service :=
  {| svc_role := r; svc_inline := svc_inline s; svc_attached := svc_attached s;
     svc_profiles := svc_profiles s; svc_faults := svc_faults s |}.
Definition with_inline (l : list (string * string)) (s : Service) : Service :=
  {| svc_role := svc_role s; svc_inline := l; svc_attached := svc_attached s;
     svc_profiles := svc_profiles s; svc_faults := svc_faults s |}.
Definition with_attached (l : list string) (s : Service) : Service :=
  {| svc_role := svc_role s; svc_inline := svc_inline s; svc_attached := l;
     svc_profiles := svc_profiles s; svc_faults := svc_faults s |}.
Definition with_profiles (l : list string) (s : Service) : Service :=
  {| svc_role := svc_role s; svc_inline := svc_inline s; svc_attached := svc_attached s;
     svc_profiles := l; svc_faults := svc_faults s |}.

Definition NoSuchEntity : awserr := AwsErr "NoSuchEntity" "cannot be found".
Definition DeleteConflict : awserr := AwsErr "DeleteConflict" "must detach first".
Definition AccessDenied : awserr := AwsErr "AccessDenied" "not authorized".
Definition EntityAlreadyExists : awserr := AwsErr "EntityAlreadyExists" "already exists".
Definition InvalidPrincipal : awserr :=
  AwsErr "MalformedPolicyDocument" "Invalid principal in policy: AWS".

(** The failing reply of a call. *)
Definition failed (c : Call) (e : awserr) : Reply c :=
  match c with
  | CreateRole _ => Failed e
  | GetRole _ => Failed e
  | UpdateAssumeRolePolicy _ _ => Failed e
  | UpdateRoleDescription _ _ => Failed e
  | UpdateRole _ _ => Failed e
  | PutRolePermissionsBoundary _ _ => Failed e
  | DeleteRolePermissionsBoundary _ => Failed e
  | IamRoleUpdateTags _ _ _ => Failed e
  | PutRolePolicy _ => Failed e
  | DeleteRolePolicy _ _ => Failed e
  | GetRolePolicy _ _ => Failed e
  | ListRolePoliciesPages _ => ([], Some e)
  | AttachRolePolicy _ _ => Failed e
  | DetachRolePolicy _ _ => Failed e
  | ListAttachedRolePoliciesPages _ => ([], Some e)
  | ListInstanceProfilesForRole _ => Failed e
  | RemoveRoleFromInstanceProfile _ _ => Failed e
  | DeleteRole _ => Failed e
  end.

(** The role of that name, if the service has it. *)
Definition theRole (s : Service) (roleName : string) : option Role :=
  match svc_role s with
  | Some r => if bool_decide (RoleName r = roleName) then Some r else None
  | None => None
  end.

(** Change the role of that name. *)
Definition onRole (s : Service) (roleName : string) (f : Role -> Role) : result unit * Service :=
  match theRole s roleName with
  | Some r => (Ok (), with_role (Some (f r)) s)
  | None => (Failed NoSuchEntity, s)
  end.

Definition newRole (input : CreateRoleInput) : Role :=
  {| Arn := "arn:aws:iam::123456789012:role/" +:+ cr_RoleName input;
     CreateDate := "2021-01-01T00:00:00Z";
     Description := StringValue (cr_Description input);
     MaxSessionDuration := default 3600 (cr_MaxSessionDuration input);
     RoleName := cr_RoleName input;
     Path := cr_Path input;
     PermissionsBoundary := cr_PermissionsBoundary input;
     RoleId := "AROA" +:+ cr_RoleName input;
     Tags := default ∅ (cr_Tags input);
     AssumeRolePolicyDocument := cr_AssumeRolePolicyDocument input |}.

Definition setAssumeRolePolicy (doc : string) (r : Role) : Role :=
  {| Arn := Arn r; CreateDate := CreateDate r; Description := Description r;
     MaxSessionDuration := MaxSessionDuration r; RoleName := RoleName r; Path := Path r;
     PermissionsBoundary := PermissionsBoundary r; RoleId := RoleId r; Tags := Tags r;
     AssumeRolePolicyDocument := doc |}.
Definition setDescription (text : string) (r : Role) : Role :=
  {| Arn := Arn r; CreateDate := CreateDate r; Description := text;
     MaxSessionDuration := MaxSessionDuration r; RoleName := RoleName r; Path := Path r;
     PermissionsBoundary := PermissionsBoundary r; RoleId := RoleId r; Tags := Tags r;
     AssumeRolePolicyDocument := AssumeRolePolicyDocument r |}.
Definition setMaxSessionDuration (n : Z) (r : Role) : Role :=
  {| Arn := Arn r; CreateDate := CreateDate r; Description := Description r;
     MaxSessionDuration := n; RoleName := RoleName r; Path := Path r;
     PermissionsBoundary := PermissionsBoundary r; RoleId := RoleId r; Tags := Tags r;
     AssumeRolePolicyDocument := AssumeRolePolicyDocument r |}.
Definition setPermissionsBoundary (b : option string) (r : Role) : Role :=
  {| Arn := Arn r; CreateDate := CreateDate r; Description := Description r;
     MaxSessionDuration := MaxSessionDuration r; RoleName := RoleName r; Path := Path r;
     PermissionsBoundary := b; RoleId := RoleId r; Tags := Tags r;
     AssumeRolePolicyDocument := AssumeRolePolicyDocument r |}.
Definition setTags (t : tags) (r : Role) : Role :=
  {| Arn := Arn r; CreateDate := CreateDate r; Description := Description r;
     MaxSessionDuration := MaxSessionDuration r; RoleName := RoleName r; Path := Path r;
     PermissionsBoundary := PermissionsBoundary r; RoleId := RoleId r; Tags := t;
     AssumeRolePolicyDocument := AssumeRolePolicyDocument r |}.

(** A call that meets no fault. *)
Definition perform (c : Call) (s : Service) : Reply c * Service :=
  match c return Reply c * Service with
  | CreateRole input =>
      match svc_role s with
      | Some _ => (Failed EntityAlreadyExists, s)
      | None => let r := newRole input in (Ok r, with_role (Some r) s)
      end
  | GetRole n =>
      match theRole s n with
      | Some r => (Ok (Some r), s)
      | None => (Failed NoSuchEntity, s)
      end
  | UpdateAssumeRolePolicy n doc => onRole s n (setAssumeRolePolicy doc)
  | UpdateRoleDescription n text => onRole s n (setDescription text)
  | UpdateRole n duration => onRole s n (setMaxSessionDuration duration)
  | PutRolePermissionsBoundary b n => onRole s n (setPermissionsBoundary (Some b))
  | DeleteRolePermissionsBoundary n => onRole s n (setPermissionsBoundary None)
  | IamRoleUpdateTags n _ newTags => onRole s n (setTags newTags)
  | PutRolePolicy input =>
      match theRole s (StringValue (pr_RoleName input)) with
      | Some _ =>
          let n := StringValue (PolicyName input) in
          (Ok (), with_inline ((n, StringValue (PolicyDocument input))
                               :: filter (fun p => p.1 ≠ n) (svc_inline s)) s)
      | None => (Failed NoSuchEntity, s)
      end
  | DeleteRolePolicy p n =>
      match theRole s n with
      | Some _ =>
          if bool_decide (p ∈ (svc_inline s).*1)
          then (Ok (), with_inline (filter (fun q => q.1 ≠ p) (svc_inline s)) s)
          else (Failed NoSuchEntity, s)
      | None => (Failed NoSuchEntity, s)
      end
  | GetRolePolicy n p =>
      match theRole s n, list_find (fun q => q.1 = p) (svc_inline s) with
      | Some _, Some (_, q) => (Ok q.2, s)
      | _, _ => (Failed NoSuchEntity, s)
      end
  | ListRolePoliciesPages n =>
      match theRole s n with
      | Some _ => ([(svc_inline s).*1], None, s)
      | None => ([], Some NoSuchEntity, s)
      end
  | AttachRolePolicy n a =>
      match theRole s n with
      | Some _ => (Ok (), with_attached (a :: filter (fun b => b ≠ a) (svc_attached s)) s)
      | None => (Failed NoSuchEntity, s)
      end
  | DetachRolePolicy a n =>
      match theRole s n with
      | Some _ =>
          if bool_decide (a ∈ svc_attached s)
          then (Ok (), with_attached (filter (fun b => b ≠ a) (svc_attached s)) s)
          else (Failed NoSuchEntity, s)
      | None => (Failed NoSuchEntity, s)
      end
  | ListAttachedRolePoliciesPages n =>
      match theRole s n with
      | Some _ => ([svc_attached s], None, s)
      | None => ([], Some NoSuchEntity, s)
      end
  | ListInstanceProfilesForRole n =>
      match theRole s n with
      | Some _ => (Ok (svc_profiles s), s)
      | None => (Failed NoSuchEntity, s)
      end
  | RemoveRoleFromInstanceProfile i n =>
      match theRole s n with
      | Some _ =>
          if bool_decide (i ∈ svc_profiles s)
          then (Ok (), with_profiles (filter (fun j => j ≠ i) (svc_profiles s)) s)
          else (Failed NoSuchEntity, s)
      | None => (Failed NoSuchEntity, s)
      end
  | DeleteRole n =>
      match theRole s n with
      | Some _ =>
          if bool_decide (svc_inline s = [] /\ svc_attached s = [] /\ svc_profiles s = [])
          then (Ok (), with_role None s)
          else (Failed DeleteConflict, s)
      | None => (Failed NoSuchEntity, s)
      end
  end.

Definition serve (c : Call) (s : Service) : Reply c * Service :=
  match svc_faults s with
  | Some e :: script => (failed c e, with_faults script s)
  | None :: script => perform c (with_faults script s)
  | [] => perform c s
  end.

Definition host0 : Host :=
  {| attemptsWithin := fun seconds => Z.to_nat (seconds / 10);
     PropagationTimeout := 120;
     UniqueId := "terraform-20210101000000000000000001";
     PrefixedUniqueId := fun prefix => prefix +:+ "20210101000000000000000001";
     IgnoreAws := fun t => t;
     IgnoreConfig := fun t => t;
     QueryUnescape := fun text => inl text |}.

Definition trustPolicy : string := "{}".

Definition role0 : Role :=
  {| Arn := "arn:aws:iam::123456789012:role/app";
     CreateDate := "2021-01-01T00:00:00Z";
     Description := "application role";
     MaxSessionDuration := 3600;
     RoleName := "app";
     Path := "/";
     PermissionsBoundary := None;
     RoleId := "AROAapp";
     Tags := ∅;
     AssumeRolePolicyDocument := trustPolicy |}.

Definition values0 : Values :=
  {| arn := "arn:aws:iam::123456789012:role/app"; unique_id := "AROAapp"; name := "app";
     name_prefix := ""; path := "/"; permissions_boundary := "";
     description := "application role"; assume_role_policy := trustPolicy;
     force_detach_policies := false; create_date := "2021-01-01T00:00:00Z";
     max_session_duration := 3600; tags_ := ∅; inline_policy := [];
     managed_policy_arns := [] |}.

Definition service0 : Service :=
  {| svc_role := Some role0; svc_inline := []; svc_attached := [];
     svc_profiles := []; svc_faults := [] |}.

(** * Predicates on events *)

(** [issues P p]: whatever the service replies, [p] issues only calls that
    satisfy [P]. *)
Fixpoint issues {A} (P : Call -> Prop) (p : Prog A) : Prop :=
  match p with
  | Ret _ => True
  | Do c k => P c /\ forall r, issues P (k r)
  end.

(** The event failed with an error of that code. *)
Definition hasCode (code : string) (ev : Event) : Prop :=
  exists e, ev_err ev = Some e /\ Code e = code.

(** The error that the loop of the inline policies appends for an event. *)
Definition inlineFailure (ev : Event) : option error :=
  match ev_call ev, ev_err ev with
  | PutRolePolicy policy, Some e =>
      Some (Errorf_w ("creating inline policy (" +:+ StringValue (PolicyName policy) +:+ ")")
              (AwsError e))
  | _, _ => None
  end.

(** The error that the loop of the managed policies appends for an event. *)
Definition managedFailure (ev : Event) : option error :=
  match ev_call ev, ev_err ev with
  | AttachRolePolicy _ policyArn, Some e =>
      Some (Errorf_w ("attaching managed policy (" +:+ policyArn +:+ ")") (AwsError e))
  | _, _ => None
  end.


(** The steps of the cascade delete, in the order of [deleteAwsIamRole]. *)
Definition phase (c : Call) : nat :=
  match c with
  | ListInstanceProfilesForRole _ | RemoveRoleFromInstanceProfile _ _ => 0
  | ListAttachedRolePoliciesPages _ | DetachRolePolicy _ _ => 1
  | ListRolePoliciesPages _ | DeleteRolePolicy _ _ => 2
  | DeleteRole _ => 3
  | _ => 4
  end.

(** [ordered lo hi p]: along every run of [p] the phases of the calls never
    go down, and they stay between [lo] and [hi]. *)
Fixpoint ordered {A} (lo hi : nat) (p : Prog A) : Prop :=
  match p with
  | Ret _ => True
  | Do c k => (lo <= phase c <= hi)%nat /\ forall r, ordered (phase c) hi (k r)
  end.

(** The attempts of a retried call, by the error of each: at most [budget]
    of them, each one but the last failed with a retryable error, and a
    last one that failed with a retryable error used the budget up. *)
Definition retried (retryable : awserr -> bool) (budget : nat) (errs : list (option awserr))
  : Prop :=
  (length errs <= budget)%nat
  /\ (forall i o, errs !! i = Some o -> (S i < length errs)%nat ->
      exists a, o = Some a /\ retryable a = true)
  /\ (forall a, last errs = Some (Some a) -> retryable a = true -> length errs = budget).

(** The errors on which the two retries of the file go on. *)
Definition isDeleteConflict (a : awserr) : bool :=
  ErrCodeEquals (Some (AwsError a)) ErrCodeDeleteConflictException.

Definition isInvalidPrincipal (a : awserr) : bool :=
  isAWSErr (Some (AwsError a)) "MalformedPolicyDocument" "Invalid principal in policy".

(** An error that is returned is the error of the last call, and that
    error satisfies [ok]. *)
Definition failsWith (ok : awserr -> Prop) (v : option error) (t : list Event) : Prop :=
  forall e, v = Some e ->
    exists ev a, last t = Some ev /\ ev_err ev = Some a /\ asAwsErr e = Some a /\ ok a.

Definition notNoSuchEntity (a : awserr) : Prop := Code a <> ErrCodeNoSuchEntityException.

(** What a part of the handler returns when it returns: an error, which is
    the error of its last call. *)
Definition returnsFailure {W} (x : Flow (option error) * W * list Event) : Prop :=
  match value_of x with
  | Next => True
  | Return v => v <> None /\ failsWith notNoSuchEntity v (trace_of x)
  end.

(** The attributes that a call writes.  CreateRole and DeleteRole write
    them all. *)
Definition touches (c : Call) (k : key.t) : bool :=
  match c, k with
  | UpdateAssumeRolePolicy _ _, key.assume_role_policy => true
  | UpdateRoleDescription _ _, key.description => true
  | UpdateRole _ _, key.max_session_duration => true
  | PutRolePermissionsBoundary _ _, key.permissions_boundary => true
  | DeleteRolePermissionsBoundary _, key.permissions_boundary => true
  | IamRoleUpdateTags _ _ _, key.tags => true
  | PutRolePolicy _, key.inline_policy => true
  | DeleteRolePolicy _ _, key.inline_policy => true
  | AttachRolePolicy _ _, key.managed_policy_arns => true
  | DetachRolePolicy _ _, key.managed_policy_arns => true
  | CreateRole _, _ => true
  | DeleteRole _, _ => true
  | _, _ => false
  end.

(** The calls that read. *)
Definition reads (c : Call) : Prop :=
  match c with
  | GetRole _ | GetRolePolicy _ _ | ListRolePoliciesPages _
  | ListAttachedRolePoliciesPages _ => True
  | _ => False
  end.

(** The calls that the update of [d] can issue: a write for an attribute
    that changed, with the input the handler builds for it, or a read. *)
Definition updateCalls (host : Host) (d : ResourceData) (c : Call) : Prop :=
  let roleName := name (planned d) in
  match c with
  | UpdateAssumeRolePolicy r doc =>
      HasChange d key.assume_role_policy = true /\ r = Id d
      /\ doc = assume_role_policy (planned d)
  | UpdateRoleDescription r text =>
      HasChange d key.description = true /\ r = Id d /\ text = description (planned d)
  | UpdateRole r n =>
      HasChange d key.max_session_duration = true /\ r = Id d
      /\ n = max_session_duration (planned d)
  | PutRolePermissionsBoundary b r =>
      HasChange d key.permissions_boundary = true /\ r = Id d
      /\ b = permissions_boundary (planned d) /\ b <> ""
  | DeleteRolePermissionsBoundary r =>
      HasChange d key.permissions_boundary = true /\ r = Id d
      /\ permissions_boundary (planned d) = ""
  | IamRoleUpdateTags r o n =>
      HasChange d key.tags = true /\ r = Id d /\ o = tags_ (prior d) /\ n = tags_ (planned d)
  | DeleteRolePolicy n r =>
      HasChange d key.inline_policy = true /\ r = roleName
      /\ exists m, (m ∈ inline_policy (prior d)) /\ (m ∉ inline_policy (planned d))
                   /\ n = tfString m "name"
  | PutRolePolicy p =>
      HasChange d key.inline_policy = true
      /\ exists m, (m ∈ inline_policy (planned d)) /\ (m ∉ inline_policy (prior d))
                   /\ p = expandIamInlinePolicy host roleName m
  | DetachRolePolicy a r =>
      HasChange d key.managed_policy_arns = true /\ r = roleName
      /\ (a ∈ managed_policy_arns (prior d)) /\ (a ∉ managed_policy_arns (planned d))
      /\ a <> ""
  | AttachRolePolicy r a =>
      HasChange d key.managed_policy_arns = true /\ r = roleName
      /\ (a ∈ managed_policy_arns (planned d)) /\ (a ∉ managed_policy_arns (prior d))
      /\ a <> ""
  | GetRole _ | GetRolePolicy _ _ | ListRolePoliciesPages _
  | ListAttachedRolePoliciesPages _ => True
  | CreateRole _ | DeleteRole _ | ListInstanceProfilesForRole _
  | RemoveRoleFromInstanceProfile _ _ => False
  end.

(** The calls that give a role its name or take the role away. *)
Definition keepsName (c : Call) : Prop :=
  match c with
  | CreateRole _ | DeleteRole _ => False
  | _ => True
  end.

(** The rule of the plugin SDK for [ForceNew]: a plan in which an attribute
    marked [ForceNew] changes replaces the resource (destroy, then create)
    and does not call the update handler. *)
Definition RequiresNew (schema : gmap string Schema) (changed : list string) : bool :=
  existsb (fun k => match schema !! k with
                    | Some s => ForceNew s
                    | None => false
                    end) changed.

(** The writes of the update that name nothing but the role. *)
Definition roleWrite (c : Call) : Prop :=
  match c with
  | UpdateAssumeRolePolicy _ _ | UpdateRoleDescription _ _ | UpdateRole _ _ => True
  | _ => False
  end.

Definition noError (ev : Event) : Prop := ev_err ev = None.

#[global] Instance noError_dec (ev : Event) : Decision (noError ev).
Proof. unfold noError. apply _. Defined.

Definition notCreateRole (c : Call) : Prop :=
  match c with
  | CreateRole _ => False
  | _ => True
  end.




(** * Order of the calls of create, read and update *)

(** The steps of create and update in the order of the handlers: the
    creation, one write for each attribute, the removals from a set before
    the additions to it, and the four reads of [resourceAwsIamRoleRead]. *)
Definition step (c : Call) : nat :=
  match c with
  | CreateRole _ => 0
  | UpdateAssumeRolePolicy _ _ => 1
  | UpdateRoleDescription _ _ => 2
  | UpdateRole _ _ => 3
  | PutRolePermissionsBoundary _ _ | DeleteRolePermissionsBoundary _ => 4
  | IamRoleUpdateTags _ _ _ => 5
  | DeleteRolePolicy _ _ => 6
  | PutRolePolicy _ => 7
  | DetachRolePolicy _ _ => 8
  | AttachRolePolicy _ _ => 9
  | GetRole _ => 10
  | ListRolePoliciesPages _ => 11
  | GetRolePolicy _ _ => 12
  | ListAttachedRolePoliciesPages _ => 13
  | ListInstanceProfilesForRole _ | RemoveRoleFromInstanceProfile _ _ | DeleteRole _ => 14
  end.

(** [inOrder ph lo hi p]: along every run of [p] the values of [ph] on the
    calls never go down, and they stay between [lo] and [hi]. *)
Fixpoint inOrder {A} (ph : Call -> nat) (lo hi : nat) (p : Prog A) : Prop :=
  match p with
  | Ret _ => True
  | Do c k => (lo <= ph c <= hi)%nat /\ forall r, inOrder ph (ph c) hi (k r)
  end.

(** The calls that provision a new role. *)
Definition provisions (c : Call) : Prop :=
  match c with
  | PutRolePolicy _ | AttachRolePolicy _ _ => True
  | _ => False
  end.

(** The event failed with an error of another code than NoSuchEntity. *)
Definition failedOtherwise (ev : Event) : Prop :=
  exists a, ev_err ev = Some a /\ Code a <> ErrCodeNoSuchEntityException.

(** The event succeeded or failed with NoSuchEntity. *)
Definition goneOrFine (ev : Event) : Prop :=
  ev_err ev = None \/ hasCode ErrCodeNoSuchEntityException ev.

(** What the read calls of the small service leave alone: all but the
    script of faults. *)
Definition contents (s : Service)
  : option Role * list (string * string) * list string * list string :=
  (svc_role s, svc_inline s, svc_attached s, svc_profiles s).

(** What an aborted update returns: an error and the resource data as it
    was. *)
Definition aborted (d : ResourceData) (v : option error * ResourceData) : Prop :=
  exists e, v = (Some e, d).

(** The service after a sequence of calls. *)
Fixpoint replay {W : Type} (handle : forall c : Call, W -> Reply c * W)
    (calls : list Call) (w : W) : W :=
  match calls with
  | [] => w
  | c :: rest => replay handle rest (handle c w).2
  end.

(** The answer to GetRole for which [resourceAwsIamRoleRead] takes the role
    for gone: a NoSuchEntity error, or an output without a role. *)
Definition gone (r : result (option Role)) : bool :=
  match r with
  | Ok (Some _) => false
  | Ok None => true
  | Failed e => isAWSErr (Some (AwsError e)) ErrCodeNoSuchEntityException ""
  end.
(** * Reasoning about runs *)

Arguments ErrCodeEquals : simpl never.
Arguments isAWSErr : simpl never.

Lemma ErrCodeEquals_nil (code : string) : ErrCodeEquals None code = false.
Proof. reflexivity. Qed.

Lemma isAWSErr_nil (code message : string) : isAWSErr None code message = false.
Proof. reflexivity. Qed.

Lemma ErrCodeEquals_aws (e : awserr) (code : string) :
  ErrCodeEquals (Some (AwsError e)) code = true <-> Code e = code.
Proof. unfold ErrCodeEquals; simpl. apply String.eqb_eq. Qed.

Lemma ErrCodeEquals_aws_false (e : awserr) (code : string) :
  ErrCodeEquals (Some (AwsError e)) code = false <-> Code e <> code.
Proof. unfold ErrCodeEquals; simpl. apply String.eqb_neq. Qed.

Lemma isAWSErr_any_message (e : awserr) (code : string) :
  isAWSErr (Some (AwsError e)) code "" = true <-> Code e = code.
Proof.
  unfold isAWSErr; simpl.
  assert (Hc : forall s, Contains s "" = true) by (intros [|? ?]; reflexivity).
  rewrite Hc, andb_true_r. apply String.eqb_eq.
Qed.

(** Reduce the run of a finished program and the projections of a run. *)
Ltac simpl_run :=
  cbn [value_of world_of trace_of fst snd run reply_err result_err errOf
       fmap option_fmap option_map app] in *.

Section RunFacts.
Context {W : Type} (handle : forall c : Call, W -> Reply c * W).

Lemma run_bind {A B} (p : Prog A) (f : A -> Prog B) (w : W) :
  run handle (bind p f) w =
  let x := run handle p w in
  let y := run handle (f (value_of x)) (world_of x) in
  (value_of y, world_of y, trace_of x ++ trace_of y).
Proof.
  revert w. induction p as [a|c k IH]; intros w; cbn [bind run].
  - cbv [value_of world_of trace_of]. cbn.
    destruct (run handle (f a) w) as [[b w2] t]. reflexivity.
  - destruct (handle c w) as [r w1]. rewrite IH.
    cbv [value_of world_of trace_of]. cbn.
    destruct (run handle (k r) w1) as [[a w2] t]. cbn.
    destruct (run handle (f a) w2) as [[b w3] t']. reflexivity.
Qed.

Lemma run_invoke (c : Call) (w : W) :
  run handle (invoke c) w =
  ((handle c w).1, (handle c w).2, [Ev c (reply_err c (handle c w).1)]).
Proof. unfold invoke. simpl. destruct (handle c w). reflexivity. Qed.

Lemma run_andThen {A} (block : Prog (Flow A)) (rest : Prog A) (w : W) :
  run handle (andThen block rest) w =
  let x := run handle block w in
  match value_of x with
  | Next =>
      let y := run handle rest (world_of x) in
      (value_of y, world_of y, trace_of x ++ trace_of y)
  | Return a => (a, world_of x, trace_of x)
  end.
Proof.
  unfold andThen. rewrite run_bind. simpl.
  destruct (value_of (run handle block w)); simpl.
  - reflexivity.
  - rewrite app_nil_r. reflexivity.
Qed.
End RunFacts.

(** ** Which calls a program can issue *)


Lemma issues_bind {A B} (P : Call -> Prop) (p : Prog A) (f : A -> Prog B) :
  issues P p -> (forall a, issues P (f a)) -> issues P (bind p f).
Proof.
  induction p as [a|c k IH]; simpl; intros Hp Hf.
  - apply Hf.
  - destruct Hp as [Hc Hk]. split; [exact Hc|]. intros r. apply IH; auto.
Qed.

Lemma issues_invoke (P : Call -> Prop) (c : Call) : P c -> issues P (invoke c).
Proof. intros H. simpl. auto. Qed.

Lemma issues_andThen {A} (P : Call -> Prop) (block : Prog (Flow A)) (rest : Prog A) :
  issues P block -> issues P rest -> issues P (andThen block rest).
Proof.
  intros Hb Hr. unfold andThen. apply issues_bind; [exact Hb|].
  intros [|a]; simpl; auto.
Qed.

Lemma issues_mono {A} (P Q : Call -> Prop) (p : Prog A) :
  (forall c, P c -> Q c) -> issues P p -> issues Q p.
Proof.
  intros HPQ. induction p as [a|c k IH]; simpl; [auto|].
  intros [Hc Hk]. split; [auto|]. intros r. apply IH, Hk.
Qed.

Lemma issues_retryLoop {A} (P : Call -> Prop) (f : Prog (A + RetryError)) (n : nat)
    (resultErr : option error) :
  issues P f -> issues P (retryLoop n f resultErr).
Proof.
  intros Hf. revert resultErr. induction n as [|n IH]; intros resultErr; simpl; [exact I|].
  apply issues_bind; [exact Hf|].
  intros [a|[e|e]]; simpl; auto.
Qed.

Section IssuesRun.
Context {W : Type} (handle : forall c : Call, W -> Reply c * W).

(** Every event of a run is a call the program can issue. *)
Lemma issues_trace {A} (P : Call -> Prop) (p : Prog A) (w : W) :
  issues P p -> Forall (fun ev => P (ev_call ev)) (trace_of (run handle p w)).
Proof.
  revert w. induction p as [a|c k IH]; intros w; simpl.
  - intros _. constructor.
  - intros [Hc Hk]. destruct (handle c w) as [r w1].
    specialize (IH r w1 (Hk r)).
    destruct (run handle (k r) w1) as [[a w2] t].
    cbv [trace_of] in *. cbn in *.
    constructor; [exact Hc|exact IH].
Qed.

(** Frame: what the calls of a program leave alone, the program leaves
    alone. *)
Lemma issues_frame {A V} (P : Call -> Prop) (view : W -> V) (p : Prog A) (w : W) :
  (forall c w0, P c -> view (handle c w0).2 = view w0) ->
  issues P p -> view (world_of (run handle p w)) = view w.
Proof.
  intros Hframe. revert w. induction p as [a|c k IH]; intros w; simpl.
  - reflexivity.
  - intros [Hc Hk]. specialize (Hframe c w Hc).
    destruct (handle c w) as [r w1]. simpl in Hframe.
    specialize (IH r w1 (Hk r)).
    destruct (run handle (k r) w1) as [[a w2] t].
    cbv [world_of] in *. cbn in *. congruence.
Qed.
End IssuesRun.


(** * Bulk operations on policies *)


Section Loops.
Context {W : Type} (handle : forall c : Call, W -> Reply c * W).

Lemma deleteAwsIamRolePolicies_prefix (rolename : string) (policyNames : list string) (w : W) :
  let x := run handle (deleteAwsIamRolePolicies rolename policyNames) w in
  map ev_call (trace_of x) =
    take (length (trace_of x)) (map (fun n => DeleteRolePolicy n rolename) policyNames)
  /\ (forall i ev, trace_of x !! i = Some ev -> hasCode ErrCodeNoSuchEntityException ev ->
      length (trace_of x) = S i /\ value_of x = None).
Proof.
  revert w. induction policyNames as [|n rest IH]; intros w; cbn [deleteAwsIamRolePolicies].
  - simpl. split; [reflexivity|]. intros i ev H. rewrite lookup_nil in H. discriminate.
  - rewrite run_bind, run_invoke. cbn zeta.
    destruct (handle (DeleteRolePolicy n rolename) w) as [r w1].
    destruct r as [[]|e]; cbn; rewrite ?ErrCodeEquals_nil.
    + specialize (IH w1). cbn zeta in IH. destruct IH as [IH1 IH2].
      split; [f_equal; exact IH1|].
      intros [|i] ev Hi Hc; cbn in Hi.
      * injection Hi as <-. destruct Hc as (e & He & _). discriminate.
      * destruct (IH2 i ev Hi Hc) as [-> ->]. split; reflexivity.
    + destruct (ErrCodeEquals (Some (AwsError e)) ErrCodeNoSuchEntityException) eqn:Hcode; cbn.
      * split; [reflexivity|]. intros [|i] ev Hi Hc; cbn in Hi; [|discriminate].
        split; reflexivity.
      * split; [reflexivity|]. intros [|i] ev Hi Hc; cbn in Hi; [|discriminate].
        injection Hi as <-. destruct Hc as (e' & He & Hc). cbn in He. injection He as <-.
        apply ErrCodeEquals_aws_false in Hcode. contradiction.
Qed.

Lemma deleteAwsIamRolePolicyAttachments_skips (rolename : string)
    (managedPolicies : list string) (w : W) :
  let x := run handle (deleteAwsIamRolePolicyAttachments rolename managedPolicies) w in
  Forall (fun ev => ev_err ev = None \/ hasCode ErrCodeNoSuchEntityException ev) (trace_of x) ->
  map ev_call (trace_of x) = map (fun a => DetachRolePolicy a rolename) managedPolicies
  /\ value_of x = None.
Proof.
  revert w. induction managedPolicies as [|a rest IH]; intros w;
    cbn [deleteAwsIamRolePolicyAttachments].
  - simpl. auto.
  - rewrite run_bind, run_invoke. cbn zeta.
    destruct (handle (DetachRolePolicy a rolename) w) as [r w1].
    specialize (IH w1). cbn zeta in IH.
    destruct r as [[]|e]; cbn; rewrite ?ErrCodeEquals_nil.
    + intros H. apply Forall_cons in H as [_ H]. destruct (IH H) as [-> ->]. auto.
    + destruct (ErrCodeEquals (Some (AwsError e)) ErrCodeNoSuchEntityException) eqn:Hcode; cbn.
      * intros H. apply Forall_cons in H as [_ H]. destruct (IH H) as [-> ->]. auto.
      * intros H. apply Forall_cons in H as [[H|(e' & He & Hc)] _]; [discriminate|].
        cbn in He. injection He as <-.
        apply ErrCodeEquals_aws_false in Hcode. contradiction.
Qed.

(** The detaches are for a prefix of the list, and a detach that fails
    with another code than NoSuchEntity is the last one; its error is
    returned. *)
Lemma deleteAwsIamRolePolicyAttachments_prefix (rolename : string)
    (managedPolicies : list string) (w : W) :
  let x := run handle (deleteAwsIamRolePolicyAttachments rolename managedPolicies) w in
  map ev_call (trace_of x) =
    take (length (trace_of x)) (map (fun a => DetachRolePolicy a rolename) managedPolicies)
  /\ (forall i ev e, trace_of x !! i = Some ev -> ev_err ev = Some e ->
      Code e <> ErrCodeNoSuchEntityException ->
      length (trace_of x) = S i /\ value_of x = Some (AwsError e)).
Proof.
  revert w. induction managedPolicies as [|a rest IH]; intros w;
    cbn [deleteAwsIamRolePolicyAttachments].
  - simpl. split; [reflexivity|]. intros i ev e H. rewrite lookup_nil in H. discriminate.
  - rewrite run_bind, run_invoke. cbn zeta.
    destruct (handle (DetachRolePolicy a rolename) w) as [r w1].
    specialize (IH w1). cbn zeta in IH. destruct IH as [IH1 IH2].
    destruct r as [[]|e]; cbn; rewrite ?ErrCodeEquals_nil.
    + split; [f_equal; exact IH1|].
      intros [|i] ev e' Hi He Hc; cbn in Hi.
      * injection Hi as <-. discriminate.
      * destruct (IH2 i ev e' Hi He Hc) as [-> ->]. split; reflexivity.
    + destruct (ErrCodeEquals (Some (AwsError e)) ErrCodeNoSuchEntityException) eqn:Hcode; cbn.
      * split; [f_equal; exact IH1|].
        intros [|i] ev e' Hi He Hc; cbn in Hi.
        -- injection Hi as <-. cbn in He. injection He as <-.
           apply ErrCodeEquals_aws in Hcode. contradiction.
        -- destruct (IH2 i ev e' Hi He Hc) as [-> ->]. split; reflexivity.
      * split; [reflexivity|]. intros [|i] ev e' Hi He Hc; cbn in Hi; [|discriminate].
        injection Hi as <-. cbn in He. injection He as <-. split; reflexivity.
Qed.

Lemma putRolePolicies_run (policies : list PutRolePolicyInput) (errs : list error) (w : W) :
  let x := run handle (putRolePolicies policies errs) w in
  map ev_call (trace_of x) = map PutRolePolicy policies
  /\ value_of x = ErrorOrNil (errs ++ omap inlineFailure (trace_of x)).
Proof.
  revert errs w. induction policies as [|policy rest IH]; intros errs w; cbn [putRolePolicies].
  - simpl. rewrite app_nil_r. auto.
  - rewrite run_bind, run_invoke. cbn zeta.
    destruct (handle (PutRolePolicy policy) w) as [r w1].
    destruct r as [[]|e]; cbn.
    + destruct (IH errs w1) as [-> ->]. auto.
    + destruct (IH (errs ++ [Errorf_w ("creating inline policy (" +:+
                   StringValue (PolicyName policy) +:+ ")") (AwsError e)]) w1) as [-> ->].
      rewrite <- app_assoc. auto.
Qed.

Lemma attachRolePolicies_run (roleName : string) (policies : list string)
    (errs : list error) (w : W) :
  let x := run handle (attachRolePolicies roleName policies errs) w in
  map ev_call (trace_of x) = map (AttachRolePolicy roleName) policies
  /\ value_of x = ErrorOrNil (errs ++ omap managedFailure (trace_of x)).
Proof.
  revert errs w. induction policies as [|a rest IH]; intros errs w; cbn [attachRolePolicies].
  - simpl. rewrite app_nil_r. auto.
  - unfold attachPolicyToRole. rewrite !run_bind, run_invoke. cbn zeta.
    destruct (handle (AttachRolePolicy roleName a) w) as [r w1].
    destruct r as [[]|e]; cbn.
    + destruct (IH errs w1) as [-> ->]. auto.
    + destruct (IH (errs ++ [Errorf_w ("attaching managed policy (" +:+ a +:+ ")")
                               (AwsError e)]) w1) as [-> ->].
      rewrite <- app_assoc. auto.
Qed.
End Loops.

(** * The claims about bulk operations *)

(** C10.  [deleteAwsIamRolePolicies] issues DeleteRolePolicy for a prefix of
    the names it is given, and a NoSuchEntity failure ends the run with
    success at once: the event is the last one and the names after it are
    not tried.  [deleteAwsIamRolePolicyAttachments] goes on after a
    NoSuchEntity failure: when no detach fails otherwise, every policy of
    the list is tried and the result is success. *)
Theorem NoSuchEntity_ends_inline_deletion_not_detaching
    {W : Type} (handle : forall c : Call, W -> Reply c * W)
    (rolename : string) (names : list string) (w : W) :
  let x := run handle (deleteAwsIamRolePolicies rolename names) w in
  let y := run handle (deleteAwsIamRolePolicyAttachments rolename names) w in
  (map ev_call (trace_of x) =
     take (length (trace_of x)) (map (fun n => DeleteRolePolicy n rolename) names)
   /\ forall i ev, trace_of x !! i = Some ev -> hasCode ErrCodeNoSuchEntityException ev ->
       length (trace_of x) = S i /\ value_of x = None)
  /\ (Forall (fun ev => ev_err ev = None \/ hasCode ErrCodeNoSuchEntityException ev) (trace_of y) ->
      map ev_call (trace_of y) = map (fun a => DetachRolePolicy a rolename) names
      /\ value_of y = None).
Proof.
  cbn zeta. split.
  - apply deleteAwsIamRolePolicies_prefix.
  - apply deleteAwsIamRolePolicyAttachments_skips.
Qed.

(** Three policies, the second already gone: the inline deletion stops
    after two calls, the detaching makes all three. *)
Lemma NoSuchEntity_ends_inline_deletion_not_detaching_witness :
  let names := ["first"; "second"; "third"] in
  let s := with_faults [None; Some NoSuchEntity]
             (with_attached ["first"; "third"]
                (with_inline [("first", "{}"); ("third", "{}")] service0)) in
  let x := run serve (deleteAwsIamRolePolicies "app" names) s in
  let y := run serve (deleteAwsIamRolePolicyAttachments "app" names) s in
  (map ev_call (trace_of x) = [DeleteRolePolicy "first" "app"; DeleteRolePolicy "second" "app"]
   /\ value_of x = None)
  /\ (map ev_call (trace_of y) =
       [DetachRolePolicy "first" "app"; DetachRolePolicy "second" "app";
        DetachRolePolicy "third" "app"]
      /\ value_of y = None).
Proof.
  intros names s x y. subst x y.
  destruct (NoSuchEntity_ends_inline_deletion_not_detaching serve "app" names s)
    as [[Hprefix Hlast] Hskip].
  split.
  - split.
    + rewrite Hprefix. vm_compute. reflexivity.
    + refine (proj2 (Hlast 1%nat (Ev (DeleteRolePolicy "second" "app") (Some NoSuchEntity)) _ _)).
      * vm_compute. reflexivity.
      * exists NoSuchEntity. split; reflexivity.
  - destruct Hskip as [Hcalls Hvalue].
    + assert (Ht : trace_of (run serve (deleteAwsIamRolePolicyAttachments "app" names) s) =
                   [Ev (DetachRolePolicy "first" "app") None;
                    Ev (DetachRolePolicy "second" "app") (Some NoSuchEntity);
                    Ev (DetachRolePolicy "third" "app") None])
        by (vm_compute; reflexivity).
      rewrite Ht.
      constructor; [left; reflexivity|].
      constructor; [right; exists NoSuchEntity; split; reflexivity|].
      constructor; [left; reflexivity|]. constructor.
    + split; [rewrite Hcalls; reflexivity | exact Hvalue].
Defined.

(** C2, as stated, fails for the bulk detach: with two policies to detach
    and the first detach refused, the second policy is never tried. *)
Lemma bulk_detach_stops_at_first_failure :
  let s := with_faults [Some AccessDenied] (with_attached ["arn:a"; "arn:b"] service0) in
  let x := run serve (deleteAwsIamRolePolicyAttachments "app" ["arn:a"; "arn:b"]) s in
  ~ Forall (fun a => DetachRolePolicy a "app" ∈ map ev_call (trace_of x)) ["arn:a"; "arn:b"]
  /\ value_of x = Some (AwsError AccessDenied).
Proof.
  cbn zeta. split.
  - intros H. apply (bool_decide_pack _) in H. vm_compute in H. exact H.
  - vm_compute. reflexivity.
Qed.

(** C2, amended.  The bulk attach of inline policies and the bulk attach of
    managed policies try every policy of the list, in order, whatever
    fails, and return the failures of the run collected in one multierror
    (nil when there is none).  The bulk detach tries the policies in order
    and goes on after a success or a NoSuchEntity failure; a detach that
    fails with another code is the last call, the policies after it are not
    tried, and its error alone is returned.  When no detach fails with
    another code every policy is tried and the result is nil. *)
Theorem bulk_attach_collects_bulk_detach_stops
    {W : Type} (handle : forall c : Call, W -> Reply c * W)
    (roleName : string) (policies : list PutRolePolicyInput) (arns : list string) (w : W) :
  let x := run handle (resourceAwsIamRoleCreateInlinePolicies policies) w in
  let y := run handle (resourceAwsIamRoleAttachManagedPolicies roleName arns) w in
  let z := run handle (deleteAwsIamRolePolicyAttachments roleName arns) w in
  (map ev_call (trace_of x) = map PutRolePolicy policies
   /\ value_of x = ErrorOrNil (omap inlineFailure (trace_of x)))
  /\ (map ev_call (trace_of y) = map (AttachRolePolicy roleName) arns
      /\ value_of y = ErrorOrNil (omap managedFailure (trace_of y)))
  /\ (map ev_call (trace_of z) =
        take (length (trace_of z)) (map (fun a => DetachRolePolicy a roleName) arns)
      /\ (forall i ev e, trace_of z !! i = Some ev -> ev_err ev = Some e ->
          Code e <> ErrCodeNoSuchEntityException ->
          length (trace_of z) = S i /\ value_of z = Some (AwsError e))
      /\ (Forall (fun ev => ev_err ev = None \/ hasCode ErrCodeNoSuchEntityException ev)
            (trace_of z) ->
          map ev_call (trace_of z) = map (fun a => DetachRolePolicy a roleName) arns
          /\ value_of z = None)).
Proof.
  cbn zeta. split; [|split; [|split; [|split]]].
  - apply (putRolePolicies_run handle policies []).
  - apply (attachRolePolicies_run handle roleName arns []).
  - apply deleteAwsIamRolePolicyAttachments_prefix.
  - apply deleteAwsIamRolePolicyAttachments_prefix.
  - apply deleteAwsIamRolePolicyAttachments_skips.
Qed.

(** Two managed policies, both refused: both are tried and both failures
    are reported.  Three policies to detach, the first gone and the second
    refused: the first is passed over, the second ends the run with its
    error, the third is not tried. *)
Lemma bulk_attach_collects_bulk_detach_stops_witness :
  let s := with_faults [Some AccessDenied; Some AccessDenied] service0 in
  let y := run serve (resourceAwsIamRoleAttachManagedPolicies "app" ["arn:a"; "arn:b"]) s in
  let s' := with_faults [Some NoSuchEntity; Some AccessDenied] service0 in
  let z := run serve (deleteAwsIamRolePolicyAttachments "app" ["arn:a"; "arn:b"; "arn:c"]) s' in
  (map ev_call (trace_of y) = [AttachRolePolicy "app" "arn:a"; AttachRolePolicy "app" "arn:b"]
   /\ value_of y =
      Some (MultiError
              [Errorf_w "attaching managed policy (arn:a)" (AwsError AccessDenied);
               Errorf_w "attaching managed policy (arn:b)" (AwsError AccessDenied)]))
  /\ (map ev_call (trace_of z) = [DetachRolePolicy "arn:a" "app"; DetachRolePolicy "arn:b" "app"]
      /\ value_of z = Some (AwsError AccessDenied)).
Proof.
  intros s y s' z. subst y z.
  destruct (bulk_attach_collects_bulk_detach_stops serve "app" [] ["arn:a"; "arn:b"] s)
    as (_ & [Hcalls Hvalue] & _).
  destruct (bulk_attach_collects_bulk_detach_stops serve "app" []
              ["arn:a"; "arn:b"; "arn:c"] s') as (_ & _ & Hprefix & Hstop & _).
  destruct (Hstop 1%nat (Ev (DetachRolePolicy "arn:b" "app") (Some AccessDenied)) AccessDenied)
    as [Hlen Hz].
  { vm_compute. reflexivity. }
  { reflexivity. }
  { vm_compute. discriminate. }
  split.
  - split; [exact Hcalls|]. rewrite Hvalue. vm_compute. reflexivity.
  - split; [|exact Hz]. rewrite Hprefix, Hlen. reflexivity.
Defined.

(** * Retrying *)

Section RetryFacts.
Context {W : Type} (handle : forall c : Call, W -> Reply c * W).
Context {A : Type} (f : Prog (A + RetryError)) (c : Call) (retryable : awserr -> bool).

(** The polled function issues one call and sorts its error. *)
Hypothesis f_spec : forall w, exists o,
  trace_of (run handle f w) = [Ev c o] /\
  match value_of (run handle f w) with
  | inl _ => o = None
  | inr (RetryableError e) => exists a, o = Some a /\ e = AwsError a /\ retryable a = true
  | inr (NonRetryableError e) => exists a, o = Some a /\ e = AwsError a /\ retryable a = false
  end.

Lemma retryLoop_run (n : nat) (resultErr : option error) (w : W) :
  let x := run handle (retryLoop n f resultErr) w in
  exists errs,
    trace_of x = map (Ev c) errs
    /\ (length errs <= n)%nat
    /\ (forall i o, errs !! i = Some o -> (S i < length errs)%nat ->
        exists a, o = Some a /\ retryable a = true)
    /\ match value_of x with
       | inl _ => last errs = Some None
       | inr e =>
           (errs = [] /\ n = 0%nat /\ e = default TimeoutError resultErr)
           \/ (exists a, last errs = Some (Some a) /\ e = AwsError a
                         /\ (retryable a = true -> length errs = n))
       end.
Proof.
  revert resultErr w. induction n as [|n IH]; intros resultErr w; cbn [retryLoop].
  - exists []. cbn. repeat split; [lia | | left; auto].
    intros i o H. discriminate.
  - rewrite run_bind. cbn zeta.
    destruct (f_spec w) as (o & Ht & Hv).
    destruct (run handle f w) as [[v w1] t0]. cbn in Ht, Hv |- *. subst t0.
    destruct v as [a|[e|e]].
    + subst o. exists [None]. cbn. repeat split; [lia|].
      intros [|i] o H Hlt; cbn in *; lia.
    + destruct Hv as (a & -> & -> & Hr).
      destruct (IH (Some (AwsError a)) w1) as (errs & Htr & Hlen & Hmid & Hval).
      destruct (run handle (retryLoop n f (Some (AwsError a))) w1) as [[v2 w2] t2].
      cbn in Htr, Hval |- *. subst t2.
      exists (Some a :: errs). cbn. repeat split; [lia | |].
      * intros [|i] o H Hlt; cbn in H.
        -- injection H as <-. eauto.
        -- apply (Hmid i o H). lia.
      * destruct v2 as [v2|e2].
        -- destruct errs; [discriminate|]. rewrite last_cons_cons. exact Hval.
        -- right. destruct Hval as [(-> & -> & ->)|(a2 & Hl & -> & Hn)].
           ++ exists a. cbn. auto.
           ++ exists a2. destruct errs; [discriminate|]. rewrite last_cons_cons.
              repeat split; [exact Hl|]. intros H. cbn in *. f_equal. auto.
    + destruct Hv as (a & -> & -> & Hr).
      exists [Some a]. cbn. repeat split; [lia | |].
      * intros [|i] o H Hlt; cbn in *; lia.
      * right. exists a. repeat split. congruence.
Qed.
End RetryFacts.

(** * Deleting: calls, order, errors *)

Lemma ordered_weaken {A} (lo lo' hi hi' : nat) (p : Prog A) :
  (lo' <= lo)%nat -> (hi <= hi')%nat -> ordered lo hi p -> ordered lo' hi' p.
Proof.
  revert lo lo'. induction p as [a|c k IH]; intros lo lo' Hlo Hhi; simpl; [auto|].
  intros [Hc Hk]. split; [lia|]. intros r. apply (IH r (phase c) (phase c)); auto.
Qed.

Lemma ordered_bind {A B} (lo mid hi : nat) (p : Prog A) (f : A -> Prog B) :
  (lo <= mid)%nat -> (mid <= hi)%nat ->
  ordered lo mid p -> (forall a, ordered mid hi (f a)) -> ordered lo hi (bind p f).
Proof.
  revert lo. induction p as [a|c k IH]; intros lo Hlo Hhi; simpl.
  - intros _ Hf. apply (ordered_weaken mid lo hi hi); auto.
  - intros [Hc Hk] Hf. split; [lia|]. intros r. apply IH; auto. lia.
Qed.

Lemma ordered_andThen {A} (lo mid hi : nat) (block : Prog (Flow A)) (rest : Prog A) :
  (lo <= mid)%nat -> (mid <= hi)%nat ->
  ordered lo mid block -> ordered mid hi rest -> ordered lo hi (andThen block rest).
Proof.
  intros Hlo Hhi Hb Hr. unfold andThen. apply (ordered_bind lo mid hi); auto.
  intros [|a]; simpl; auto.
Qed.

Lemma issues_ordered {A} (k : nat) (p : Prog A) :
  issues (fun c => phase c = k) p -> ordered k k p.
Proof.
  induction p as [a|c q IH]; simpl; [auto|].
  intros [Hc Hq]. split; [lia|]. intros r. rewrite Hc. apply IH, Hq.
Qed.

Section OrderedRun.
Context {W : Type} (handle : forall c : Call, W -> Reply c * W).

Lemma ordered_trace {A} (lo hi : nat) (p : Prog A) (w : W) :
  ordered lo hi p ->
  let phases := map (fun ev => phase (ev_call ev)) (trace_of (run handle p w)) in
  StronglySorted le phases /\ Forall (fun n => (lo <= n <= hi)%nat) phases.
Proof.
  revert lo w. induction p as [a|c k IH]; intros lo w; simpl.
  - intros _. split; constructor.
  - intros [Hc Hk]. destruct (handle c w) as [r w1].
    destruct (IH r (phase c) w1 (Hk r)) as [Hs Hb].
    destruct (run handle (k r) w1) as [[a w2] t]. cbn in *.
    split.
    + constructor; [exact Hs|]. eapply Forall_impl; [exact Hb|]. cbn. intros; lia.
    + constructor; [lia|]. eapply Forall_impl; [exact Hb|]. cbn. intros; lia.
Qed.
End OrderedRun.

Lemma deleteAwsIamRolePolicyAttachments_issues (rolename : string) (l : list string) :
  issues (fun c => exists a, a ∈ l /\ c = DetachRolePolicy a rolename)
    (deleteAwsIamRolePolicyAttachments rolename l).
Proof.
  induction l as [|a rest IH]; cbn [deleteAwsIamRolePolicyAttachments]; [exact I|].
  assert (IH' : issues (fun c => exists b, b ∈ a :: rest /\ c = DetachRolePolicy b rolename)
                  (deleteAwsIamRolePolicyAttachments rolename rest)).
  { eapply issues_mono; [|exact IH]. intros c (b & Hb & ->). exists b. split; [|reflexivity].
    apply elem_of_cons. auto. }
  apply issues_bind.
  - apply issues_invoke. exists a. split; [apply elem_of_cons; auto|reflexivity].
  - intros r. destruct (ErrCodeEquals _ _); [exact IH'|]. destruct (errOf r); [exact I|exact IH'].
Qed.

Lemma deleteAwsIamRolePolicies_issues (rolename : string) (l : list string) :
  issues (fun c => exists n, n ∈ l /\ c = DeleteRolePolicy n rolename)
    (deleteAwsIamRolePolicies rolename l).
Proof.
  induction l as [|a rest IH]; cbn [deleteAwsIamRolePolicies]; [exact I|].
  assert (IH' : issues (fun c => exists b, b ∈ a :: rest /\ c = DeleteRolePolicy b rolename)
                  (deleteAwsIamRolePolicies rolename rest)).
  { eapply issues_mono; [|exact IH]. intros c (b & Hb & ->). exists b. split; [|reflexivity].
    apply elem_of_cons. auto. }
  apply issues_bind.
  - apply issues_invoke. exists a. split; [apply elem_of_cons; auto|reflexivity].
  - intros r. destruct (ErrCodeEquals _ _); [exact I|]. destruct (errOf r); [exact I|exact IH'].
Qed.

Lemma removeRoleFromInstanceProfiles_issues (rolename : string) (l : list string) :
  issues (fun c => exists i, i ∈ l /\ c = RemoveRoleFromInstanceProfile i rolename)
    (removeRoleFromInstanceProfiles rolename l).
Proof.
  induction l as [|a rest IH]; cbn [removeRoleFromInstanceProfiles]; [exact I|].
  assert (IH' : issues (fun c => exists b, b ∈ a :: rest /\
                                   c = RemoveRoleFromInstanceProfile b rolename)
                  (removeRoleFromInstanceProfiles rolename rest)).
  { eapply issues_mono; [|exact IH]. intros c (b & Hb & ->). exists b. split; [|reflexivity].
    apply elem_of_cons. auto. }
  apply issues_bind.
  - apply issues_invoke. exists a. split; [apply elem_of_cons; auto|reflexivity].
  - intros r. destruct (ErrCodeEquals _ _); [exact IH'|]. destruct (errOf r); [exact I|exact IH'].
Qed.

Lemma deleteAwsIamRoleInstanceProfiles_issues (rolename : string) :
  issues (fun c => c = ListInstanceProfilesForRole rolename
                   \/ exists i, c = RemoveRoleFromInstanceProfile i rolename)
    (deleteAwsIamRoleInstanceProfiles rolename).
Proof.
  unfold deleteAwsIamRoleInstanceProfiles. apply issues_bind.
  - apply issues_invoke. auto.
  - intros r. destruct (ErrCodeEquals _ _); [exact I|]. destruct r as [l|e]; [|exact I].
    eapply issues_mono; [|apply removeRoleFromInstanceProfiles_issues].
    intros c (i & _ & ->). eauto.
Qed.

Lemma readAwsIamRolePolicyAttachments_issues (rolename : string) :
  issues (fun c => c = ListAttachedRolePoliciesPages rolename)
    (readAwsIamRolePolicyAttachments rolename).
Proof.
  unfold readAwsIamRolePolicyAttachments. apply issues_bind; [apply issues_invoke; auto|].
  intros r. destruct (AwsError <$> r.2); [|exact I]. destruct (negb _); exact I.
Qed.

Lemma readAwsIamRolePolicyNames_issues (rolename : string) :
  issues (fun c => c = ListRolePoliciesPages rolename) (readAwsIamRolePolicyNames rolename).
Proof.
  unfold readAwsIamRolePolicyNames. apply issues_bind; [apply issues_invoke; auto|].
  intros r. destruct (AwsError <$> r.2); [|exact I]. destruct (negb _); exact I.
Qed.

Lemma tryDeleteRole_issues (rolename : string) :
  issues (fun c => c = DeleteRole rolename) (tryDeleteRole rolename).
Proof.
  unfold tryDeleteRole. apply issues_bind; [apply issues_invoke; auto|].
  intros r. destruct (errOf r); [|exact I]. destruct (ErrCodeEquals _ _); exact I.
Qed.

Lemma failsWith_nil (ok : awserr -> Prop) (t : list Event) : failsWith ok None t.
Proof. intros e H. discriminate. Qed.

Lemma failsWith_app (ok : awserr -> Prop) (v : option error) (t1 t2 : list Event) :
  failsWith ok v t2 -> failsWith ok v (t1 ++ t2).
Proof.
  intros H e He. destruct (H e He) as (ev & a & Hl & Hrest).
  exists ev, a. split; [|exact Hrest]. rewrite last_app, Hl. reflexivity.
Qed.

Lemma failsWith_cons (ok : awserr -> Prop) (v : option error) (ev : Event) (t : list Event) :
  failsWith ok v t -> failsWith ok v (ev :: t).
Proof. apply (failsWith_app ok v [ev] t). Qed.

Lemma failsWith_wrap (ok : awserr -> Prop) (text : string) (e : error) (t : list Event) :
  failsWith ok (Some e) t -> failsWith ok (Some (Errorf_w text e)) t.
Proof.
  intros H e' He'. injection He' as <-.
  destruct (H e eq_refl) as (ev & a & Hl & He & Ha & Hok). exists ev, a. auto.
Qed.

Lemma failsWith_one (ok : awserr -> Prop) (c : Call) (a : awserr) :
  ok a -> failsWith ok (Some (AwsError a)) [Ev c (Some a)].
Proof. intros Hok e He. injection He as <-. exists (Ev c (Some a)), a. auto. Qed.

Lemma failsWith_mono (ok ok' : awserr -> Prop) (v : option error) (t : list Event) :
  (forall a, ok a -> ok' a) -> failsWith ok v t -> failsWith ok' v t.
Proof.
  intros Himp H e He. destruct (H e He) as (ev & a & Hl & Hev & Ha & Hok).
  exists ev, a. auto.
Qed.

Section DeleteRuns.
Context {W : Type} (handle : forall c : Call, W -> Reply c * W).

Lemma deleteAwsIamRolePolicyAttachments_fails (rolename : string) (l : list string) (w : W) :
  let x := run handle (deleteAwsIamRolePolicyAttachments rolename l) w in
  failsWith notNoSuchEntity (value_of x) (trace_of x).
Proof.
  revert w. induction l as [|a rest IH]; intros w; cbn [deleteAwsIamRolePolicyAttachments].
  - apply failsWith_nil.
  - rewrite run_bind, run_invoke. cbn zeta.
    destruct (handle (DetachRolePolicy a rolename) w) as [r w1].
    destruct r as [[]|e]; cbn; rewrite ?ErrCodeEquals_nil.
    + apply failsWith_cons, IH.
    + destruct (ErrCodeEquals (Some (AwsError e)) ErrCodeNoSuchEntityException) eqn:Hcode; cbn.
      * apply failsWith_cons, IH.
      * apply failsWith_one. apply ErrCodeEquals_aws_false, Hcode.
Qed.

Lemma deleteAwsIamRolePolicies_fails (rolename : string) (l : list string) (w : W) :
  let x := run handle (deleteAwsIamRolePolicies rolename l) w in
  failsWith notNoSuchEntity (value_of x) (trace_of x).
Proof.
  revert w. induction l as [|a rest IH]; intros w; cbn [deleteAwsIamRolePolicies].
  - apply failsWith_nil.
  - rewrite run_bind, run_invoke. cbn zeta.
    destruct (handle (DeleteRolePolicy a rolename) w) as [r w1].
    destruct r as [[]|e]; cbn; rewrite ?ErrCodeEquals_nil.
    + apply failsWith_cons, IH.
    + destruct (ErrCodeEquals (Some (AwsError e)) ErrCodeNoSuchEntityException) eqn:Hcode; cbn.
      * apply failsWith_nil.
      * apply failsWith_one. apply ErrCodeEquals_aws_false, Hcode.
Qed.

Lemma removeRoleFromInstanceProfiles_fails (rolename : string) (l : list string) (w : W) :
  let x := run handle (removeRoleFromInstanceProfiles rolename l) w in
  failsWith notNoSuchEntity (value_of x) (trace_of x).
Proof.
  revert w. induction l as [|a rest IH]; intros w; cbn [removeRoleFromInstanceProfiles].
  - apply failsWith_nil.
  - rewrite run_bind, run_invoke. cbn zeta.
    destruct (handle (RemoveRoleFromInstanceProfile a rolename) w) as [r w1].
    destruct r as [[]|e]; cbn; rewrite ?ErrCodeEquals_nil.
    + apply failsWith_cons, IH.
    + destruct (ErrCodeEquals (Some (AwsError e)) ErrCodeNoSuchEntityException) eqn:Hcode; cbn.
      * apply failsWith_cons, IH.
      * apply failsWith_one. apply ErrCodeEquals_aws_false, Hcode.
Qed.

Lemma deleteAwsIamRoleInstanceProfiles_fails (rolename : string) (w : W) :
  let x := run handle (deleteAwsIamRoleInstanceProfiles rolename) w in
  failsWith notNoSuchEntity (value_of x) (trace_of x).
Proof.
  unfold deleteAwsIamRoleInstanceProfiles. rewrite run_bind, run_invoke. cbn zeta.
  destruct (handle (ListInstanceProfilesForRole rolename) w) as [r w1].
  destruct r as [l|e]; cbn; rewrite ?ErrCodeEquals_nil.
  - apply failsWith_cons, removeRoleFromInstanceProfiles_fails.
  - destruct (ErrCodeEquals (Some (AwsError e)) ErrCodeNoSuchEntityException) eqn:Hcode; cbn.
    + apply failsWith_nil.
    + apply failsWith_one. apply ErrCodeEquals_aws_false, Hcode.
Qed.

Lemma readAwsIamRolePolicyAttachments_fails (rolename : string) (w : W) :
  let x := run handle (readAwsIamRolePolicyAttachments rolename) w in
  failsWith notNoSuchEntity (value_of x).2 (trace_of x).
Proof.
  unfold readAwsIamRolePolicyAttachments. rewrite run_bind, run_invoke. cbn zeta.
  destruct (handle (ListAttachedRolePoliciesPages rolename) w) as [[pages [e|]] w1]; cbn.
  - destruct (ErrCodeEquals (Some (AwsError e)) ErrCodeNoSuchEntityException) eqn:Hcode; cbn.
    + apply failsWith_nil.
    + apply failsWith_one. apply ErrCodeEquals_aws_false, Hcode.
  - apply failsWith_nil.
Qed.

Lemma readAwsIamRolePolicyNames_fails (rolename : string) (w : W) :
  let x := run handle (readAwsIamRolePolicyNames rolename) w in
  failsWith notNoSuchEntity (value_of x).2 (trace_of x).
Proof.
  unfold readAwsIamRolePolicyNames. rewrite run_bind, run_invoke. cbn zeta.
  destruct (handle (ListRolePoliciesPages rolename) w) as [[pages [e|]] w1]; cbn.
  - destruct (ErrCodeEquals (Some (AwsError e)) ErrCodeNoSuchEntityException) eqn:Hcode; cbn.
    + apply failsWith_nil.
    + apply failsWith_one. apply ErrCodeEquals_aws_false, Hcode.
  - apply failsWith_nil.
Qed.

Lemma detachInstanceProfiles_run (rolename : string) (w : W) :
  returnsFailure (run handle (detachInstanceProfiles rolename) w).
Proof.
  unfold detachInstanceProfiles, returnsFailure. rewrite run_bind. cbn zeta.
  pose proof (deleteAwsIamRoleInstanceProfiles_fails rolename w) as H. cbn zeta in H.
  destruct (run handle (deleteAwsIamRoleInstanceProfiles rolename) w) as [[[e|] w1] t]; cbn in *.
  - split; [discriminate|]. rewrite app_nil_r. apply failsWith_wrap, H.
  - exact I.
Qed.

Lemma detachPolicies_run (rolename : string) (w : W) :
  returnsFailure (run handle (detachPolicies rolename) w).
Proof.
  unfold detachPolicies, returnsFailure. rewrite run_bind. cbn zeta.
  pose proof (readAwsIamRolePolicyAttachments_fails rolename w) as H1. cbn zeta in H1.
  destruct (run handle (readAwsIamRolePolicyAttachments rolename) w) as [[[l1 [e|]] w1] t1];
    simpl_run.
  { split; [discriminate|]. rewrite app_nil_r. exact H1. }
  rewrite run_bind. cbn zeta.
  pose proof (deleteAwsIamRolePolicyAttachments_fails rolename l1 w1) as H2. cbn zeta in H2.
  destruct (run handle (deleteAwsIamRolePolicyAttachments rolename l1) w1) as [[[e|] w2] t2];
    simpl_run.
  { split; [discriminate|]. rewrite app_nil_r. apply failsWith_app, failsWith_wrap, H2. }
  rewrite run_bind. cbn zeta.
  pose proof (readAwsIamRolePolicyNames_fails rolename w2) as H3. cbn zeta in H3.
  destruct (run handle (readAwsIamRolePolicyNames rolename) w2) as [[[l3 [e|]] w3] t3];
    simpl_run.
  { split; [discriminate|]. rewrite app_nil_r. apply failsWith_app, failsWith_app, H3. }
  rewrite run_bind. cbn zeta.
  pose proof (deleteAwsIamRolePolicies_fails rolename l3 w3) as H4. cbn zeta in H4.
  destruct (run handle (deleteAwsIamRolePolicies rolename l3) w3) as [[[e|] w4] t4];
    simpl_run.
  { split; [discriminate|]. rewrite app_nil_r.
    apply failsWith_app, failsWith_app, failsWith_app, failsWith_wrap, H4. }
  exact I.
Qed.
End DeleteRuns.

Section DeleteRole.
Context {W : Type} (handle : forall c : Call, W -> Reply c * W) (host : Host).

Lemma tryDeleteRole_spec (rolename : string) (w : W) :
  exists o,
    trace_of (run handle (tryDeleteRole rolename) w) = [Ev (DeleteRole rolename) o] /\
    match value_of (run handle (tryDeleteRole rolename) w) with
    | inl _ => o = None
    | inr (RetryableError e) => exists a, o = Some a /\ e = AwsError a /\ isDeleteConflict a = true
    | inr (NonRetryableError e) =>
        exists a, o = Some a /\ e = AwsError a /\ isDeleteConflict a = false
    end.
Proof.
  unfold tryDeleteRole. rewrite run_bind, run_invoke. cbn zeta.
  destruct (handle (DeleteRole rolename) w) as [r w1].
  destruct r as [[]|a]; simpl_run; cbn [errOf result_err fmap option_fmap option_map].
  - exists None. auto.
  - exists (Some a). unfold isDeleteConflict.
    destruct (ErrCodeEquals (Some (AwsError a)) ErrCodeDeleteConflictException) eqn:Hc;
      simpl_run; (split; [reflexivity|]); exists a; auto.
Qed.

Lemma deleteRoleWithRetry_run (rolename : string) (w : W) :
  let x := run handle (deleteRoleWithRetry host rolename) w in
  exists errs,
    trace_of x = map (Ev (DeleteRole rolename)) errs
    /\ retried isDeleteConflict (1 `max` attemptsWithin host (PropagationTimeout host)) errs
    /\ match value_of x with
       | None => last errs = Some None
       | Some e => exists a, last errs = Some (Some a) /\ e = AwsError a
       end.
Proof.
  unfold deleteRoleWithRetry, Retry. rewrite run_bind. cbn zeta.
  set (n := attemptsWithin host (PropagationTimeout host)).
  destruct (retryLoop_run handle (tryDeleteRole rolename) (DeleteRole rolename)
              isDeleteConflict (tryDeleteRole_spec rolename) n None w)
    as (errs & Htr & Hlen & Hmid & Hval).
  destruct (run handle (retryLoop n (tryDeleteRole rolename) None) w) as [[v w1] t].
  simpl_run. subst t. destruct v as [u|e]; cbn [retryErr isResourceTimeoutError].
  - simpl_run. exists errs. rewrite app_nil_r. repeat split; [lia|exact Hmid| |exact Hval].
    intros a Ha. congruence.
  - destruct Hval as [(-> & Hn & ->)|(a & Hl & -> & Hn)]; cbn [default isResourceTimeoutError].
    + rewrite run_bind, run_invoke. cbn zeta.
      destruct (handle (DeleteRole rolename) w1) as [r w2]. simpl_run.
      exists [reply_err (DeleteRole rolename) r]. repeat split.
      * cbn. lia.
      * intros [|i] o H Hlt; cbn in *; lia.
      * intros a _ _. rewrite Hn. reflexivity.
      * destruct r as [[]|a]; cbn; eauto.
    + simpl_run. exists errs. rewrite app_nil_r. repeat split; [lia|exact Hmid| |eauto].
      intros a' Ha' Hc. assert (a' = a) as -> by congruence.
      rewrite (Hn Hc). destruct errs; [discriminate|]. cbn in *. lia.
Qed.

Lemma detachInstanceProfiles_issues (rolename : string) :
  issues (fun c => phase c = 0%nat) (detachInstanceProfiles rolename).
Proof.
  unfold detachInstanceProfiles. apply issues_bind.
  - eapply issues_mono; [|apply deleteAwsIamRoleInstanceProfiles_issues].
    intros c [->|(i & ->)]; reflexivity.
  - intros [e|]; exact I.
Qed.

Lemma detachPolicies_issues (rolename : string) :
  issues (fun c => (1 <= phase c <= 2)%nat) (detachPolicies rolename).
Proof.
  unfold detachPolicies. apply issues_bind.
  { eapply issues_mono; [|apply readAwsIamRolePolicyAttachments_issues].
    intros c ->. cbn. lia. }
  intros r1. destruct (r1.2); [exact I|]. apply issues_bind.
  { eapply issues_mono; [|apply deleteAwsIamRolePolicyAttachments_issues].
    intros c (a & _ & ->). cbn. lia. }
  intros [e|]; [exact I|]. apply issues_bind.
  { eapply issues_mono; [|apply readAwsIamRolePolicyNames_issues].
    intros c ->. cbn. lia. }
  intros r2. destruct (r2.2); [exact I|]. apply issues_bind.
  { eapply issues_mono; [|apply deleteAwsIamRolePolicies_issues].
    intros c (a & _ & ->). cbn. lia. }
  intros [e|]; exact I.
Qed.

Lemma retried_nil (retryable : awserr -> bool) (budget : nat) : retried retryable budget [].
Proof.
  repeat split.
  - cbn. lia.
  - intros i o H. discriminate.
  - intros a H. discriminate.
Qed.

Lemma last_map {A B} (f : A -> B) (l : list A) : last (map f l) = f <$> last l.
Proof.
  induction l as [|x [|y l] IH]; [reflexivity..|].
  cbn [map] in *. rewrite !last_cons_cons. exact IH.
Qed.

(** The run of [deleteAwsIamRole]: the detaching, then the attempts at
    DeleteRole. *)
Lemma deleteAwsIamRole_run (rolename : string) (forceDetach : bool) (w : W) :
  let x := run handle (deleteAwsIamRole host rolename forceDetach) w in
  exists pre errs,
    trace_of x = pre ++ map (Ev (DeleteRole rolename)) errs
    /\ Forall (fun ev => (phase (ev_call ev) <= 2)%nat) pre
    /\ (forceDetach = false -> Forall (fun ev => phase (ev_call ev) = 0%nat) pre)
    /\ retried isDeleteConflict (1 `max` attemptsWithin host (PropagationTimeout host)) errs
    /\ failsWith (fun _ => True) (value_of x) (trace_of x).
Proof.
  unfold deleteAwsIamRole. rewrite run_andThen. cbn zeta.
  pose proof (detachInstanceProfiles_run handle rolename w) as R1.
  pose proof (issues_trace handle _ _ w (detachInstanceProfiles_issues rolename)) as T1.
  unfold returnsFailure in R1.
  destruct (run handle (detachInstanceProfiles rolename) w) as [[f1 w1] t1]. simpl_run.
  assert (T1' : Forall (fun ev => (phase (ev_call ev) <= 2)%nat) t1).
  { eapply Forall_impl; [exact T1|]. cbn. intros ev ->. lia. }
  destruct f1 as [|v1].
  2:{ exists t1, []. cbn [map]. rewrite app_nil_r. destruct R1 as [_ R1].
      refine (conj eq_refl (conj T1' (conj (fun _ => T1) (conj (retried_nil _ _) _)))).
      eapply failsWith_mono; [|exact R1]. auto. }
  rewrite run_andThen. cbn zeta.
  set (block := if forceDetach then detachPolicies rolename else Ret Next).
  assert (R2 : returnsFailure (run handle block w1)).
  { subst block. destruct forceDetach; [apply detachPolicies_run|exact I]. }
  assert (T2 : Forall (fun ev => (phase (ev_call ev) <= 2)%nat) (trace_of (run handle block w1))).
  { subst block. destruct forceDetach; [|constructor].
    eapply Forall_impl; [apply (issues_trace handle _ _ w1 (detachPolicies_issues rolename))|].
    cbn. intros; lia. }
  assert (N2 : forceDetach = false -> trace_of (run handle block w1) = []).
  { subst block. intros ->. reflexivity. }
  unfold returnsFailure in R2.
  destruct (run handle block w1) as [[f2 w2] t2]. simpl_run.
  destruct f2 as [|v2].
  2:{ exists (t1 ++ t2), []. cbn [map]. rewrite app_nil_r. destruct R2 as [_ R2].
      refine (conj eq_refl (conj _ (conj _ (conj (retried_nil _ _) _)))).
      - apply Forall_app; auto.
      - intros Hf. rewrite (N2 Hf), app_nil_r. exact T1.
      - apply failsWith_app. eapply failsWith_mono; [|exact R2]. auto. }
  destruct (deleteRoleWithRetry_run rolename w2) as (errs & Htr & Hret & Hval).
  destruct (run handle (deleteRoleWithRetry host rolename) w2) as [[v3 w3] t3]. simpl_run.
  subst t3. exists (t1 ++ t2), errs. rewrite app_assoc.
  refine (conj eq_refl (conj _ (conj _ (conj Hret _)))).
  - apply Forall_app; auto.
  - intros Hf. rewrite (N2 Hf), app_nil_r. exact T1.
  - intros e ->. destruct Hval as (a & Hl & ->).
    exists (Ev (DeleteRole rolename) (Some a)), a.
    rewrite last_app, last_map, Hl. auto.
Qed.

Lemma trace_detachInstanceProfiles (rolename : string) (w : W) :
  trace_of (run handle (detachInstanceProfiles rolename) w) =
  trace_of (run handle (deleteAwsIamRoleInstanceProfiles rolename) w).
Proof.
  unfold detachInstanceProfiles. rewrite run_bind. cbn zeta.
  destruct (run handle (deleteAwsIamRoleInstanceProfiles rolename) w) as [[[e|] w1] t1];
    simpl_run; apply app_nil_r.
Qed.

Lemma trace_resourceAwsIamRoleDelete (d : ResourceData) (w : W) :
  trace_of (run handle (resourceAwsIamRoleDelete host d) w) =
  trace_of (run handle (deleteAwsIamRole host (Id d) (force_detach_policies (planned d))) w).
Proof.
  unfold resourceAwsIamRoleDelete. rewrite run_bind. cbn zeta.
  destruct (run handle (deleteAwsIamRole host (Id d) _) w) as [[v w1] t]. simpl_run.
  destruct (ErrCodeEquals v ErrCodeNoSuchEntityException); [|destruct v]; simpl_run;
    apply app_nil_r.
Qed.

(** Delete fails only with the error of its last call, and never with
    NoSuchEntity. *)
Lemma resourceAwsIamRoleDelete_fails (d : ResourceData) (w : W) :
  let x := run handle (resourceAwsIamRoleDelete host d) w in
  failsWith notNoSuchEntity (value_of x) (trace_of x).
Proof.
  cbn zeta. rewrite trace_resourceAwsIamRoleDelete.
  unfold resourceAwsIamRoleDelete. rewrite run_bind. cbn zeta.
  destruct (deleteAwsIamRole_run (Id d) (force_detach_policies (planned d)) w)
    as (_ & _ & _ & _ & _ & _ & Hf).
  destruct (run handle (deleteAwsIamRole host (Id d) _) w) as [[v w1] t]. simpl_run.
  destruct (ErrCodeEquals v ErrCodeNoSuchEntityException) eqn:Hcode; simpl_run.
  - apply failsWith_nil.
  - destruct v as [e|]; simpl_run; [|apply failsWith_nil].
    intros e' He'. injection He' as <-.
    destruct (Hf e eq_refl) as (ev & a & Hl & Hev & Ha & _).
    exists ev, a. repeat split; auto.
    unfold ErrCodeEquals in Hcode. rewrite Ha in Hcode.
    apply String.eqb_neq in Hcode. exact Hcode.
Qed.

Lemma deleteRoleWithRetry_issues (rolename : string) :
  issues (fun c => c = DeleteRole rolename) (deleteRoleWithRetry host rolename).
Proof.
  unfold deleteRoleWithRetry, Retry. apply issues_bind.
  - apply issues_retryLoop, tryDeleteRole_issues.
  - intros r. destruct (isResourceTimeoutError _); [|exact I].
    apply issues_bind; [apply issues_invoke; reflexivity|]. intros; exact I.
Qed.

Lemma detachPolicies_ordered (rolename : string) : ordered 1 2 (detachPolicies rolename).
Proof.
  unfold detachPolicies. apply (ordered_bind 1 1 2); [lia|lia| |].
  { apply issues_ordered. eapply issues_mono; [|apply readAwsIamRolePolicyAttachments_issues].
    intros c ->. reflexivity. }
  intros r1. destruct (r1.2); [exact I|]. apply (ordered_bind 1 1 2); [lia|lia| |].
  { apply issues_ordered. eapply issues_mono; [|apply deleteAwsIamRolePolicyAttachments_issues].
    intros c (a & _ & ->). reflexivity. }
  intros [e|]; [exact I|]. apply (ordered_bind 1 2 2); [lia|lia| |].
  { apply (ordered_weaken 2 1 2 2); [lia|lia|]. apply issues_ordered.
    eapply issues_mono; [|apply readAwsIamRolePolicyNames_issues]. intros c ->. reflexivity. }
  intros r2. destruct (r2.2); [exact I|]. apply (ordered_bind 2 2 2); [lia|lia| |].
  { apply issues_ordered. eapply issues_mono; [|apply deleteAwsIamRolePolicies_issues].
    intros c (a & _ & ->). reflexivity. }
  intros [e|]; exact I.
Qed.

Lemma deleteAwsIamRole_ordered (rolename : string) (forceDetach : bool) :
  ordered 0 3 (deleteAwsIamRole host rolename forceDetach).
Proof.
  unfold deleteAwsIamRole. apply (ordered_andThen 0 0 3); [lia|lia| |].
  { apply issues_ordered, detachInstanceProfiles_issues. }
  apply (ordered_andThen 0 2 3); [lia|lia| |].
  - destruct forceDetach; [|exact I].
    apply (ordered_weaken 1 0 2 2); [lia|lia|apply detachPolicies_ordered].
  - apply (ordered_weaken 3 2 3 3); [lia|lia|]. apply issues_ordered.
    eapply issues_mono; [|apply deleteRoleWithRetry_issues]. intros c ->. reflexivity.
Qed.
End DeleteRole.

(** * The claims about deleting *)

(** C5.  The calls of the cascade delete come in the order of its steps:
    instance profiles, managed policies, inline policies, role.  The trace
    is the detaching followed by the attempts at DeleteRole; the attempts
    are bounded by the window of the retry (one attempt at least), an
    attempt is followed by another only after it failed with
    DeleteConflict, and the loop gives up on DeleteConflict only when the
    window is used up. *)
Theorem cascade_delete_in_order_with_bounded_retry
    {W : Type} (handle : forall c : Call, W -> Reply c * W) (host : Host)
    (rolename : string) (forceDetach : bool) (w : W) :
  let t := trace_of (run handle (deleteAwsIamRole host rolename forceDetach) w) in
  StronglySorted le (map (fun ev => phase (ev_call ev)) t)
  /\ exists pre errs,
       t = pre ++ map (Ev (DeleteRole rolename)) errs
       /\ Forall (fun ev => (phase (ev_call ev) <= 2)%nat) pre
       /\ retried isDeleteConflict (1 `max` attemptsWithin host (PropagationTimeout host)) errs.
Proof.
  cbn zeta. split.
  - apply (ordered_trace handle 0 3), deleteAwsIamRole_ordered.
  - destruct (deleteAwsIamRole_run handle host rolename forceDetach w)
      as (pre & errs & Htr & Hpre & _ & Hret & _).
    exists pre, errs. auto.
Qed.

(** A role in an instance profile, with a managed and an inline policy, the
    force flag set, DeleteRole refused twice with DeleteConflict: the steps
    come in order and DeleteRole is tried three times. *)
Lemma cascade_delete_in_order_with_bounded_retry_witness :
  let s := with_faults [None; None; None; None; None; None;
                        Some DeleteConflict; Some DeleteConflict]
             (with_attached ["arn:a"]
                (with_inline [("logs", "{}")] (with_profiles ["web"] service0))) in
  let t := trace_of (run serve (deleteAwsIamRole host0 "app" true) s) in
  StronglySorted le (map (fun ev => phase (ev_call ev)) t)
  /\ map (fun ev => phase (ev_call ev)) t = [0; 0; 1; 1; 2; 2; 3; 3; 3]%nat
  /\ map ev_err (drop 6 t) = [Some DeleteConflict; Some DeleteConflict; None].
Proof.
  intros s t. subst t.
  destruct (cascade_delete_in_order_with_bounded_retry serve host0 "app" true s) as [Hsorted _].
  split; [exact Hsorted|]. split; vm_compute; reflexivity.
Defined.

(** C1, as stated, fails: with the force flag false the role is still
    removed from its instance profile before DeleteRole. *)
Lemma instance_profile_removed_without_force :
  let d := {| Id := "app"; prior := values0; planned := values0 |} in
  let s := with_profiles ["web"] service0 in
  force_detach_policies (planned d) = false
  /\ trace_of (run serve (resourceAwsIamRoleDelete host0 d) s) =
       [Ev (ListInstanceProfilesForRole "app") None;
        Ev (RemoveRoleFromInstanceProfile "web" "app") None;
        Ev (DeleteRole "app") None].
Proof. cbn zeta. split; [reflexivity|]. vm_compute. reflexivity. Qed.

(** C1, amended.  With the force flag false, Delete issues no call on
    managed or inline policies: only the calls on instance profiles and
    DeleteRole.  The removal from the instance profiles does not depend on
    the flag: Delete always starts with it. *)
Theorem force_flag_guards_policies_only
    {W : Type} (handle : forall c : Call, W -> Reply c * W) (host : Host)
    (d : ResourceData) (w : W) :
  let t := trace_of (run handle (resourceAwsIamRoleDelete host d) w) in
  (force_detach_policies (planned d) = false ->
   Forall (fun ev => phase (ev_call ev) = 0%nat \/ exists n, ev_call ev = DeleteRole n) t)
  /\ trace_of (run handle (deleteAwsIamRoleInstanceProfiles (Id d)) w) `prefix_of` t.
Proof.
  cbn zeta. rewrite trace_resourceAwsIamRoleDelete. split.
  - intros Hforce.
    destruct (deleteAwsIamRole_run handle host (Id d) (force_detach_policies (planned d)) w)
      as (pre & errs & -> & _ & Hpre & _ & _).
    apply Forall_app. split.
    + eapply Forall_impl; [exact (Hpre Hforce)|]. cbn. auto.
    + apply Forall_forall. intros ev Hev. apply list_elem_of_In, in_map_iff in Hev.
      destruct Hev as (o & <- & _). right. eauto.
  - rewrite <- (trace_detachInstanceProfiles handle).
    unfold deleteAwsIamRole. rewrite run_andThen. cbn zeta.
    destruct (run handle (detachInstanceProfiles (Id d)) w) as [[[|v] w1] t1]; simpl_run.
    + apply prefix_app_r. reflexivity.
    + reflexivity.
Qed.

(** A role in two instance profiles and with a policy attached, the flag
    false: the profiles are left, the policy is not touched. *)
Lemma force_flag_guards_policies_only_witness :
  let d := {| Id := "app"; prior := values0; planned := values0 |} in
  let s := with_attached ["arn:a"] (with_profiles ["web"; "batch"] service0) in
  let t := trace_of (run serve (resourceAwsIamRoleDelete host0 d) s) in
  Forall (fun ev => phase (ev_call ev) = 0%nat \/ exists n, ev_call ev = DeleteRole n) t
  /\ [Ev (ListInstanceProfilesForRole "app") None;
      Ev (RemoveRoleFromInstanceProfile "web" "app") None;
      Ev (RemoveRoleFromInstanceProfile "batch" "app") None] `prefix_of` t.
Proof.
  intros d s t. subst t.
  destruct (force_flag_guards_policies_only serve host0 d s) as [Hflag Hprefix].
  split.
  - apply Hflag. reflexivity.
  - exact Hprefix.
Defined.

(** * Updating: the calls of the handler *)

Lemma elem_of_expandStringList (configured : list string) (v : string) :
  v ∈ expandStringList configured <-> v ∈ configured /\ v <> "".
Proof. unfold expandStringList. rewrite list_elem_of_filter. tauto. Qed.

Section SetFacts.
Context {A : Type} `{EqDecision A}.

Lemma elem_of_Difference (s other : list A) (x : A) :
  x ∈ Difference s other <-> x ∈ s /\ x ∉ other.
Proof. unfold Difference. rewrite list_elem_of_filter. tauto. Qed.

End SetFacts.

Lemma attempt_issues (P : Call -> Prop) (c : Call) : P c -> issues P (attempt c).
Proof. intros H. unfold attempt. apply issues_bind; [apply issues_invoke, H|]. intros; exact I. Qed.

Lemma putRolePolicies_issues (policies : list PutRolePolicyInput) (errs : list error) :
  issues (fun c => exists p, p ∈ policies /\ c = PutRolePolicy p) (putRolePolicies policies errs).
Proof.
  revert errs. induction policies as [|p rest IH]; intros errs; cbn [putRolePolicies]; [exact I|].
  assert (IH' : forall errs', issues (fun c => exists q, q ∈ p :: rest /\ c = PutRolePolicy q)
                  (putRolePolicies rest errs')).
  { intros errs'. eapply issues_mono; [|apply IH]. intros c (q & Hq & ->). exists q.
    split; [|reflexivity]. apply elem_of_cons. auto. }
  apply issues_bind.
  - apply issues_invoke. exists p. split; [apply elem_of_cons; auto|reflexivity].
  - intros r. destruct (errOf r); apply IH'.
Qed.

Lemma attachRolePolicies_issues (roleName : string) (policies : list string) (errs : list error) :
  issues (fun c => exists a, a ∈ policies /\ c = AttachRolePolicy roleName a)
    (attachRolePolicies roleName policies errs).
Proof.
  revert errs. induction policies as [|p rest IH]; intros errs; cbn [attachRolePolicies];
    [exact I|].
  assert (IH' : forall errs', issues (fun c => exists q, q ∈ p :: rest /\
                                           c = AttachRolePolicy roleName q)
                  (attachRolePolicies roleName rest errs')).
  { intros errs'. eapply issues_mono; [|apply IH]. intros c (q & Hq & ->). exists q.
    split; [|reflexivity]. apply elem_of_cons. auto. }
  apply issues_bind.
  - unfold attachPolicyToRole. apply issues_bind; [|intros; exact I].
    apply issues_invoke. exists p. split; [apply elem_of_cons; auto|reflexivity].
  - intros [e|]; apply IH'.
Qed.

Section ReadCalls.
Context (host : Host).

Lemma getRolePolicies_issues (roleName : string) (names : list string)
    (acc : list PutRolePolicyInput) :
  issues reads (getRolePolicies host roleName names acc).
Proof.
  revert acc. induction names as [|n rest IH]; intros acc; cbn [getRolePolicies]; [exact I|].
  apply issues_bind; [apply issues_invoke; exact I|].
  intros [doc|e]; [|exact I]. destruct (QueryUnescape host doc); [apply IH|exact I].
Qed.

Lemma resourceAwsIamRoleListInlinePolicies_issues (roleName : string) :
  issues reads (resourceAwsIamRoleListInlinePolicies host roleName).
Proof.
  unfold resourceAwsIamRoleListInlinePolicies. apply issues_bind.
  - eapply issues_mono; [|apply readAwsIamRolePolicyNames_issues]. intros c ->. exact I.
  - intros r. destruct (r.2); [exact I|apply getRolePolicies_issues].
Qed.

Lemma resourceAwsIamRoleRead_issues (d : ResourceData) :
  issues reads (resourceAwsIamRoleRead host d).
Proof.
  unfold resourceAwsIamRoleRead. apply issues_bind; [apply issues_invoke; exact I|].
  intros [[role|]|e]; [| exact I | destruct (isAWSErr _ _ _); exact I].
  destruct (QueryUnescape host _); [|exact I].
  apply issues_bind; [apply resourceAwsIamRoleListInlinePolicies_issues|].
  intros r. destruct (r.2); [exact I|].
  apply issues_bind.
  - eapply issues_mono; [|apply readAwsIamRolePolicyAttachments_issues]. intros c ->. exact I.
  - intros r2. destruct (r2.2); exact I.
Qed.
End ReadCalls.

Section UpdateCalls.
Context (host : Host).

Lemma expandIamInlinePolicies_map (roleName : string) (l : list tfMap) :
  expandIamInlinePolicies host roleName l = map (expandIamInlinePolicy host roleName) l.
Proof. destruct l; reflexivity. Qed.

Lemma elem_of_map {A B} (f : A -> B) (l : list A) (y : B) :
  y ∈ map f l <-> exists x, x ∈ l /\ y = f x.
Proof.
  rewrite list_elem_of_In, in_map_iff. split; intros (x & H1 & H2).
  - exists x. rewrite list_elem_of_In. auto.
  - exists x. rewrite list_elem_of_In in H1. auto.
Qed.

Lemma updateAssumeRolePolicy_issues (d : ResourceData) :
  issues (updateCalls host d) (updateAssumeRolePolicy d).
Proof.
  unfold updateAssumeRolePolicy. destruct (HasChange d key.assume_role_policy) eqn:H; [|exact I].
  apply issues_bind; [apply attempt_issues; cbn; auto|].
  intros [e|]; [destruct (isAWSErr _ _ _)|]; exact I.
Qed.

Lemma updateDescription_issues (d : ResourceData) :
  issues (updateCalls host d) (updateDescription d).
Proof.
  unfold updateDescription. destruct (HasChange d key.description) eqn:H; [|exact I].
  apply issues_bind; [apply attempt_issues; cbn; auto|].
  intros [e|]; [destruct (isAWSErr _ _ _)|]; exact I.
Qed.

Lemma updateMaxSessionDuration_issues (d : ResourceData) :
  issues (updateCalls host d) (updateMaxSessionDuration d).
Proof.
  unfold updateMaxSessionDuration.
  destruct (HasChange d key.max_session_duration) eqn:H; [|exact I].
  apply issues_bind; [apply attempt_issues; cbn; auto|].
  intros [e|]; [destruct (isAWSErr _ _ _)|]; exact I.
Qed.

Lemma updatePermissionsBoundary_issues (d : ResourceData) :
  issues (updateCalls host d) (updatePermissionsBoundary d).
Proof.
  unfold updatePermissionsBoundary.
  destruct (HasChange d key.permissions_boundary) eqn:H; [|exact I]. cbn zeta.
  case_bool_decide as Hb.
  - apply issues_bind; [apply attempt_issues; cbn; auto|]. intros [e|]; exact I.
  - apply issues_bind; [apply attempt_issues; cbn|intros [e|]; exact I].
    repeat split; auto; destruct (decide (permissions_boundary (planned d) = "")); tauto.
Qed.

Lemma updateTags_issues (d : ResourceData) : issues (updateCalls host d) (updateTags d).
Proof.
  unfold updateTags. destruct (HasChange d key.tags) eqn:H; [|exact I].
  apply issues_bind; [apply attempt_issues; cbn; auto|]. intros [e|]; exact I.
Qed.

Lemma updateInlinePolicies_issues (d : ResourceData) :
  issues (updateCalls host d) (updateInlinePolicies host d).
Proof.
  unfold updateInlinePolicies. destruct (HasChange d key.inline_policy) eqn:H; [|exact I].
  cbn zeta. apply issues_bind.
  - eapply issues_mono; [|apply deleteAwsIamRolePolicies_issues].
    intros c (n & Hn & ->). apply elem_of_map in Hn as (m & Hm & ->).
    apply elem_of_Difference in Hm as [Hin Hout]. cbn. eauto 10.
  - intros [e|]; [exact I|]. apply issues_bind; [|intros [e|]; exact I].
    unfold resourceAwsIamRoleCreateInlinePolicies.
    eapply issues_mono; [|apply putRolePolicies_issues].
    intros c (p & Hp & ->). rewrite expandIamInlinePolicies_map in Hp.
    apply elem_of_map in Hp as (m & Hm & ->).
    apply elem_of_Difference in Hm as [Hin Hout]. cbn. eauto 10.
Qed.

Lemma updateManagedPolicies_issues (d : ResourceData) :
  issues (updateCalls host d) (updateManagedPolicies d).
Proof.
  unfold updateManagedPolicies. destruct (HasChange d key.managed_policy_arns) eqn:H; [|exact I].
  cbn zeta. apply issues_bind.
  - eapply issues_mono; [|apply deleteAwsIamRolePolicyAttachments_issues].
    intros c (a & Ha & ->). apply elem_of_expandStringList in Ha as [Ha Hne].
    apply elem_of_Difference in Ha as [Hin Hout]. cbn. auto.
  - intros [e|]; [exact I|]. apply issues_bind; [|intros [e|]; exact I].
    unfold resourceAwsIamRoleAttachManagedPolicies.
    eapply issues_mono; [|apply attachRolePolicies_issues].
    intros c (a & Ha & ->). apply elem_of_expandStringList in Ha as [Ha Hne].
    apply elem_of_Difference in Ha as [Hin Hout]. cbn. auto.
Qed.

Lemma reads_updateCalls (d : ResourceData) (c : Call) : reads c -> updateCalls host d c.
Proof. destruct c; cbn; tauto. Qed.

(** Whatever the service replies, the update of [d] issues only writes for
    the attributes that changed, and reads. *)
Lemma resourceAwsIamRoleUpdate_issues (d : ResourceData) :
  issues (updateCalls host d) (resourceAwsIamRoleUpdate host d).
Proof.
  unfold resourceAwsIamRoleUpdate.
  apply issues_andThen; [apply updateAssumeRolePolicy_issues|].
  apply issues_andThen; [apply updateDescription_issues|].
  apply issues_andThen; [apply updateMaxSessionDuration_issues|].
  apply issues_andThen; [apply updatePermissionsBoundary_issues|].
  apply issues_andThen; [apply updateTags_issues|].
  apply issues_andThen; [apply updateInlinePolicies_issues|].
  apply issues_andThen; [apply updateManagedPolicies_issues|].
  eapply issues_mono; [apply reads_updateCalls|apply resourceAwsIamRoleRead_issues].
Qed.

Lemma updateCalls_untouched (d : ResourceData) (k : key.t) (c : Call) :
  HasChange d k = false -> updateCalls host d c -> touches c k = false.
Proof.
  intros Hk Hc. destruct c, k; cbn [updateCalls touches] in Hc |- *; try reflexivity;
    try (exfalso; exact Hc); destruct Hc as [Hc _]; congruence.
Qed.

Lemma updateCalls_keepsName (d : ResourceData) (c : Call) :
  updateCalls host d c -> keepsName c.
Proof. destruct c; cbn; tauto. Qed.
End UpdateCalls.

(** * The claims about updating *)

(** C4.  An update issues no write for an attribute that did not change:
    when [d.HasChange] is false for an attribute, no call of the run writes
    it, and whatever those other calls leave alone on the service is the
    same after the update as before. *)
Theorem unchanged_attribute_not_written
    {W : Type} (handle : forall c : Call, W -> Reply c * W) (host : Host)
    (d : ResourceData) (k : key.t) (w : W) :
  HasChange d k = false ->
  let x := run handle (resourceAwsIamRoleUpdate host d) w in
  Forall (fun ev => touches (ev_call ev) k = false) (trace_of x)
  /\ forall (V : Type) (view : W -> V),
       (forall c w0, touches c k = false -> view (handle c w0).2 = view w0) ->
       view (world_of x) = view w.
Proof.
  intros Hk. cbn zeta.
  assert (Hi : issues (fun c => touches c k = false) (resourceAwsIamRoleUpdate host d)).
  { eapply issues_mono; [|apply resourceAwsIamRoleUpdate_issues].
    intros c. apply updateCalls_untouched, Hk. }
  split.
  - exact (issues_trace handle (fun c => touches c k = false) _ w Hi).
  - intros V view Hframe. apply (issues_frame handle _ view _ w Hframe Hi).
Qed.

(** The small service obeys the reading of [touches] and [keepsName]. *)
Ltac serve_cases s :=
  destruct s as [[role|] inline attached profiles [|[fault|] script]];
  unfold serve; cbn; unfold onRole, theRole; cbn;
  repeat match goal with
         | |- context [bool_decide ?P] => destruct (bool_decide P); cbn
         | |- context [list_find ?P ?l] => destruct (list_find P l) as [[? [? ?]]|]; cbn
         end;
  try reflexivity.

Lemma serve_keeps_tags (c : Call) (s : Service) :
  touches c key.tags = false ->
  Tags <$> svc_role (serve c s).2 = Tags <$> svc_role s.
Proof. intros H. destruct c; cbn in H; try discriminate; serve_cases s. Qed.

Lemma serve_keeps_name (c : Call) (s : Service) :
  keepsName c ->
  RoleName <$> svc_role (serve c s).2 = RoleName <$> svc_role s.
Proof. intros H. destruct c; cbn in H; try contradiction; serve_cases s. Qed.

(** Only the description changes: the tags of the role are not written. *)
Lemma unchanged_attribute_not_written_witness :
  let d := {| Id := "app"; prior := values0;
              planned := with_description "batch role" values0 |} in
  let x := run serve (resourceAwsIamRoleUpdate host0 d) service0 in
  Forall (fun ev => touches (ev_call ev) key.tags = false) (trace_of x)
  /\ Tags <$> svc_role (world_of x) = Tags <$> svc_role service0.
Proof.
  intros d x. subst x.
  assert (Hk : HasChange d key.tags = false) by (vm_compute; reflexivity).
  destruct (unchanged_attribute_not_written serve host0 d key.tags service0 Hk) as [Hcalls Hframe].
  split; [exact Hcalls|].
  apply (Hframe _ (fun s => Tags <$> svc_role s)), serve_keeps_tags.
Defined.

(** C8.  The schema marks [name] as [ForceNew], so a plan that changes the
    name replaces the resource; and the update handler issues no call that
    names a role anew or takes it away (CreateRole, DeleteRole): whatever
    the other calls leave alone on the service, the name of the role among
    it, is the same after the update. *)
Theorem role_name_is_immutable
    {W : Type} (handle : forall c : Call, W -> Reply c * W) (host : Host)
    (d : ResourceData) (w : W) :
  let x := run handle (resourceAwsIamRoleUpdate host d) w in
  ForceNew <$> resourceAwsIamRole !! "name" = Some true
  /\ (forall changed, "name" ∈ changed -> RequiresNew resourceAwsIamRole changed = true)
  /\ Forall (fun ev => keepsName (ev_call ev)) (trace_of x)
  /\ forall (V : Type) (view : W -> V),
       (forall c w0, keepsName c -> view (handle c w0).2 = view w0) ->
       view (world_of x) = view w.
Proof.
  cbn zeta.
  assert (Hi : issues keepsName (resourceAwsIamRoleUpdate host d)).
  { eapply issues_mono; [|apply resourceAwsIamRoleUpdate_issues].
    intros c. apply updateCalls_keepsName. }
  split; [vm_compute; reflexivity|]. split; [|split].
  - intros changed Hin. unfold RequiresNew. apply existsb_exists.
    exists "name". split; [apply list_elem_of_In, Hin|vm_compute; reflexivity].
  - exact (issues_trace handle keepsName _ w Hi).
  - intros V view Hframe. apply (issues_frame handle _ view _ w Hframe Hi).
Qed.

(** Every attribute that the update handles changes: the role keeps its
    name. *)
Lemma role_name_is_immutable_witness :
  let d := {| Id := "app"; prior := values0;
              planned := with_managed_policy_arns ["arn:a"]
                           (with_max_session_duration 7200
                              (with_description "batch role" values0)) |} in
  let x := run serve (resourceAwsIamRoleUpdate host0 d) service0 in
  RequiresNew resourceAwsIamRole ["name"] = true
  /\ RoleName <$> svc_role (world_of x) = Some "app".
Proof.
  intros d x. subst x.
  destruct (role_name_is_immutable serve host0 d service0) as (_ & Hnew & _ & Hframe).
  split.
  - apply Hnew. apply (bool_decide_unpack _). vm_compute. reflexivity.
  - exact (Hframe _ (fun s => RoleName <$> svc_role s) serve_keeps_name).
Defined.

(** * NoSuchEntity *)

Section Gone.
Context {W : Type} (handle : forall c : Call, W -> Reply c * W) (host : Host).

Lemma run_attempt (c : Call) (w : W) :
  run handle (attempt c) w =
  (AwsError <$> reply_err c (handle c w).1, (handle c w).2,
   [Ev c (reply_err c (handle c w).1)]).
Proof. unfold attempt. rewrite run_bind, run_invoke. reflexivity. Qed.

Lemma hasCode_fails (code : string) (c : Call) (e : awserr) :
  hasCode code (Ev c (Some e)) <-> Code e = code.
Proof.
  unfold hasCode. cbn. split.
  - intros (e' & He & Hc). congruence.
  - intros H. eauto.
Qed.

Lemma hasCode_succeeds (code : string) (c : Call) : ~ hasCode code (Ev c None).
Proof. intros (e & He & _). discriminate. Qed.

(** A block that answers NoSuchEntity by clearing the id. *)
Ltac gone_block :=
  let ev := fresh "ev" in
  let Hev := fresh "Hev" in
  let Hcode := fresh "Hcode" in
  let e := fresh "e" in
  let Hgone := fresh "Hgone" in
  intros ev Hev Hcode; rewrite run_bind, run_attempt in *; cbn zeta in *;
  match goal with
  | |- context [handle ?c ?w0] => destruct (handle c w0) as [[[]|e] ?]
  end; simpl_run;
  [ apply list_elem_of_singleton in Hev; subst ev;
    exfalso; exact (hasCode_succeeds _ _ Hcode)
  | destruct (isAWSErr (Some (AwsError e)) ErrCodeNoSuchEntityException "") eqn:Hgone;
    simpl_run; [reflexivity|];
    apply list_elem_of_singleton in Hev; subst ev;
    apply hasCode_fails, isAWSErr_any_message in Hcode; congruence ].

Lemma updateAssumeRolePolicy_gone (d : ResourceData) (w : W) :
  let x := run handle (updateAssumeRolePolicy d) w in
  forall ev, ev ∈ trace_of x -> hasCode ErrCodeNoSuchEntityException ev ->
  value_of x = Return (None, SetId "" d).
Proof.
  cbn zeta. unfold updateAssumeRolePolicy.
  destruct (HasChange d key.assume_role_policy); [gone_block|].
  intros ev Hev. apply elem_of_nil in Hev. contradiction.
Qed.

Lemma updateDescription_gone (d : ResourceData) (w : W) :
  let x := run handle (updateDescription d) w in
  forall ev, ev ∈ trace_of x -> hasCode ErrCodeNoSuchEntityException ev ->
  value_of x = Return (None, SetId "" d).
Proof.
  cbn zeta. unfold updateDescription.
  destruct (HasChange d key.description); [gone_block|].
  intros ev Hev. apply elem_of_nil in Hev. contradiction.
Qed.

Lemma updateMaxSessionDuration_gone (d : ResourceData) (w : W) :
  let x := run handle (updateMaxSessionDuration d) w in
  forall ev, ev ∈ trace_of x -> hasCode ErrCodeNoSuchEntityException ev ->
  value_of x = Return (None, SetId "" d).
Proof.
  cbn zeta. unfold updateMaxSessionDuration.
  destruct (HasChange d key.max_session_duration); [gone_block|].
  intros ev Hev. apply elem_of_nil in Hev. contradiction.
Qed.

(** After the third block no call of the update is a write of the role
    alone. *)
Lemma update_rest_issues (d : ResourceData) :
  issues (fun c => ~ roleWrite c)
    (andThen (updatePermissionsBoundary d)
       (andThen (updateTags d)
          (andThen (updateInlinePolicies host d)
             (andThen (updateManagedPolicies d) (resourceAwsIamRoleRead host d))))).
Proof.
  apply issues_andThen.
  { unfold updatePermissionsBoundary. destruct (HasChange d key.permissions_boundary); [|exact I].
    cbn zeta. case_bool_decide;
      (apply issues_bind; [apply attempt_issues; cbn; tauto|intros [e|]; exact I]). }
  apply issues_andThen.
  { unfold updateTags. destruct (HasChange d key.tags); [|exact I].
    apply issues_bind; [apply attempt_issues; cbn; tauto|intros [e|]; exact I]. }
  apply issues_andThen.
  { unfold updateInlinePolicies. destruct (HasChange d key.inline_policy); [|exact I].
    cbn zeta. apply issues_bind.
    - eapply issues_mono; [|apply deleteAwsIamRolePolicies_issues].
      intros c (n & _ & ->). cbn. tauto.
    - intros [e|]; [exact I|]. apply issues_bind; [|intros [e|]; exact I].
      eapply issues_mono; [|apply putRolePolicies_issues]. intros c (p & _ & ->). cbn. tauto. }
  apply issues_andThen.
  { unfold updateManagedPolicies. destruct (HasChange d key.managed_policy_arns); [|exact I].
    cbn zeta. apply issues_bind.
    - eapply issues_mono; [|apply deleteAwsIamRolePolicyAttachments_issues].
      intros c (n & _ & ->). cbn. tauto.
    - intros [e|]; [exact I|]. apply issues_bind; [|intros [e|]; exact I].
      eapply issues_mono; [|apply attachRolePolicies_issues]. intros c (p & _ & ->). cbn. tauto. }
  eapply issues_mono; [|apply resourceAwsIamRoleRead_issues]. intros []; cbn; tauto.
Qed.

Lemma resourceAwsIamRoleUpdate_gone (d : ResourceData) (w : W) :
  let x := run handle (resourceAwsIamRoleUpdate host d) w in
  forall ev, ev ∈ trace_of x -> roleWrite (ev_call ev) ->
  hasCode ErrCodeNoSuchEntityException ev ->
  value_of x = (None, SetId "" d).
Proof.
  cbn zeta. unfold resourceAwsIamRoleUpdate. intros ev Hev Hwrite Hcode.
  rewrite run_andThen in *. cbn zeta in *.
  pose proof (updateAssumeRolePolicy_gone d w) as G1. cbn zeta in G1.
  destruct (run handle (updateAssumeRolePolicy d) w) as [[[|v1] w1] t1]; simpl_run.
  2:{ specialize (G1 ev Hev Hcode). congruence. }
  apply elem_of_app in Hev as [Hev|Hev].
  { specialize (G1 ev Hev Hcode). discriminate. }
  clear G1. rewrite run_andThen in *. cbn zeta in *.
  pose proof (updateDescription_gone d w1) as G2. cbn zeta in G2.
  destruct (run handle (updateDescription d) w1) as [[[|v2] w2] t2]; simpl_run.
  2:{ specialize (G2 ev Hev Hcode). congruence. }
  apply elem_of_app in Hev as [Hev|Hev].
  { specialize (G2 ev Hev Hcode). discriminate. }
  clear G2. rewrite run_andThen in *. cbn zeta in *.
  pose proof (updateMaxSessionDuration_gone d w2) as G3. cbn zeta in G3.
  destruct (run handle (updateMaxSessionDuration d) w2) as [[[|v3] w3] t3]; simpl_run.
  2:{ specialize (G3 ev Hev Hcode). congruence. }
  apply elem_of_app in Hev as [Hev|Hev].
  { specialize (G3 ev Hev Hcode). discriminate. }
  exfalso.
  pose proof (issues_trace handle _ _ w3 (update_rest_issues d)) as Hrest.
  rewrite Forall_forall in Hrest. exact (Hrest ev Hev Hwrite).
Qed.

Lemma resourceAwsIamRoleRead_gone (d : ResourceData) (w w1 : W) (e : awserr) :
  handle (GetRole (Id d)) w = (Failed e, w1) ->
  Code e = ErrCodeNoSuchEntityException ->
  run handle (resourceAwsIamRoleRead host d) w =
    ((None, SetId "" d), w1, [Ev (GetRole (Id d)) (Some e)]).
Proof.
  intros Hh Hcode. unfold resourceAwsIamRoleRead. rewrite run_bind, run_invoke, Hh.
  cbn zeta. simpl_run. apply isAWSErr_any_message in Hcode. rewrite Hcode. reflexivity.
Qed.
End Gone.

(** * Creating *)

Section Create.
Context {W : Type} (handle : forall c : Call, W -> Reply c * W) (host : Host).

Lemma tryCreateRole_spec (request : CreateRoleInput) (w : W) :
  exists o,
    trace_of (run handle (tryCreateRole request) w) = [Ev (CreateRole request) o] /\
    match value_of (run handle (tryCreateRole request) w) with
    | inl _ => o = None
    | inr (RetryableError e) =>
        exists a, o = Some a /\ e = AwsError a /\ isInvalidPrincipal a = true
    | inr (NonRetryableError e) =>
        exists a, o = Some a /\ e = AwsError a /\ isInvalidPrincipal a = false
    end.
Proof.
  unfold tryCreateRole. rewrite run_bind, run_invoke. cbn zeta.
  destruct (handle (CreateRole request) w) as [r w1].
  destruct r as [role|a]; simpl_run.
  - exists None. auto.
  - exists (Some a). unfold isInvalidPrincipal.
    destruct (isAWSErr (Some (AwsError a)) "MalformedPolicyDocument"
                "Invalid principal in policy") eqn:Hc;
      simpl_run; (split; [reflexivity|]); exists a; auto.
Qed.

Lemma createRoleWithRetry_run (request : CreateRoleInput) (w : W) :
  let x := run handle (createRoleWithRetry host request) w in
  exists errs,
    trace_of x = map (Ev (CreateRole request)) errs
    /\ retried isInvalidPrincipal (1 `max` attemptsWithin host (30 * Second)) errs
    /\ match value_of x with
       | inl _ => last errs = Some None
       | inr e => exists a, last errs = Some (Some a) /\ e = AwsError a
       end.
Proof.
  unfold createRoleWithRetry, Retry. rewrite run_bind. cbn zeta.
  set (n := attemptsWithin host (30 * Second)).
  destruct (retryLoop_run handle (tryCreateRole request) (CreateRole request)
              isInvalidPrincipal (tryCreateRole_spec request) n None w)
    as (errs & Htr & Hlen & Hmid & Hval).
  destruct (run handle (retryLoop n (tryCreateRole request) None) w) as [[v w1] t].
  simpl_run. subst t. destruct v as [role|e]; cbn [retryErr isResourceTimeoutError].
  - simpl_run. exists errs. rewrite app_nil_r. repeat split; [lia|exact Hmid| |exact Hval].
    intros a Ha. congruence.
  - destruct Hval as [(-> & Hn & ->)|(a & Hl & -> & Hn)]; cbn [default isResourceTimeoutError].
    + rewrite run_bind, run_invoke. cbn zeta.
      destruct (handle (CreateRole request) w1) as [r w2].
      exists [reply_err (CreateRole request) r].
      destruct r as [role|a]; simpl_run; (split; [reflexivity|]); (split; [|eauto]).
      * repeat split; [cbn; lia| |intros a Ha; discriminate].
        intros [|i] o H Hlt; cbn in *; lia.
      * repeat split; [cbn; lia| |intros a' _ _; rewrite Hn; reflexivity].
        intros [|i] o H Hlt; cbn in *; lia.
    + simpl_run. exists errs. rewrite app_nil_r. repeat split; [lia|exact Hmid| |eauto].
      intros a' Ha' Hc. assert (a' = a) as -> by congruence.
      rewrite (Hn Hc). destruct errs; [discriminate|]. cbn in *. lia.
Qed.

Lemma provision_issues (d : ResourceData) (role : Role) :
  issues notCreateRole (provision host d role).
Proof.
  unfold provision. cbn zeta. apply issues_andThen.
  { case_bool_decide; [|exact I]. apply issues_bind; [|intros [e|]; exact I].
    eapply issues_mono; [|apply putRolePolicies_issues]. intros c (p & _ & ->). exact I. }
  apply issues_andThen.
  { case_bool_decide; [|exact I]. apply issues_bind; [|intros [e|]; exact I].
    eapply issues_mono; [|apply attachRolePolicies_issues]. intros c (p & _ & ->). exact I. }
  eapply issues_mono; [|apply resourceAwsIamRoleRead_issues]. intros []; cbn; tauto.
Qed.

(** A CreateRole that fails with NoSuchEntity is returned as an error. *)
Lemma resourceAwsIamRoleCreate_surfaces (d : ResourceData) (w w1 : W) (e : awserr) :
  handle (CreateRole (createRoleInput host d)) w = (Failed e, w1) ->
  Code e = ErrCodeNoSuchEntityException ->
  run handle (resourceAwsIamRoleCreate host d) w =
    ((Some (Errorf_s ("Error creating IAM Role " +:+ cr_RoleName (createRoleInput host d))
              (AwsError e)), d),
     w1, [Ev (CreateRole (createRoleInput host d)) (Some e)]).
Proof.
  intros Hh Hcode.
  assert (Hno : isAWSErr (Some (AwsError e)) "MalformedPolicyDocument"
                  "Invalid principal in policy" = false).
  { unfold isAWSErr. cbn. rewrite Hcode. reflexivity. }
  unfold resourceAwsIamRoleCreate, createRoleWithRetry, Retry. cbn zeta.
  rewrite !run_bind. cbn zeta.
  destruct (attemptsWithin host (30 * Second)) as [|n]; cbn [retryLoop].
  - simpl_run. cbn [default retryErr isResourceTimeoutError].
    rewrite run_bind, run_invoke, Hh. cbn zeta. simpl_run. reflexivity.
  - unfold tryCreateRole. rewrite !run_bind, run_invoke, Hh. cbn zeta. simpl_run.
    rewrite Hno. simpl_run. cbn [retryErr isResourceTimeoutError]. simpl_run. reflexivity.
Qed.
End Create.

(** C6.  The trace of Create is the attempts at CreateRole followed by the
    provisioning.  The attempts are bounded by the window of 30 seconds
    (one attempt at least); an attempt is followed by another only after it
    failed with MalformedPolicyDocument and an invalid principal, so any
    other error ends the attempts at once, and such a failure is the last
    one only when the window is used up.  Nothing follows a failed last
    attempt: the inline policies, the managed policies and the read come
    after a CreateRole that succeeded, and a failed one is returned as an
    error. *)
Theorem create_retries_invalid_principal_then_provisions
    {W : Type} (handle : forall c : Call, W -> Reply c * W) (host : Host)
    (d : ResourceData) (w : W) :
  let x := run handle (resourceAwsIamRoleCreate host d) w in
  exists errs rest,
    trace_of x = map (Ev (CreateRole (createRoleInput host d))) errs ++ rest
    /\ retried isInvalidPrincipal (1 `max` attemptsWithin host (30 * Second)) errs
    /\ Forall (fun ev => notCreateRole (ev_call ev)) rest
    /\ (rest <> [] -> last errs = Some None)
    /\ (forall a, last errs = Some (Some a) ->
        rest = [] /\ exists e, (value_of x).1 = Some e).
Proof.
  cbn zeta. unfold resourceAwsIamRoleCreate. cbn zeta. rewrite run_bind. cbn zeta.
  destruct (createRoleWithRetry_run handle host (createRoleInput host d) w)
    as (errs & Htr & Hret & Hval).
  destruct (run handle (createRoleWithRetry host (createRoleInput host d)) w) as [[v w1] t].
  simpl_run. subst t. destruct v as [role|e].
  - exists errs, (trace_of (run handle (provision host d role) w1)).
    refine (conj eq_refl (conj Hret (conj _ (conj (fun _ => Hval) _)))).
    + exact (issues_trace handle notCreateRole _ w1 (provision_issues host d role)).
    + intros a Ha. congruence.
  - exists errs, []. simpl_run.
    refine (conj eq_refl (conj Hret (conj (Forall_nil_2 _) (conj _ _)))).
    + intros H. contradiction.
    + intros a Ha. eauto.
Qed.

(** Two attempts fail on the principal, the third succeeds; then the inline
    policy, the managed policy and the read. *)
Lemma create_retries_invalid_principal_then_provisions_witness :
  let policy : tfMap := {[ "name" := "logs"; "policy" := "{}" ]} in
  let d := {| Id := ""; prior := values0;
              planned := with_managed_policy_arns ["arn:a"]
                           (with_inline_policy [policy] values0) |} in
  let s := with_faults [Some InvalidPrincipal; Some InvalidPrincipal] (with_role None service0) in
  let x := run serve (resourceAwsIamRoleCreate host0 d) s in
  (exists errs rest,
     trace_of x = map (Ev (CreateRole (createRoleInput host0 d))) errs ++ rest
     /\ retried isInvalidPrincipal 3 errs
     /\ Forall (fun ev => notCreateRole (ev_call ev)) rest
     /\ (rest <> [] -> last errs = Some None)
     /\ (forall a, last errs = Some (Some a) -> rest = [] /\ exists e, (value_of x).1 = Some e))
  /\ map ev_err (trace_of x) =
       [Some InvalidPrincipal; Some InvalidPrincipal; None; None; None; None; None; None; None].
Proof.
  intros policy d s x. subst x. split.
  - exact (create_retries_invalid_principal_then_provisions serve host0 d s).
  - vm_compute. reflexivity.
Defined.

(** * Reading *)

Section Read.
Context {W : Type} (handle : forall c : Call, W -> Reply c * W) (host : Host).

Lemma getRolePolicies_no_name (roleName : string) (names : list string)
    (acc : list PutRolePolicyInput) (w : W) :
  Forall (fun o => PolicyName o = None) acc ->
  Forall (fun o => PolicyName o = None)
    (value_of (run handle (getRolePolicies host roleName names acc) w)).1.
Proof.
  revert acc w. induction names as [|n rest IH]; intros acc w Hacc; cbn [getRolePolicies].
  - exact Hacc.
  - rewrite run_bind, run_invoke. cbn zeta.
    destruct (handle (GetRolePolicy roleName n) w) as [[doc|e] w1]; simpl_run; [|constructor].
    destruct (QueryUnescape host doc) as [policy|text]; simpl_run; [|constructor].
    apply IH. apply Forall_app. split; [exact Hacc|]. constructor; [reflexivity|constructor].
Qed.

Lemma resourceAwsIamRoleListInlinePolicies_no_name (roleName : string) (w : W) :
  Forall (fun o => PolicyName o = None)
    (value_of (run handle (resourceAwsIamRoleListInlinePolicies host roleName) w)).1.
Proof.
  unfold resourceAwsIamRoleListInlinePolicies. rewrite run_bind. cbn zeta.
  destruct (run handle (readAwsIamRolePolicyNames roleName) w) as [[[names [e|]] w1] t];
    simpl_run; [constructor|].
  apply getRolePolicies_no_name. constructor.
Qed.

Lemma flattenIamInlinePolicy_no_name (o : PutRolePolicyInput) :
  PolicyName o = None -> flattenIamInlinePolicy o !! "name" = Some "".
Proof.
  intros H. unfold flattenIamInlinePolicy. rewrite H.
  rewrite lookup_insert_ne by discriminate. apply lookup_insert_eq.
Qed.

Lemma flattenIamInlinePolicies_no_name (l : list PutRolePolicyInput) :
  Forall (fun o => PolicyName o = None) l ->
  Forall (fun m : tfMap => m !! "name" = Some "") (flattenIamInlinePolicies l).
Proof.
  intros H. assert (Hm : flattenIamInlinePolicies l = map flattenIamInlinePolicy l)
    by (destruct l; reflexivity).
  rewrite Hm. clear Hm. induction H as [|o l Ho Hl IH]; cbn [map].
  - constructor.
  - constructor; [apply flattenIamInlinePolicy_no_name, Ho|exact IH].
Qed.

Lemma resourceAwsIamRoleRead_inline (d : ResourceData) (w : W) :
  let x := run handle (resourceAwsIamRoleRead host d) w in
  (value_of x).1 = None ->
  (value_of x).2 = SetId "" d
  \/ Forall (fun m : tfMap => m !! "name" = Some "") (inline_policy (planned (value_of x).2)).
Proof.
  cbn zeta. unfold resourceAwsIamRoleRead. rewrite run_bind, run_invoke. cbn zeta.
  destruct (handle (GetRole (Id d)) w) as [[[role|]|e] w1]; simpl_run.
  - destruct (QueryUnescape host (AssumeRolePolicyDocument role)) as [doc|text]; simpl_run;
      [|discriminate].
    rewrite run_bind. cbn zeta.
    pose proof (resourceAwsIamRoleListInlinePolicies_no_name (RoleName role) w1) as Hl.
    destruct (run handle (resourceAwsIamRoleListInlinePolicies host (RoleName role)) w1)
      as [[[l [e|]] w2] t2]; simpl_run; [discriminate|].
    rewrite run_bind. cbn zeta.
    destruct (run handle (readAwsIamRolePolicyAttachments (RoleName role)) w2)
      as [[[arns [e|]] w3] t3]; simpl_run; [discriminate|].
    intros _. right. destruct d as [id pr [? ? ? ? ? ? ? ? ? ? ? ? ? ?]].
    destruct (PermissionsBoundary role); cbn; apply flattenIamInlinePolicies_no_name, Hl.
  - auto.
  - destruct (isAWSErr _ _ _); simpl_run; [auto|discriminate].
Qed.
End Read.

(** C9.  The objects that [resourceAwsIamRoleListInlinePolicies] builds
    carry no [PolicyName]; [flattenIamInlinePolicy] maps such an object to
    a map whose "name" is the empty string; so when Read succeeds and has
    not cleared the id, every entry of [inline_policy] that it wrote has
    the empty name, whatever the policies are called in AWS. *)
Theorem read_writes_inline_policies_without_name
    {W : Type} (handle : forall c : Call, W -> Reply c * W) (host : Host)
    (d : ResourceData) (w : W) :
  let x := run handle (resourceAwsIamRoleRead host d) w in
  (forall roleName w0,
     Forall (fun o => PolicyName o = None)
       (value_of (run handle (resourceAwsIamRoleListInlinePolicies host roleName) w0)).1)
  /\ (forall o, PolicyName o = None -> flattenIamInlinePolicy o !! "name" = Some "")
  /\ ((value_of x).1 = None ->
      (value_of x).2 = SetId "" d
      \/ Forall (fun m : tfMap => m !! "name" = Some "")
           (inline_policy (planned (value_of x).2))).
Proof.
  cbn zeta. split; [|split].
  - intros roleName w0. apply resourceAwsIamRoleListInlinePolicies_no_name.
  - apply flattenIamInlinePolicy_no_name.
  - apply resourceAwsIamRoleRead_inline.
Qed.

(** The role has the inline policies "logs" and "metrics": Read writes two
    entries, both with the empty name. *)
Lemma read_writes_inline_policies_without_name_witness :
  let d := {| Id := "app"; prior := values0; planned := values0 |} in
  let s := with_inline [("logs", "{Version:1}"); ("metrics", "{}")] service0 in
  let x := run serve (resourceAwsIamRoleRead host0 d) s in
  inline_policy (planned (value_of x).2) =
    [ {[ "name" := ""; "policy" := "{Version:1}" ]}; {[ "name" := ""; "policy" := "{}" ]} ]
  /\ Forall (fun m : tfMap => m !! "name" = Some "") (inline_policy (planned (value_of x).2)).
Proof.
  intros d s x. subst x. split; [vm_compute; reflexivity|].
  destruct (read_writes_inline_policies_without_name serve host0 d s) as (_ & _ & Hread).
  destruct Hread as [Hgone|Hnames].
  - vm_compute. reflexivity.
  - apply (f_equal Id) in Hgone. vm_compute in Hgone. discriminate.
  - exact Hnames.
Defined.

(** * Updating: the two sets *)

Section Through.
Context {W : Type} (handle : forall c : Call, W -> Reply c * W) (host : Host).












(** A bulk attach that returns nil has attached every policy. *)
Lemma collected_nil (failure : Event -> option error) (f : Call -> Prop) (t : list Event) :
  (forall ev, f (ev_call ev) -> failure ev = None -> ev_err ev = None) ->
  Forall (fun ev => f (ev_call ev)) t ->
  ErrorOrNil (omap failure t) = None ->
  Forall noError t.
Proof.
  intros Hf Ht Hnil. assert (Hempty : omap failure t = []).
  { destruct (omap failure t); [reflexivity|discriminate]. }
  clear Hnil. induction Ht as [|ev t Hev Ht IH]; [constructor|].
  cbn in Hempty. destruct (failure ev) eqn:Hfail; [discriminate|].
  constructor; [exact (Hf ev Hev Hfail)|exact (IH Hempty)].
Qed.


Lemma putRolePolicies_clean (policies : list PutRolePolicyInput) (w : W) :
  let x := run handle (resourceAwsIamRoleCreateInlinePolicies policies) w in
  value_of x = None -> Forall noError (trace_of x).
Proof.
  cbn zeta. unfold resourceAwsIamRoleCreateInlinePolicies.
  destruct (putRolePolicies_run handle policies [] w) as [Hcalls Hvalue].
  intros Hv. rewrite Hvalue in Hv. cbn [app] in Hv.
  apply (collected_nil inlineFailure (fun c => exists q, c = PutRolePolicy q)); [| |exact Hv].
  - intros [c o] (q & Hq) Hfail. cbn in Hq. subst c. unfold inlineFailure in Hfail.
    cbn in Hfail |- *. destruct o; [discriminate|reflexivity].
  - apply Forall_forall. intros ev Hev.
    assert (Hc : ev_call ev ∈ map ev_call
              (trace_of (run handle (putRolePolicies policies []) w)))
      by (apply elem_of_map; eauto).
    rewrite Hcalls in Hc. apply elem_of_map in Hc as (q & _ & Hq). eauto.
Qed.


Lemma attachRolePolicies_clean (roleName : string) (arns : list string) (w : W) :
  let x := run handle (resourceAwsIamRoleAttachManagedPolicies roleName arns) w in
  value_of x = None -> Forall noError (trace_of x).
Proof.
  cbn zeta. unfold resourceAwsIamRoleAttachManagedPolicies.
  destruct (attachRolePolicies_run handle roleName arns [] w) as [Hcalls Hvalue].
  intros Hv. rewrite Hvalue in Hv. cbn [app] in Hv.
  apply (collected_nil managedFailure (fun c => exists r b, c = AttachRolePolicy r b));
    [| |exact Hv].
  - intros [c o] (r & b & Hq) Hfail. cbn in Hq. subst c. unfold managedFailure in Hfail.
    cbn in Hfail |- *. destruct o; [discriminate|reflexivity].
  - apply Forall_forall. intros ev Hev.
    assert (Hc : ev_call ev ∈ map ev_call
              (trace_of (run handle (attachRolePolicies roleName arns []) w)))
      by (apply elem_of_map; eauto).
    rewrite Hcalls in Hc. apply elem_of_map in Hc as (b & _ & Hb). eauto.
Qed.








End Through.




(** * The claim about NoSuchEntity *)

(** C7, as stated, fails.  The update of the permissions boundary returns
    a NoSuchEntity error of PutRolePermissionsBoundary to the caller and
    keeps the id; and Create returns a NoSuchEntity error of CreateRole. *)
Lemma NoSuchEntity_surfaced_by_permissions_boundary :
  let d := {| Id := "app"; prior := values0;
              planned := with_permissions_boundary "arn:aws:iam::aws:policy/Gone" values0 |} in
  let s := with_faults [Some NoSuchEntity] service0 in
  let x := run serve (resourceAwsIamRoleUpdate host0 d) s in
  let y := run serve (resourceAwsIamRoleCreate host0 d) (with_role None s) in
  (trace_of x =
     [Ev (PutRolePermissionsBoundary "arn:aws:iam::aws:policy/Gone" "app") (Some NoSuchEntity)]
   /\ value_of x =
        (Some (Errorf_s "error updating IAM Role permissions boundary" (AwsError NoSuchEntity)),
         d)
   /\ Id (value_of x).2 = "app")
  /\ (map ev_err (trace_of y) = [Some NoSuchEntity]
      /\ value_of y =
           (Some (Errorf_s "Error creating IAM Role app" (AwsError NoSuchEntity)), d)).
Proof. cbn zeta. vm_compute. auto. Qed.

(** C7, amended.  NoSuchEntity means that the role is gone where the
    handlers test for it: when GetRole fails with it, Read clears the id
    and returns no error; when UpdateAssumeRolePolicy, UpdateRoleDescription
    or UpdateRole fails with it, Update clears the id and returns no error;
    and Delete returns an error only if its last call failed with a code
    other than NoSuchEntity.  In Create there is no role that could be
    gone: a CreateRole that fails with NoSuchEntity is returned as an
    error. *)
Theorem NoSuchEntity_means_gone_where_tested
    {W : Type} (handle : forall c : Call, W -> Reply c * W) (host : Host)
    (d : ResourceData) (w : W) :
  (forall e w1,
     handle (GetRole (Id d)) w = (Failed e, w1) ->
     Code e = ErrCodeNoSuchEntityException ->
     run handle (resourceAwsIamRoleRead host d) w =
       ((None, SetId "" d), w1, [Ev (GetRole (Id d)) (Some e)]))
  /\ (let x := run handle (resourceAwsIamRoleUpdate host d) w in
      forall ev, ev ∈ trace_of x -> roleWrite (ev_call ev) ->
      hasCode ErrCodeNoSuchEntityException ev ->
      value_of x = (None, SetId "" d))
  /\ (let x := run handle (resourceAwsIamRoleDelete host d) w in
      failsWith notNoSuchEntity (value_of x) (trace_of x))
  /\ (forall e w1,
        handle (CreateRole (createRoleInput host d)) w = (Failed e, w1) ->
        Code e = ErrCodeNoSuchEntityException ->
        value_of (run handle (resourceAwsIamRoleCreate host d) w) =
          (Some (Errorf_s ("Error creating IAM Role " +:+ cr_RoleName (createRoleInput host d))
                   (AwsError e)), d)).
Proof.
  split; [|split; [|split]].
  - intros e w1. apply resourceAwsIamRoleRead_gone.
  - apply resourceAwsIamRoleUpdate_gone.
  - apply resourceAwsIamRoleDelete_fails.
  - intros e w1 Hh Hcode.
    rewrite (resourceAwsIamRoleCreate_surfaces handle host d w w1 e Hh Hcode).
    reflexivity.
Qed.

(** The role has gone when the handlers run: Read and Update clear the id,
    Delete succeeds; a CreateRole that meets NoSuchEntity fails. *)
Lemma NoSuchEntity_means_gone_where_tested_witness :
  let d := {| Id := "app"; prior := values0;
              planned := with_description "batch role" values0 |} in
  let s := with_faults [Some NoSuchEntity] (with_role None service0) in
  value_of (run serve (resourceAwsIamRoleRead host0 d) s) = (None, SetId "" d)
  /\ value_of (run serve (resourceAwsIamRoleUpdate host0 d) s) = (None, SetId "" d)
  /\ failsWith notNoSuchEntity
       (value_of (run serve (resourceAwsIamRoleDelete host0 d) s))
       (trace_of (run serve (resourceAwsIamRoleDelete host0 d) s))
  /\ value_of (run serve (resourceAwsIamRoleCreate host0 d) s) =
       (Some (Errorf_s "Error creating IAM Role app" (AwsError NoSuchEntity)), d).
Proof.
  intros d s.
  destruct (NoSuchEntity_means_gone_where_tested serve host0 d s)
    as (Hread & Hupdate & Hdelete & Hcreate).
  split; [|split; [|split]].
  - rewrite (Hread NoSuchEntity (with_role None service0)); reflexivity.
  - apply (Hupdate (Ev (UpdateRoleDescription "app" "batch role") (Some NoSuchEntity))).
    + apply (bool_decide_unpack _). vm_compute. reflexivity.
    + exact I.
    + exists NoSuchEntity. split; reflexivity.
  - exact Hdelete.
  - apply (Hcreate NoSuchEntity (with_role None service0)); reflexivity.
Defined.

(** * Expanding and flattening inline policies *)

(** X1.  Flattening what was expanded from a set element that has a name
    gives back the name and the policy document of the element, and
    nothing else: the [name_prefix] is dropped. *)
Theorem flatten_expand_keeps_name_and_policy
    (host : Host) (roleName n : string) (m : tfMap) :
  m !! "name" = Some n ->
  flattenIamInlinePolicy (expandIamInlinePolicy host roleName m) =
    <["policy" := tfString m "policy"]> (<["name" := n]> ∅).
Proof. intros H. unfold flattenIamInlinePolicy, expandIamInlinePolicy. rewrite H. reflexivity. Qed.

Lemma flatten_expand_keeps_name_and_policy_witness :
  let m : tfMap := {[ "name" := "logs"; "name_prefix" := "lo"; "policy" := "{logs}" ]} in
  flattenIamInlinePolicy (expandIamInlinePolicy host0 "app" m) !! "name" = Some "logs"
  /\ flattenIamInlinePolicy (expandIamInlinePolicy host0 "app" m) !! "name_prefix" = None.
Proof.
  intros m.
  rewrite (flatten_expand_keeps_name_and_policy host0 "app" "logs" m)
    by (vm_compute; reflexivity).
  split; vm_compute; reflexivity.
Defined.

(** X2.  Expanding what was flattened never draws a generated name: the
    flattened map always has the key "name", so the policy name is the one
    of the object, empty when the object had none; an object for the role
    with a name and a document comes back as it was. *)
Theorem expand_flatten_never_generates_a_name
    (host : Host) (roleName : string) (o : PutRolePolicyInput) :
  expandIamInlinePolicy host roleName (flattenIamInlinePolicy o) =
    {| pr_RoleName := Some roleName;
       PolicyDocument := Some (StringValue (PolicyDocument o));
       PolicyName := Some (StringValue (PolicyName o)) |}
  /\ (forall n doc,
        o = {| pr_RoleName := Some roleName; PolicyDocument := Some doc; PolicyName := Some n |} ->
        expandIamInlinePolicy host roleName (flattenIamInlinePolicy o) = o).
Proof.
  assert (H : expandIamInlinePolicy host roleName (flattenIamInlinePolicy o) =
              {| pr_RoleName := Some roleName;
                 PolicyDocument := Some (StringValue (PolicyDocument o));
                 PolicyName := Some (StringValue (PolicyName o)) |}).
  { unfold expandIamInlinePolicy, flattenIamInlinePolicy, tfString.
    rewrite lookup_insert_eq. rewrite lookup_insert_ne by discriminate.
    rewrite lookup_insert_eq. reflexivity. }
  split; [exact H|]. intros n doc Ho. rewrite H, Ho. reflexivity.
Qed.

Lemma expand_flatten_never_generates_a_name_witness :
  let o := {| pr_RoleName := Some "app"; PolicyDocument := Some "{logs}";
              PolicyName := Some "logs" |} in
  expandIamInlinePolicy host0 "app" (flattenIamInlinePolicy o) = o.
Proof.
  intros o.
  exact (proj2 (expand_flatten_never_generates_a_name host0 "app" o) "logs" "{logs}" eq_refl).
Defined.

(** * Update, import and delete as wholes *)

(** X3.  An update in which no attribute that the handler inspects has
    changed is the read: the same program, so the same calls, the same
    result and the same resource data on every service. *)
Theorem update_without_change_is_read
    {W : Type} (handle : forall c : Call, W -> Reply c * W) (host : Host)
    (d : ResourceData) (w : W) :
  (forall k, HasChange d k = false) ->
  resourceAwsIamRoleUpdate host d = resourceAwsIamRoleRead host d
  /\ run handle (resourceAwsIamRoleUpdate host d) w = run handle (resourceAwsIamRoleRead host d) w.
Proof.
  intros H.
  assert (E : resourceAwsIamRoleUpdate host d = resourceAwsIamRoleRead host d).
  { unfold resourceAwsIamRoleUpdate, updateAssumeRolePolicy, updateDescription,
      updateMaxSessionDuration, updatePermissionsBoundary, updateTags,
      updateInlinePolicies, updateManagedPolicies.
    rewrite (H key.assume_role_policy), (H key.description), (H key.max_session_duration),
      (H key.permissions_boundary), (H key.tags), (H key.inline_policy),
      (H key.managed_policy_arns).
    reflexivity. }
  split; [exact E|]. rewrite E. reflexivity.
Qed.

Lemma update_without_change_is_read_witness :
  let d := {| Id := "app"; prior := values0; planned := values0 |} in
  map ev_call (trace_of (run serve (resourceAwsIamRoleUpdate host0 d) service0)) =
    [GetRole "app"; ListRolePoliciesPages "app"; ListAttachedRolePoliciesPages "app"].
Proof.
  intros d.
  destruct (update_without_change_is_read serve host0 d service0) as [_ E].
  - intros k. destruct k; vm_compute; reflexivity.
  - rewrite E. vm_compute. reflexivity.
Defined.

Section DeleteOutcome.
Context {W : Type} (handle : forall c : Call, W -> Reply c * W) (host : Host).

(** [deleteAwsIamRole] either ends with an attempt at DeleteRole, whose
    error is what it returns, or fails before with the error of a detaching
    call. *)
Lemma deleteAwsIamRole_outcome (rolename : string) (forceDetach : bool) (w : W) :
  let x := run handle (deleteAwsIamRole host rolename forceDetach) w in
  (exists pre o, trace_of x = pre ++ [Ev (DeleteRole rolename) o]
                 /\ value_of x = AwsError <$> o)
  \/ (value_of x <> None /\ failsWith notNoSuchEntity (value_of x) (trace_of x)).
Proof.
  cbn zeta. unfold deleteAwsIamRole. rewrite run_andThen. cbn zeta.
  pose proof (detachInstanceProfiles_run handle rolename w) as R1. unfold returnsFailure in R1.
  destruct (run handle (detachInstanceProfiles rolename) w) as [[[|v1] w1] t1]; simpl_run.
  2:{ right. exact R1. }
  rewrite run_andThen. cbn zeta.
  set (block := if forceDetach then detachPolicies rolename else Ret Next).
  assert (R2 : returnsFailure (run handle block w1)).
  { subst block. destruct forceDetach; [apply detachPolicies_run|exact I]. }
  unfold returnsFailure in R2.
  destruct (run handle block w1) as [[[|v2] w2] t2]; simpl_run.
  2:{ right. destruct R2 as [Hv Hf]. split; [exact Hv|]. apply failsWith_app, Hf. }
  left. destruct (deleteRoleWithRetry_run handle host rolename w2) as (errs & Htr & _ & Hval).
  destruct (run handle (deleteRoleWithRetry host rolename) w2) as [[v3 w3] t3]. simpl_run.
  subst t3.
  assert (Hlast : exists o, last errs = Some o /\ v3 = AwsError <$> o).
  { destruct v3 as [e|]; [destruct Hval as (a & Hl & ->); exists (Some a)|exists None]; auto. }
  destruct Hlast as (o & Hl & ->). apply last_Some in Hl as [errs' ->].
  exists (t1 ++ t2 ++ map (Ev (DeleteRole rolename)) errs'), o.
  split; [|reflexivity]. rewrite map_app, <- !app_assoc. reflexivity.
Qed.
End DeleteOutcome.

(** X4.  Delete reports success only after an attempt at DeleteRole, its
    last call, that succeeded or found the role gone; and it does report
    success whenever every failure of the run is a NoSuchEntity, so a role
    that has gone already is deleted without error. *)
Theorem delete_succeeds_when_role_deleted_or_gone
    {W : Type} (handle : forall c : Call, W -> Reply c * W) (host : Host)
    (d : ResourceData) (w : W) :
  let x := run handle (resourceAwsIamRoleDelete host d) w in
  (value_of x = None ->
   exists pre o, trace_of x = pre ++ [Ev (DeleteRole (Id d)) o]
                 /\ (o = None \/ exists a, o = Some a /\ Code a = ErrCodeNoSuchEntityException))
  /\ (Forall goneOrFine (trace_of x) -> value_of x = None).
Proof.
  cbn zeta. split.
  - rewrite trace_resourceAwsIamRoleDelete. unfold resourceAwsIamRoleDelete.
    rewrite run_bind. cbn zeta.
    destruct (deleteAwsIamRole_outcome handle host (Id d) (force_detach_policies (planned d)) w)
      as [(pre & o & Htr & Hv)|[Hv Hf]];
      destruct (run handle (deleteAwsIamRole host (Id d) _) w) as [[v w1] t]; simpl_run.
    + subst v t. intros Hnone. exists pre, o. split; [reflexivity|].
      destruct o as [a|]; [|auto]. right. exists a. split; [reflexivity|].
      cbn in Hnone.
      destruct (ErrCodeEquals (Some (AwsError a)) ErrCodeNoSuchEntityException) eqn:Hc.
      * apply ErrCodeEquals_aws in Hc. exact Hc.
      * simpl_run. discriminate.
    + destruct v as [e|]; [|contradiction]. destruct (Hf e eq_refl) as (ev & a & _ & _ & Ha & Hn).
      assert (Hc : ErrCodeEquals (Some e) ErrCodeNoSuchEntityException = false).
      { unfold ErrCodeEquals. rewrite Ha. apply String.eqb_neq, Hn. }
      rewrite Hc. simpl_run. discriminate.
  - intros Hall.
    pose proof (resourceAwsIamRoleDelete_fails handle host d w) as Hf. cbn zeta in Hf.
    destruct (value_of (run handle (resourceAwsIamRoleDelete host d) w)) as [e|]; [|reflexivity].
    destruct (Hf e eq_refl) as (ev & a & Hl & Hev & _ & Hn).
    apply last_Some_elem_of in Hl. rewrite Forall_forall in Hall.
    destruct (Hall ev Hl) as [Hnone|(a' & Ha' & Hc)]; congruence.
Qed.

(** The role has gone already: every call of the delete fails with
    NoSuchEntity and the delete succeeds, ending with DeleteRole. *)
Lemma delete_succeeds_when_role_deleted_or_gone_witness :
  let d := {| Id := "app"; prior := values0;
              planned := with_force_detach_policies true values0 |} in
  let s := with_role None service0 in
  let x := run serve (resourceAwsIamRoleDelete host0 d) s in
  value_of x = None
  /\ exists pre o, trace_of x = pre ++ [Ev (DeleteRole "app") o]
                  /\ (o = None \/ exists a, o = Some a /\ Code a = ErrCodeNoSuchEntityException).
Proof.
  intros d s x. subst x.
  destruct (delete_succeeds_when_role_deleted_or_gone serve host0 d s) as [Hlast Hgone].
  assert (Hv : value_of (run serve (resourceAwsIamRoleDelete host0 d) s) = None).
  { apply Hgone.
    assert (Ht : trace_of (run serve (resourceAwsIamRoleDelete host0 d) s) =
                 [Ev (ListInstanceProfilesForRole "app") (Some NoSuchEntity);
                  Ev (ListAttachedRolePoliciesPages "app") (Some NoSuchEntity);
                  Ev (ListRolePoliciesPages "app") (Some NoSuchEntity);
                  Ev (DeleteRole "app") (Some NoSuchEntity)])
      by (vm_compute; reflexivity).
    rewrite Ht.
    repeat (constructor; [right; exists NoSuchEntity; split; reflexivity|]). constructor. }
  split; [exact Hv|exact (Hlast Hv)].
Defined.

(** X5.  A role that was imported is deleted without force: the import
    sets [force_detach_policies] to false and keeps the rest of the
    resource data, so the delete of what it returns issues no call on
    managed or inline policies, only the calls on instance profiles and
    DeleteRole. *)
Theorem imported_role_is_deleted_without_force
    {W : Type} (handle : forall c : Call, W -> Reply c * W) (host : Host)
    (d d' : ResourceData) (w : W) :
  d' ∈ resourceAwsIamRoleImport d ->
  Id d' = Id d
  /\ force_detach_policies (planned d') = false
  /\ Forall (fun ev => phase (ev_call ev) = 0%nat \/ ev_call ev = DeleteRole (Id d))
       (trace_of (run handle (resourceAwsIamRoleDelete host d') w)).
Proof.
  unfold resourceAwsIamRoleImport. intros Hin. apply list_elem_of_singleton in Hin. subst d'.
  assert (Hforce : force_detach_policies (planned (Set_ (with_force_detach_policies false) d))
                   = false).
  { destruct d as [id pr [? ? ? ? ? ? ? ? ? ? ? ? ? ?]]. reflexivity. }
  split; [reflexivity|]. split; [exact Hforce|].
  rewrite trace_resourceAwsIamRoleDelete, Hforce. cbn [Id Set_].
  destruct (deleteAwsIamRole_run handle host (Id d) false w)
    as (pre & errs & -> & _ & Hpre & _ & _).
  apply Forall_app. split.
  - eapply Forall_impl; [exact (Hpre eq_refl)|]. cbn. auto.
  - apply Forall_forall. intros ev Hev. apply elem_of_map in Hev as (o & _ & ->). right. reflexivity.
Qed.

(** A role with an attached policy and the force flag set is imported: the
    flag is false afterwards and the delete leaves the policy alone. *)
Lemma imported_role_is_deleted_without_force_witness :
  let d := {| Id := "app"; prior := values0;
              planned := with_force_detach_policies true values0 |} in
  let s := with_attached ["arn:a"] service0 in
  let d' := Set_ (with_force_detach_policies false) d in
  d' ∈ resourceAwsIamRoleImport d
  /\ force_detach_policies (planned d') = false
  /\ Forall (fun ev => phase (ev_call ev) = 0%nat \/ ev_call ev = DeleteRole "app")
       (trace_of (run serve (resourceAwsIamRoleDelete host0 d') s)).
Proof.
  intros d s d'.
  assert (Hin : d' ∈ resourceAwsIamRoleImport d) by (apply list_elem_of_singleton; reflexivity).
  destruct (imported_role_is_deleted_without_force serve host0 d d' s Hin) as (_ & Hforce & Hcalls).
  exact (conj Hin (conj Hforce Hcalls)).
Defined.

(** * Removing the role from its instance profiles *)

Section InstanceProfiles.
Context {W : Type} (handle : forall c : Call, W -> Reply c * W).

Lemma removeRoleFromInstanceProfiles_skips (rolename : string) (profiles : list string) (w : W) :
  let x := run handle (removeRoleFromInstanceProfiles rolename profiles) w in
  Forall goneOrFine (trace_of x) ->
  map ev_call (trace_of x) = map (fun i => RemoveRoleFromInstanceProfile i rolename) profiles
  /\ value_of x = None.
Proof.
  revert w. induction profiles as [|i rest IH]; intros w; cbn [removeRoleFromInstanceProfiles].
  - simpl. auto.
  - rewrite run_bind, run_invoke. cbn zeta.
    destruct (handle (RemoveRoleFromInstanceProfile i rolename) w) as [r w1].
    specialize (IH w1). cbn zeta in IH.
    destruct r as [[]|e]; simpl_run; rewrite ?ErrCodeEquals_nil; cbn [map].
    + intros H. apply Forall_cons in H as [_ H]. destruct (IH H) as [-> ->]. auto.
    + destruct (ErrCodeEquals (Some (AwsError e)) ErrCodeNoSuchEntityException) eqn:Hcode;
        simpl_run; cbn [map].
      * intros H. apply Forall_cons in H as [_ H]. destruct (IH H) as [-> ->]. auto.
      * intros H. apply Forall_cons in H as [[H|(e' & He & Hc)] _]; [discriminate|].
        cbn in He. injection He as <-.
        apply ErrCodeEquals_aws_false in Hcode. contradiction.
Qed.
End InstanceProfiles.

(** X6.  [deleteAwsIamRoleInstanceProfiles] takes NoSuchEntity for done.
    When the listing fails with it, nothing is removed and the result is
    success.  When the listing succeeds and no removal fails with another
    code, the role is removed from every profile of the listing, in order,
    a profile that has gone meanwhile being passed over, and the result is
    success. *)
Theorem instance_profiles_removed_tolerating_NoSuchEntity
    {W : Type} (handle : forall c : Call, W -> Reply c * W)
    (rolename : string) (w : W) :
  let x := run handle (deleteAwsIamRoleInstanceProfiles rolename) w in
  (forall e w1,
     handle (ListInstanceProfilesForRole rolename) w = (Failed e, w1) ->
     Code e = ErrCodeNoSuchEntityException ->
     x = (None, w1, [Ev (ListInstanceProfilesForRole rolename) (Some e)]))
  /\ (forall profiles w1,
        handle (ListInstanceProfilesForRole rolename) w = (Ok profiles, w1) ->
        Forall goneOrFine (trace_of x) ->
        map ev_call (trace_of x) =
          ListInstanceProfilesForRole rolename
          :: map (fun i => RemoveRoleFromInstanceProfile i rolename) profiles
        /\ value_of x = None).
Proof.
  cbn zeta. unfold deleteAwsIamRoleInstanceProfiles. rewrite run_bind, run_invoke. cbn zeta.
  split.
  - intros e w1 Hh Hcode. rewrite Hh. simpl_run.
    apply ErrCodeEquals_aws in Hcode. rewrite Hcode. reflexivity.
  - intros profiles w1 Hh. rewrite Hh. simpl_run. rewrite ErrCodeEquals_nil. cbn [map].
    intros H. apply Forall_cons in H as [_ H].
    destruct (removeRoleFromInstanceProfiles_skips handle rolename profiles w1 H) as [-> ->].
    auto.
Qed.

(** The role is in three profiles, of which the second goes away before
    its removal: all three removals are issued. *)
Lemma instance_profiles_removed_tolerating_NoSuchEntity_witness :
  let s := with_faults [None; None; Some NoSuchEntity]
             (with_profiles ["web"; "batch"; "cron"] service0) in
  let x := run serve (deleteAwsIamRoleInstanceProfiles "app") s in
  map ev_call (trace_of x) =
    [ListInstanceProfilesForRole "app"; RemoveRoleFromInstanceProfile "web" "app";
     RemoveRoleFromInstanceProfile "batch" "app"; RemoveRoleFromInstanceProfile "cron" "app"]
  /\ value_of x = None
  /\ run serve (deleteAwsIamRoleInstanceProfiles "app") (with_role None service0) =
      (None, with_role None service0, [Ev (ListInstanceProfilesForRole "app") (Some NoSuchEntity)]).
Proof.
  intros s x. subst x.
  destruct (instance_profiles_removed_tolerating_NoSuchEntity serve "app" s) as [_ Hall].
  destruct (instance_profiles_removed_tolerating_NoSuchEntity serve "app"
              (with_role None service0)) as [Hgone _].
  destruct (Hall ["web"; "batch"; "cron"]
              (with_faults [None; Some NoSuchEntity]
                 (with_profiles ["web"; "batch"; "cron"] service0))) as [Hcalls Hvalue].
  - vm_compute. reflexivity.
  - assert (Ht : trace_of (run serve (deleteAwsIamRoleInstanceProfiles "app") s) =
                 [Ev (ListInstanceProfilesForRole "app") None;
                  Ev (RemoveRoleFromInstanceProfile "web" "app") None;
                  Ev (RemoveRoleFromInstanceProfile "batch" "app") (Some NoSuchEntity);
                  Ev (RemoveRoleFromInstanceProfile "cron" "app") None])
      by (vm_compute; reflexivity).
    rewrite Ht.
    constructor; [left; reflexivity|]. constructor; [left; reflexivity|].
    constructor; [right; exists NoSuchEntity; split; reflexivity|].
    constructor; [left; reflexivity|]. constructor.
  - split; [exact Hcalls|]. split; [exact Hvalue|].
    apply (Hgone NoSuchEntity (with_role None service0)); reflexivity.
Defined.

(** * Reading *)

Section ReadRuns.
Context {W : Type} (handle : forall c : Call, W -> Reply c * W) (host : Host).

(** A failed GetRolePolicy ends the loop with its error. *)
Lemma getRolePolicies_fails (roleName : string) (names : list string)
    (acc : list PutRolePolicyInput) (w : W) :
  let x := run handle (getRolePolicies host roleName names acc) w in
  (forall ev a, ev ∈ trace_of x -> ev_err ev = Some a -> value_of x = ([], Some (AwsError a)))
  /\ Forall (fun ev => exists n, ev_call ev = GetRolePolicy roleName n) (trace_of x).
Proof.
  revert acc w. induction names as [|n rest IH]; intros acc w; cbn [getRolePolicies].
  - simpl. split; [|constructor]. intros ev a H. apply elem_of_nil in H. contradiction.
  - rewrite run_bind, run_invoke. cbn zeta.
    destruct (handle (GetRolePolicy roleName n) w) as [[doc|e] w1]; simpl_run.
    + destruct (QueryUnescape host doc) as [policy|text]; simpl_run.
      * destruct (IH (acc ++ [{| pr_RoleName := Some roleName; PolicyDocument := Some policy;
                                 PolicyName := None |}]) w1) as [IH1 IH2].
        split; [|constructor; eauto].
        intros ev a Hev Herr. apply elem_of_cons in Hev as [->|Hev]; [discriminate|eauto].
      * split; [|repeat constructor; eauto].
        intros ev a Hev Herr. apply list_elem_of_singleton in Hev. subst ev. discriminate.
    + split; [|repeat constructor; eauto].
      intros ev a Hev Herr. apply list_elem_of_singleton in Hev. subst ev.
      cbn in Herr. congruence.
Qed.

Lemma resourceAwsIamRoleListInlinePolicies_fails (roleName : string) (w : W) :
  let x := run handle (resourceAwsIamRoleListInlinePolicies host roleName) w in
  forall ev a, ev ∈ trace_of x -> (exists r n, ev_call ev = GetRolePolicy r n) ->
  ev_err ev = Some a -> value_of x = ([], Some (AwsError a)).
Proof.
  cbn zeta. unfold resourceAwsIamRoleListInlinePolicies. rewrite run_bind. cbn zeta.
  pose proof (issues_trace handle _ _ w (readAwsIamRolePolicyNames_issues roleName)) as Hlist.
  destruct (run handle (readAwsIamRolePolicyNames roleName) w) as [[[names [e|]] w1] t1];
    simpl_run; intros ev a Hev (r & n & Hcall) Herr.
  - rewrite app_nil_r in Hev. rewrite Forall_forall in Hlist.
    specialize (Hlist ev Hev). cbn in Hlist. congruence.
  - apply elem_of_app in Hev as [Hev|Hev].
    + rewrite Forall_forall in Hlist. specialize (Hlist ev Hev). cbn in Hlist. congruence.
    + destruct (getRolePolicies_fails roleName names [] w1) as [Hfail _]. eauto.
Qed.

Lemma resourceAwsIamRoleRead_fails (d : ResourceData) (w : W) :
  let x := run handle (resourceAwsIamRoleRead host d) w in
  forall ev a, ev ∈ trace_of x -> (exists r n, ev_call ev = GetRolePolicy r n) ->
  ev_err ev = Some a ->
  (value_of x).1 =
    Some (Errorf_s ("reading inline policies for IAM role " +:+ Id d +:+ ", error") (AwsError a))
  /\ Id (value_of x).2 = Id d.
Proof.
  cbn zeta. unfold resourceAwsIamRoleRead. rewrite run_bind, run_invoke. cbn zeta.
  intros ev a Hev (r & n & Hcall) Herr.
  destruct (handle (GetRole (Id d)) w) as [[[role|]|e] w1]; simpl_run.
  2:{ apply list_elem_of_singleton in Hev. subst ev. discriminate. }
  2:{ destruct (isAWSErr _ _ _); simpl_run; apply list_elem_of_singleton in Hev; subst ev;
        discriminate. }
  destruct (QueryUnescape host (AssumeRolePolicyDocument role)) as [doc|text]; simpl_run.
  2:{ apply list_elem_of_singleton in Hev. subst ev. discriminate. }
  apply elem_of_cons in Hev as [->|Hev]; [discriminate|].
  rewrite run_bind in *. cbn zeta in *.
  pose proof (resourceAwsIamRoleListInlinePolicies_fails (RoleName role) w1) as Hfail.
  cbn zeta in Hfail.
  destruct (run handle (resourceAwsIamRoleListInlinePolicies host (RoleName role)) w1)
    as [[[l [e|]] w2] t2]; simpl_run.
  - rewrite app_nil_r in Hev. specialize (Hfail ev a Hev (ex_intro _ r (ex_intro _ n Hcall)) Herr).
    injection Hfail as _ ->. destruct (PermissionsBoundary role); auto.
  - apply elem_of_app in Hev as [Hev|Hev].
    + specialize (Hfail ev a Hev (ex_intro _ r (ex_intro _ n Hcall)) Herr). discriminate.
    + exfalso. rewrite run_bind in Hev. cbn zeta in Hev.
      pose proof (issues_trace handle _ _ w2
                    (readAwsIamRolePolicyAttachments_issues (RoleName role))) as Hatt.
      destruct (run handle (readAwsIamRolePolicyAttachments (RoleName role)) w2)
        as [[[arns [e|]] w3] t3]; simpl_run; rewrite app_nil_r in Hev;
        rewrite Forall_forall in Hatt; specialize (Hatt ev Hev); cbn in Hatt; congruence.
Qed.

Lemma resourceAwsIamRoleRead_populates (d : ResourceData) (role : Role) (w w1 : W) :
  let x := run handle (resourceAwsIamRoleRead host d) w in
  let v := planned (value_of x).2 in
  handle (GetRole (Id d)) w = (Ok (Some role), w1) ->
  (value_of x).1 = None ->
  (Id (value_of x).2 = Id d /\ prior (value_of x).2 = prior d)
  /\ (arn v = Arn role /\ unique_id v = RoleId role /\ name v = RoleName role
      /\ path v = Path role /\ description v = Description role
      /\ create_date v = CreateDate role
      /\ max_session_duration v = MaxSessionDuration role
      /\ tags_ v = IgnoreConfig host (IgnoreAws host (Tags role))
      /\ QueryUnescape host (AssumeRolePolicyDocument role) = inl (assume_role_policy v))
  /\ permissions_boundary v =
       default (permissions_boundary (planned d)) (PermissionsBoundary role)
  /\ (name_prefix v = name_prefix (planned d)
      /\ force_detach_policies v = force_detach_policies (planned d)).
Proof.
  cbn zeta. intros Hh. unfold resourceAwsIamRoleRead. rewrite run_bind, run_invoke, Hh.
  cbn zeta. simpl_run.
  destruct (QueryUnescape host (AssumeRolePolicyDocument role)) as [doc|text] eqn:Hdoc;
    simpl_run; [|discriminate].
  rewrite run_bind. cbn zeta.
  destruct (run handle (resourceAwsIamRoleListInlinePolicies host (RoleName role)) w1)
    as [[[l [e|]] w2] t2]; simpl_run; [discriminate|].
  rewrite run_bind. cbn zeta.
  destruct (run handle (readAwsIamRolePolicyAttachments (RoleName role)) w2)
    as [[[arns [e|]] w3] t3]; simpl_run; [discriminate|].
  intros _. destruct d as [id pr [? ? ? ? ? ? ? ? ? ? ? ? ? ?]].
  destruct (PermissionsBoundary role); cbn; auto 20.
Qed.
End ReadRuns.

(** The read calls of the small service leave its contents alone. *)
Lemma serve_reads_keep_contents (c : Call) (s : Service) :
  reads c -> contents (serve c s).2 = contents s.
Proof. intros H. destruct c; cbn in H; try contradiction; serve_cases s. Qed.

(** X7.  Read only reads: it begins with GetRole for the id, every call it
    issues is one of GetRole, ListRolePolicies, GetRolePolicy and
    ListAttachedRolePolicies, and whatever those calls leave alone on the
    service is the same after the read as before. *)
Theorem read_only_reads
    {W : Type} (handle : forall c : Call, W -> Reply c * W) (host : Host)
    (d : ResourceData) (w : W) :
  let x := run handle (resourceAwsIamRoleRead host d) w in
  head (map ev_call (trace_of x)) = Some (GetRole (Id d))
  /\ Forall (fun ev => reads (ev_call ev)) (trace_of x)
  /\ forall (V : Type) (view : W -> V),
       (forall c w0, reads c -> view (handle c w0).2 = view w0) ->
       view (world_of x) = view w.
Proof.
  cbn zeta. split; [|split].
  - unfold resourceAwsIamRoleRead. rewrite run_bind, run_invoke. reflexivity.
  - exact (issues_trace handle reads _ w (resourceAwsIamRoleRead_issues host d)).
  - intros V view Hframe.
    exact (issues_frame handle reads view _ w Hframe (resourceAwsIamRoleRead_issues host d)).
Qed.

Lemma read_only_reads_witness :
  let d := {| Id := "app"; prior := values0; planned := values0 |} in
  let s := with_attached ["arn:a"] (with_inline [("logs", "{}")] service0) in
  contents (world_of (run serve (resourceAwsIamRoleRead host0 d) s)) = contents s.
Proof.
  intros d s.
  destruct (read_only_reads serve host0 d s) as (_ & _ & Hframe).
  exact (Hframe _ contents serve_reads_keep_contents).
Defined.

(** X8.  A read fails when it cannot fetch an inline policy that the
    listing named: if a GetRolePolicy call fails, with whatever code,
    NoSuchEntity included, the read returns that error and keeps the id. *)
Theorem read_fails_when_inline_policy_cannot_be_fetched
    {W : Type} (handle : forall c : Call, W -> Reply c * W) (host : Host)
    (d : ResourceData) (w : W) (ev : Event) (a : awserr) :
  let x := run handle (resourceAwsIamRoleRead host d) w in
  ev ∈ trace_of x ->
  (exists r n, ev_call ev = GetRolePolicy r n) ->
  ev_err ev = Some a ->
  (value_of x).1 =
    Some (Errorf_s ("reading inline policies for IAM role " +:+ Id d +:+ ", error") (AwsError a))
  /\ Id (value_of x).2 = Id d.
Proof. cbn zeta. apply resourceAwsIamRoleRead_fails. Qed.

(** The policy "logs" is listed and then has gone when it is fetched. *)
Lemma read_fails_when_inline_policy_cannot_be_fetched_witness :
  let d := {| Id := "app"; prior := values0; planned := values0 |} in
  let s := with_faults [None; None; Some NoSuchEntity] (with_inline [("logs", "{}")] service0) in
  let x := run serve (resourceAwsIamRoleRead host0 d) s in
  (value_of x).1 =
    Some (Errorf_s "reading inline policies for IAM role app, error" (AwsError NoSuchEntity))
  /\ Id (value_of x).2 = "app".
Proof.
  intros d s x. subst x.
  apply (read_fails_when_inline_policy_cannot_be_fetched serve host0 d s
           (Ev (GetRolePolicy "app" "logs") (Some NoSuchEntity)) NoSuchEntity).
  - apply (bool_decide_unpack _). vm_compute. reflexivity.
  - exists "app", "logs". reflexivity.
  - reflexivity.
Defined.

(** X9.  A read that finds the role and succeeds keeps the id and the prior
    state and takes the attributes from the role: ARN, unique id, name,
    path, description, creation date, maximum session duration, tags (less
    the ignored ones) and the unescaped trust policy.  The permissions
    boundary is taken from the role only if the role has one: for a role
    without boundary the value that the resource data held is kept.
    [name_prefix] and [force_detach_policies] are not written. *)
Theorem read_takes_attributes_from_role
    {W : Type} (handle : forall c : Call, W -> Reply c * W) (host : Host)
    (d : ResourceData) (role : Role) (w w1 : W) :
  let x := run handle (resourceAwsIamRoleRead host d) w in
  let v := planned (value_of x).2 in
  handle (GetRole (Id d)) w = (Ok (Some role), w1) ->
  (value_of x).1 = None ->
  (Id (value_of x).2 = Id d /\ prior (value_of x).2 = prior d)
  /\ (arn v = Arn role /\ unique_id v = RoleId role /\ name v = RoleName role
      /\ path v = Path role /\ description v = Description role
      /\ create_date v = CreateDate role
      /\ max_session_duration v = MaxSessionDuration role
      /\ tags_ v = IgnoreConfig host (IgnoreAws host (Tags role))
      /\ QueryUnescape host (AssumeRolePolicyDocument role) = inl (assume_role_policy v))
  /\ permissions_boundary v =
       default (permissions_boundary (planned d)) (PermissionsBoundary role)
  /\ (name_prefix v = name_prefix (planned d)
      /\ force_detach_policies v = force_detach_policies (planned d)).
Proof. cbn zeta. apply resourceAwsIamRoleRead_populates. Qed.

(** The resource data holds a boundary and another description than the
    role, which has no boundary: the description is refreshed, the boundary
    stays. *)
Lemma read_takes_attributes_from_role_witness :
  let d := {| Id := "app"; prior := values0;
              planned := with_permissions_boundary "arn:aws:iam::aws:policy/Boundary"
                           (with_description "stale" values0) |} in
  let v := planned (value_of (run serve (resourceAwsIamRoleRead host0 d) service0)).2 in
  description v = "application role"
  /\ permissions_boundary v = "arn:aws:iam::aws:policy/Boundary".
Proof.
  intros d v. subst v.
  destruct (read_takes_attributes_from_role serve host0 d role0 service0 service0)
    as (_ & (_ & _ & _ & _ & Hdesc & _) & Hboundary & _).
  - reflexivity.
  - vm_compute. reflexivity.
  - split; [exact Hdesc|exact Hboundary].
Defined.

(** * The order of the calls *)

Lemma inOrder_weaken {A} (ph : Call -> nat) (lo lo' hi hi' : nat) (p : Prog A) :
  (lo' <= lo)%nat -> (hi <= hi')%nat -> inOrder ph lo hi p -> inOrder ph lo' hi' p.
Proof.
  revert lo lo'. induction p as [a|c k IH]; intros lo lo' Hlo Hhi; simpl; [auto|].
  intros [Hc Hk]. split; [lia|]. intros r. apply (IH r (ph c) (ph c)); auto.
Qed.

Lemma inOrder_bind {A B} (ph : Call -> nat) (lo mid hi : nat) (p : Prog A) (f : A -> Prog B) :
  (lo <= mid)%nat -> (mid <= hi)%nat ->
  inOrder ph lo mid p -> (forall a, inOrder ph mid hi (f a)) -> inOrder ph lo hi (bind p f).
Proof.
  revert lo. induction p as [a|c k IH]; intros lo Hlo Hhi; simpl.
  - intros _ Hf. apply (inOrder_weaken ph mid lo hi hi); auto.
  - intros [Hc Hk] Hf. split; [lia|]. intros r. apply IH; auto. lia.
Qed.

Lemma inOrder_andThen {A} (ph : Call -> nat) (lo mid hi : nat)
    (block : Prog (Flow A)) (rest : Prog A) :
  (lo <= mid)%nat -> (mid <= hi)%nat ->
  inOrder ph lo mid block -> inOrder ph mid hi rest -> inOrder ph lo hi (andThen block rest).
Proof.
  intros Hlo Hhi Hb Hr. unfold andThen. apply (inOrder_bind ph lo mid hi); auto.
  intros [|a]; simpl; auto.
Qed.

Lemma issues_inOrder {A} (ph : Call -> nat) (k : nat) (p : Prog A) :
  issues (fun c => ph c = k) p -> inOrder ph k k p.
Proof.
  induction p as [a|c q IH]; simpl; [auto|].
  intros [Hc Hq]. split; [lia|]. intros r. rewrite Hc. apply IH, Hq.
Qed.

(** In a list sorted by a measure, a later element has no smaller measure. *)
Lemma sorted_lookup_le {A} (f : A -> nat) (l : list A) (i j : nat) (x y : A) :
  StronglySorted le (map f l) -> l !! i = Some x -> l !! j = Some y -> (i < j)%nat ->
  (f x <= f y)%nat.
Proof.
  revert i j. induction l as [|z l IH]; intros i j Hs Hi Hj Hlt; [discriminate|].
  cbn [map] in Hs. apply StronglySorted_inv in Hs as [Hs Hz].
  destruct j as [|j]; [lia|]. cbn in Hj. destruct i as [|i]; cbn in Hi.
  - injection Hi as <-. rewrite List.Forall_forall in Hz. apply Hz.
    apply in_map, list_elem_of_In, (list_elem_of_lookup_2 _ j), Hj.
  - apply (IH i j); auto. lia.
Qed.

Section OrderRun.
Context {W : Type} (handle : forall c : Call, W -> Reply c * W).

Lemma inOrder_trace {A} (ph : Call -> nat) (lo hi : nat) (p : Prog A) (w : W) :
  inOrder ph lo hi p ->
  StronglySorted le (map (fun ev => ph (ev_call ev)) (trace_of (run handle p w)))
  /\ Forall (fun ev => (lo <= ph (ev_call ev) <= hi)%nat) (trace_of (run handle p w)).
Proof.
  revert lo w. induction p as [a|c k IH]; intros lo w; simpl.
  - intros _. split; constructor.
  - intros [Hc Hk]. destruct (handle c w) as [r w1].
    destruct (IH r (ph c) w1 (Hk r)) as [Hs Hb].
    destruct (run handle (k r) w1) as [[a w2] t]. cbn in *.
    split.
    + constructor; [exact Hs|]. apply List.Forall_forall. intros n Hn.
      apply in_map_iff in Hn as (ev & <- & Hev). rewrite Forall_forall in Hb.
      apply list_elem_of_In in Hev. specialize (Hb ev Hev). cbn in Hb. lia.
    + constructor; [cbn; lia|]. eapply Forall_impl; [exact Hb|]. cbn. intros; lia.
Qed.
End OrderRun.

Section Orders.
Context (host : Host).

Lemma attempt_inOrder (c : Call) (k : nat) : step c = k -> inOrder step k k (attempt c).
Proof. intros H. apply issues_inOrder, attempt_issues. exact H. Qed.

Ltac guarded_attempt k :=
  match goal with
  | |- inOrder step _ _ (if ?b then _ else _) => destruct b; [|exact I]
  end;
  cbn zeta;
  try match goal with
      | |- inOrder step _ _ (if ?b then _ else _) => destruct b
      end;
  (apply (inOrder_bind step k k k); [lia|lia|apply attempt_inOrder; reflexivity|];
   let e := fresh "e" in intros [e|]; [try destruct (isAWSErr _ _ _)|]; exact I).

Lemma updateAssumeRolePolicy_inOrder (d : ResourceData) :
  inOrder step 1 1 (updateAssumeRolePolicy d).
Proof. unfold updateAssumeRolePolicy. guarded_attempt 1%nat. Qed.

Lemma updateDescription_inOrder (d : ResourceData) : inOrder step 2 2 (updateDescription d).
Proof. unfold updateDescription. guarded_attempt 2%nat. Qed.

Lemma updateMaxSessionDuration_inOrder (d : ResourceData) :
  inOrder step 3 3 (updateMaxSessionDuration d).
Proof. unfold updateMaxSessionDuration. guarded_attempt 3%nat. Qed.

Lemma updatePermissionsBoundary_inOrder (d : ResourceData) :
  inOrder step 4 4 (updatePermissionsBoundary d).
Proof. unfold updatePermissionsBoundary. guarded_attempt 4%nat. Qed.

Lemma updateTags_inOrder (d : ResourceData) : inOrder step 5 5 (updateTags d).
Proof. unfold updateTags. guarded_attempt 5%nat. Qed.

Lemma putRolePolicies_inOrder (policies : list PutRolePolicyInput) :
  inOrder step 7 7 (resourceAwsIamRoleCreateInlinePolicies policies).
Proof.
  apply issues_inOrder. eapply issues_mono; [|apply putRolePolicies_issues].
  intros c (p & _ & ->). reflexivity.
Qed.

Lemma attachRolePolicies_inOrder (roleName : string) (policies : list string) :
  inOrder step 9 9 (resourceAwsIamRoleAttachManagedPolicies roleName policies).
Proof.
  apply issues_inOrder. eapply issues_mono; [|apply attachRolePolicies_issues].
  intros c (p & _ & ->). reflexivity.
Qed.

Lemma updateInlinePolicies_inOrder (d : ResourceData) :
  inOrder step 6 7 (updateInlinePolicies host d).
Proof.
  unfold updateInlinePolicies. destruct (HasChange d key.inline_policy); [|exact I].
  cbn zeta. apply (inOrder_bind step 6 6 7); [lia|lia| |].
  - apply issues_inOrder. eapply issues_mono; [|apply deleteAwsIamRolePolicies_issues].
    intros c (n & _ & ->). reflexivity.
  - intros [e|]; [exact I|]. apply (inOrder_bind step 6 7 7); [lia|lia| |intros [e|]; exact I].
    apply (inOrder_weaken step 7 6 7 7); [lia|lia|apply putRolePolicies_inOrder].
Qed.

Lemma updateManagedPolicies_inOrder (d : ResourceData) :
  inOrder step 8 9 (updateManagedPolicies d).
Proof.
  unfold updateManagedPolicies. destruct (HasChange d key.managed_policy_arns); [|exact I].
  cbn zeta. apply (inOrder_bind step 8 8 9); [lia|lia| |].
  - apply issues_inOrder. eapply issues_mono; [|apply deleteAwsIamRolePolicyAttachments_issues].
    intros c (n & _ & ->). reflexivity.
  - intros [e|]; [exact I|]. apply (inOrder_bind step 8 9 9); [lia|lia| |intros [e|]; exact I].
    apply (inOrder_weaken step 9 8 9 9); [lia|lia|apply attachRolePolicies_inOrder].
Qed.

Lemma getRolePolicies_calls (roleName : string) (names : list string)
    (acc : list PutRolePolicyInput) :
  issues (fun c => step c = 12%nat) (getRolePolicies host roleName names acc).
Proof.
  revert acc. induction names as [|n rest IH]; intros acc; cbn [getRolePolicies]; [exact I|].
  apply issues_bind; [apply issues_invoke; reflexivity|].
  intros [doc|e]; [|exact I]. destruct (QueryUnescape host doc); [apply IH|exact I].
Qed.

Lemma resourceAwsIamRoleListInlinePolicies_inOrder (roleName : string) :
  inOrder step 11 12 (resourceAwsIamRoleListInlinePolicies host roleName).
Proof.
  unfold resourceAwsIamRoleListInlinePolicies. apply (inOrder_bind step 11 11 12); [lia|lia| |].
  - apply issues_inOrder. eapply issues_mono; [|apply readAwsIamRolePolicyNames_issues].
    intros c ->. reflexivity.
  - intros r. destruct (r.2); [exact I|].
    apply (inOrder_weaken step 12 11 12 12); [lia|lia|].
    apply issues_inOrder, getRolePolicies_calls.
Qed.

Lemma resourceAwsIamRoleRead_inOrder (d : ResourceData) :
  inOrder step 10 13 (resourceAwsIamRoleRead host d).
Proof.
  unfold resourceAwsIamRoleRead. apply (inOrder_bind step 10 10 13); [lia|lia| |].
  { apply issues_inOrder, issues_invoke. reflexivity. }
  intros [[role|]|e]; [| exact I | destruct (isAWSErr _ _ _); exact I].
  destruct (QueryUnescape host _); [|exact I].
  apply (inOrder_bind step 10 12 13); [lia|lia| |].
  { apply (inOrder_weaken step 11 10 12 12); [lia|lia|].
    apply resourceAwsIamRoleListInlinePolicies_inOrder. }
  intros r. destruct (r.2); [exact I|].
  apply (inOrder_bind step 12 13 13); [lia|lia| |intros r2; destruct (r2.2); exact I].
  apply (inOrder_weaken step 13 12 13 13); [lia|lia|].
  apply issues_inOrder. eapply issues_mono; [|apply readAwsIamRolePolicyAttachments_issues].
  intros c ->. reflexivity.
Qed.

Lemma resourceAwsIamRoleUpdate_inOrder (d : ResourceData) :
  inOrder step 1 13 (resourceAwsIamRoleUpdate host d).
Proof.
  unfold resourceAwsIamRoleUpdate.
  apply (inOrder_andThen step 1 1 13); [lia|lia|apply updateAssumeRolePolicy_inOrder|].
  apply (inOrder_andThen step 1 2 13); [lia|lia| |].
  { apply (inOrder_weaken step 2 1 2 2); [lia|lia|apply updateDescription_inOrder]. }
  apply (inOrder_andThen step 2 3 13); [lia|lia| |].
  { apply (inOrder_weaken step 3 2 3 3); [lia|lia|apply updateMaxSessionDuration_inOrder]. }
  apply (inOrder_andThen step 3 4 13); [lia|lia| |].
  { apply (inOrder_weaken step 4 3 4 4); [lia|lia|apply updatePermissionsBoundary_inOrder]. }
  apply (inOrder_andThen step 4 5 13); [lia|lia| |].
  { apply (inOrder_weaken step 5 4 5 5); [lia|lia|apply updateTags_inOrder]. }
  apply (inOrder_andThen step 5 7 13); [lia|lia| |].
  { apply (inOrder_weaken step 6 5 7 7); [lia|lia|apply updateInlinePolicies_inOrder]. }
  apply (inOrder_andThen step 7 9 13); [lia|lia| |].
  { apply (inOrder_weaken step 8 7 9 9); [lia|lia|apply updateManagedPolicies_inOrder]. }
  apply (inOrder_weaken step 10 9 13 13); [lia|lia|apply resourceAwsIamRoleRead_inOrder].
Qed.

Lemma createRoleWithRetry_issues (request : CreateRoleInput) :
  issues (fun c => c = CreateRole request) (createRoleWithRetry host request).
Proof.
  unfold createRoleWithRetry, Retry. apply issues_bind.
  - apply issues_retryLoop. unfold tryCreateRole.
    apply issues_bind; [apply issues_invoke; reflexivity|].
    intros [role|e]; [exact I|]. destruct (isAWSErr _ _ _); exact I.
  - intros r. destruct (isResourceTimeoutError _); [|exact I].
    apply issues_bind; [apply issues_invoke; reflexivity|]. intros [role|e]; exact I.
Qed.

Lemma provision_inOrder (d : ResourceData) (role : Role) :
  inOrder step 0 13 (provision host d role).
Proof.
  unfold provision. cbn zeta.
  apply (inOrder_andThen step 0 7 13); [lia|lia| |].
  { case_bool_decide; [|exact I].
    apply (inOrder_bind step 0 7 7); [lia|lia| |intros [e|]; exact I].
    apply (inOrder_weaken step 7 0 7 7); [lia|lia|apply putRolePolicies_inOrder]. }
  apply (inOrder_andThen step 7 9 13); [lia|lia| |].
  { case_bool_decide; [|exact I].
    apply (inOrder_bind step 7 9 9); [lia|lia| |intros [e|]; exact I].
    apply (inOrder_weaken step 9 7 9 9); [lia|lia|apply attachRolePolicies_inOrder]. }
  apply (inOrder_weaken step 10 9 13 13); [lia|lia|apply resourceAwsIamRoleRead_inOrder].
Qed.

Lemma resourceAwsIamRoleCreate_inOrder (d : ResourceData) :
  inOrder step 0 13 (resourceAwsIamRoleCreate host d).
Proof.
  unfold resourceAwsIamRoleCreate. cbn zeta.
  apply (inOrder_bind step 0 0 13); [lia|lia| |].
  - apply issues_inOrder. eapply issues_mono; [|apply createRoleWithRetry_issues].
    intros c ->. reflexivity.
  - intros [role|e]; [apply provision_inOrder|exact I].
Qed.
Lemma resourceAwsIamRoleCreate_issues (d : ResourceData) :
  issues (fun c => c = CreateRole (createRoleInput host d) \/ provisions c \/ reads c)
    (resourceAwsIamRoleCreate host d).
Proof.
  unfold resourceAwsIamRoleCreate. cbn zeta. apply issues_bind.
  - eapply issues_mono; [|apply createRoleWithRetry_issues]. intros c ->. left. reflexivity.
  - intros [role|e]; [|exact I]. unfold provision. cbn zeta. apply issues_andThen.
    { case_bool_decide; [|exact I]. apply issues_bind; [|intros [e|]; exact I].
      eapply issues_mono; [|apply putRolePolicies_issues].
      intros c (p & _ & ->). right. left. exact I. }
    apply issues_andThen.
    { case_bool_decide; [|exact I]. apply issues_bind; [|intros [e|]; exact I].
      eapply issues_mono; [|apply attachRolePolicies_issues].
      intros c (p & _ & ->). right. left. exact I. }
    eapply issues_mono; [|apply resourceAwsIamRoleRead_issues]. intros c Hc. right. right. exact Hc.
Qed.
End Orders.

(** X10.  The calls of an update come in the order of the blocks of the
    handler: the trust policy, the description, the session duration, the
    permissions boundary, the tags, then for the inline policies the
    deletions before the puts, for the managed policies the detachments
    before the attachments, and the reads last.  Every call is one of
    these: an update never calls CreateRole, DeleteRole or anything on
    instance profiles.  No call of a later step precedes a call of an
    earlier one; so an inline policy whose document changes is deleted
    under its name before it is put again, never after. *)
Theorem update_calls_follow_the_blocks
    {W : Type} (handle : forall c : Call, W -> Reply c * W) (host : Host)
    (d : ResourceData) (w : W) :
  let calls := map ev_call (trace_of (run handle (resourceAwsIamRoleUpdate host d) w)) in
  Forall (fun c => (1 <= step c <= 13)%nat) calls
  /\ forall i j ci cj, calls !! i = Some ci -> calls !! j = Some cj -> (i < j)%nat ->
       (step ci <= step cj)%nat.
Proof.
  cbn zeta.
  destruct (inOrder_trace handle step 1 13 _ w (resourceAwsIamRoleUpdate_inOrder host d))
    as [Hsorted Hbounds].
  split.
  - apply Forall_forall. intros c Hc. apply elem_of_map in Hc as (ev & Hev & ->).
    rewrite Forall_forall in Hbounds. exact (Hbounds ev Hev).
  - intros i j ci cj Hi Hj Hlt. rewrite <- (map_map ev_call step) in Hsorted.
    exact (sorted_lookup_le step _ i j ci cj Hsorted Hi Hj Hlt).
Qed.

(** The document of the inline policy "logs" changes: it is deleted at the
    first call and put at the second. *)
Lemma update_calls_follow_the_blocks_witness :
  let old : tfMap := {[ "name" := "logs"; "name_prefix" := ""; "policy" := "{old}" ]} in
  let new : tfMap := {[ "name" := "logs"; "name_prefix" := ""; "policy" := "{new}" ]} in
  let d := {| Id := "app"; prior := with_inline_policy [old] values0;
              planned := with_inline_policy [new] values0 |} in
  let s := with_inline [("logs", "{old}")] service0 in
  let calls := map ev_call (trace_of (run serve (resourceAwsIamRoleUpdate host0 d) s)) in
  calls !! 0%nat = Some (DeleteRolePolicy "logs" "app")
  /\ calls !! 1%nat = Some (PutRolePolicy (expandIamInlinePolicy host0 "app" new))
  /\ (step (DeleteRolePolicy "logs" "app")
        <= step (PutRolePolicy (expandIamInlinePolicy host0 "app" new)))%nat
  /\ Forall (fun c => (1 <= step c <= 13)%nat) calls.
Proof.
  intros old new d s calls. subst calls.
  assert (H0 : map ev_call (trace_of (run serve (resourceAwsIamRoleUpdate host0 d) s)) !! 0%nat
               = Some (DeleteRolePolicy "logs" "app"))
    by (vm_compute; reflexivity).
  assert (H1 : map ev_call (trace_of (run serve (resourceAwsIamRoleUpdate host0 d) s)) !! 1%nat
               = Some (PutRolePolicy (expandIamInlinePolicy host0 "app" new)))
    by (vm_compute; reflexivity).
  destruct (update_calls_follow_the_blocks serve host0 d s) as [Hall Horder].
  split; [exact H0|]. split; [exact H1|]. split; [|exact Hall].
  exact (Horder 0%nat 1%nat _ _ H0 H1 ltac:(lia)).
Defined.

(** X11.  The calls of a create come in the order of the handler: the
    attempts at CreateRole, all with the request built from the
    configuration, the puts of the inline policies, the attachments of the
    managed policies, the reads.  Every call is one of these, so a create
    updates, deletes and detaches nothing.  No call of a later step
    precedes a call of an earlier one. *)
Theorem create_calls_follow_the_handler
    {W : Type} (handle : forall c : Call, W -> Reply c * W) (host : Host)
    (d : ResourceData) (w : W) :
  let calls := map ev_call (trace_of (run handle (resourceAwsIamRoleCreate host d) w)) in
  Forall (fun c => c = CreateRole (createRoleInput host d) \/ provisions c \/ reads c) calls
  /\ forall i j ci cj, calls !! i = Some ci -> calls !! j = Some cj -> (i < j)%nat ->
       (step ci <= step cj)%nat.
Proof.
  cbn zeta. split.
  - apply Forall_forall. intros c Hc. apply elem_of_map in Hc as (ev & Hev & ->).
    pose proof (issues_trace handle _ _ w (resourceAwsIamRoleCreate_issues host d)) as H.
    rewrite Forall_forall in H. exact (H ev Hev).
  - intros i j ci cj Hi Hj Hlt.
    destruct (inOrder_trace handle step 0 13 _ w (resourceAwsIamRoleCreate_inOrder host d))
      as [Hsorted _].
    rewrite <- (map_map ev_call step) in Hsorted.
    exact (sorted_lookup_le step _ i j ci cj Hsorted Hi Hj Hlt).
Qed.

(** An inline policy and a managed policy are planned: the put is the
    second call and the attachment the third. *)
Lemma create_calls_follow_the_handler_witness :
  let policy : tfMap := {[ "name" := "logs"; "policy" := "{}" ]} in
  let d := {| Id := ""; prior := values0;
              planned := with_managed_policy_arns ["arn:a"]
                           (with_inline_policy [policy] values0) |} in
  let s := with_role None service0 in
  let calls := map ev_call (trace_of (run serve (resourceAwsIamRoleCreate host0 d) s)) in
  calls !! 1%nat = Some (PutRolePolicy (expandIamInlinePolicy host0 "app" policy))
  /\ calls !! 2%nat = Some (AttachRolePolicy "app" "arn:a")
  /\ (step (PutRolePolicy (expandIamInlinePolicy host0 "app" policy))
        <= step (AttachRolePolicy "app" "arn:a"))%nat
  /\ Forall (fun c => c = CreateRole (createRoleInput host0 d) \/ provisions c \/ reads c) calls.
Proof.
  intros policy d s calls. subst calls.
  assert (H1 : map ev_call (trace_of (run serve (resourceAwsIamRoleCreate host0 d) s)) !! 1%nat
               = Some (PutRolePolicy (expandIamInlinePolicy host0 "app" policy)))
    by (vm_compute; reflexivity).
  assert (H2 : map ev_call (trace_of (run serve (resourceAwsIamRoleCreate host0 d) s)) !! 2%nat
               = Some (AttachRolePolicy "app" "arn:a"))
    by (vm_compute; reflexivity).
  destruct (create_calls_follow_the_handler serve host0 d s) as [Hall Horder].
  split; [exact H1|]. split; [exact H2|]. split; [|exact Hall].
  exact (Horder 1%nat 2%nat _ _ H1 H2 ltac:(lia)).
Defined.

(** * Failures that end a handler *)

Section Abort.
Context {W : Type} (handle : forall c : Call, W -> Reply c * W) (host : Host).

(** When every block answers a failure of the kind [P] by returning a
    value in [Q], so does the handler. *)
Lemma abort_andThen {A} (P Wr : Event -> Prop) (Q : A -> Prop)
    (block : Prog (Flow A)) (rest : Prog A) (w : W) :
  Forall Wr (trace_of (run handle block w)) ->
  (forall ev, ev ∈ trace_of (run handle block w) -> P ev ->
     exists a, value_of (run handle block w) = Return a /\ Q a) ->
  (forall w' ev, ev ∈ trace_of (run handle rest w') -> P ev ->
     Q (value_of (run handle rest w')) /\ Forall Wr (trace_of (run handle rest w'))) ->
  forall ev, ev ∈ trace_of (run handle (andThen block rest) w) -> P ev ->
  Q (value_of (run handle (andThen block rest) w))
  /\ Forall Wr (trace_of (run handle (andThen block rest) w)).
Proof.
  rewrite run_andThen. cbn zeta.
  destruct (run handle block w) as [[[|a] w1] t1]; simpl_run; intros HW Hb Hr ev Hev HP.
  - apply elem_of_app in Hev as [Hev|Hev].
    + destruct (Hb ev Hev HP) as (a & Ha & _). discriminate.
    + destruct (Hr w1 ev Hev HP) as [HQ HF]. split; [exact HQ|]. apply Forall_app. auto.
  - destruct (Hb ev Hev HP) as (a' & Ha & HQ). injection Ha as <-. auto.
Qed.

Lemma ErrorOrNil_some (errs : list error) : errs <> [] -> exists e, ErrorOrNil errs = Some e.
Proof. destruct errs; [contradiction|]. intros _. eexists. reflexivity. Qed.

Lemma putRolePolicies_loud (policies : list PutRolePolicyInput) (w : W) (ev : Event) (a : awserr) :
  let x := run handle (resourceAwsIamRoleCreateInlinePolicies policies) w in
  ev ∈ trace_of x -> ev_err ev = Some a -> exists e, value_of x = Some e.
Proof.
  cbn zeta. unfold resourceAwsIamRoleCreateInlinePolicies.
  destruct (putRolePolicies_run handle policies [] w) as [Hcalls ->].
  intros Hev Herr. apply ErrorOrNil_some. cbn [app].
  assert (Hc : ev_call ev ∈ map PutRolePolicy policies).
  { rewrite <- Hcalls. apply elem_of_map. eauto. }
  apply elem_of_map in Hc as (p & _ & Hp).
  intros Hnil.
  assert (Hin : Errorf_w ("creating inline policy (" +:+ StringValue (PolicyName p) +:+ ")")
                  (AwsError a) ∈ omap inlineFailure
                    (trace_of (run handle (putRolePolicies policies []) w))).
  { apply list_elem_of_omap. exists ev. split; [exact Hev|].
    unfold inlineFailure. rewrite Hp, Herr. reflexivity. }
  rewrite Hnil in Hin. apply elem_of_nil in Hin. exact Hin.
Qed.

Lemma attachRolePolicies_loud (roleName : string) (arns : list string) (w : W)
    (ev : Event) (a : awserr) :
  let x := run handle (resourceAwsIamRoleAttachManagedPolicies roleName arns) w in
  ev ∈ trace_of x -> ev_err ev = Some a -> exists e, value_of x = Some e.
Proof.
  cbn zeta. unfold resourceAwsIamRoleAttachManagedPolicies.
  destruct (attachRolePolicies_run handle roleName arns [] w) as [Hcalls ->].
  intros Hev Herr. apply ErrorOrNil_some. cbn [app].
  assert (Hc : ev_call ev ∈ map (AttachRolePolicy roleName) arns).
  { rewrite <- Hcalls. apply elem_of_map. eauto. }
  apply elem_of_map in Hc as (p & _ & Hp).
  intros Hnil.
  assert (Hin : Errorf_w ("attaching managed policy (" +:+ p +:+ ")") (AwsError a)
                ∈ omap managedFailure
                    (trace_of (run handle (attachRolePolicies roleName arns []) w))).
  { apply list_elem_of_omap. exists ev. split; [exact Hev|].
    unfold managedFailure. rewrite Hp, Herr. reflexivity. }
  rewrite Hnil in Hin. apply elem_of_nil in Hin. exact Hin.
Qed.

Lemma deleteAwsIamRolePolicies_loud (rolename : string) (names : list string) (w : W)
    (ev : Event) :
  let x := run handle (deleteAwsIamRolePolicies rolename names) w in
  ev ∈ trace_of x -> failedOtherwise ev -> exists e, value_of x = Some e.
Proof.
  revert w. induction names as [|n rest IH]; intros w; cbn [deleteAwsIamRolePolicies].
  - cbn. intros H. apply elem_of_nil in H. contradiction.
  - rewrite run_bind, run_invoke. cbn zeta.
    destruct (handle (DeleteRolePolicy n rolename) w) as [[[]|e] w1]; simpl_run;
      rewrite ?ErrCodeEquals_nil.
    + intros Hev Hf. apply elem_of_cons in Hev as [->|Hev]; [|apply (IH w1); auto].
      destruct Hf as (a & Ha & _). discriminate.
    + destruct (ErrCodeEquals (Some (AwsError e)) ErrCodeNoSuchEntityException) eqn:Hcode;
        simpl_run; [|eauto].
      intros Hev (a & Ha & Hne). apply list_elem_of_singleton in Hev. subst ev.
      cbn in Ha. injection Ha as <-. apply ErrCodeEquals_aws in Hcode. contradiction.
Qed.

Lemma deleteAwsIamRolePolicyAttachments_loud (rolename : string) (arns : list string) (w : W)
    (ev : Event) :
  let x := run handle (deleteAwsIamRolePolicyAttachments rolename arns) w in
  ev ∈ trace_of x -> failedOtherwise ev -> exists e, value_of x = Some e.
Proof.
  revert w. induction arns as [|n rest IH]; intros w; cbn [deleteAwsIamRolePolicyAttachments].
  - cbn. intros H. apply elem_of_nil in H. contradiction.
  - rewrite run_bind, run_invoke. cbn zeta.
    destruct (handle (DetachRolePolicy n rolename) w) as [[[]|e] w1]; simpl_run;
      rewrite ?ErrCodeEquals_nil.
    + intros Hev Hf. apply elem_of_cons in Hev as [->|Hev]; [|apply (IH w1); auto].
      destruct Hf as (a & Ha & _). discriminate.
    + destruct (ErrCodeEquals (Some (AwsError e)) ErrCodeNoSuchEntityException) eqn:Hcode;
        simpl_run; [|eauto].
      intros Hev Hf. apply elem_of_cons in Hev as [->|Hev]; [|apply (IH w1); auto].
      destruct Hf as (a & Ha & Hne). cbn in Ha. injection Ha as <-.
      apply ErrCodeEquals_aws in Hcode. contradiction.
Qed.

Lemma failedOtherwise_fails (c : Call) (e : awserr) :
  failedOtherwise (Ev c (Some e)) ->
  isAWSErr (Some (AwsError e)) ErrCodeNoSuchEntityException "" = false.
Proof.
  intros (a & Ha & Hne). cbn in Ha. injection Ha as <-.
  destruct (isAWSErr _ _ _) eqn:H; [|reflexivity].
  apply isAWSErr_any_message in H. contradiction.
Qed.

(** A block of one guarded call answers a failure by returning it. *)
Ltac loud_block d :=
  let ev := fresh "ev" in
  let Hev := fresh "Hev" in
  let Hf := fresh "Hf" in
  let e := fresh "e" in
  let Hg := fresh "Hg" in
  intros ev Hev Hf; rewrite run_bind, run_attempt in *; cbn zeta in *;
  match goal with
  | |- context [handle ?c ?w0] => destruct (handle c w0) as [[[]|e] ?]
  end;
  [ simpl_run; apply list_elem_of_singleton in Hev; subst ev;
    destruct Hf as (? & ? & _); discriminate
  | simpl_run;
    destruct (isAWSErr (Some (AwsError e)) ErrCodeNoSuchEntityException "") eqn:Hg;
    simpl_run; apply list_elem_of_singleton in Hev; subst ev;
    [ rewrite (failedOtherwise_fails _ _ Hf) in Hg; discriminate
    | eexists; split; [reflexivity|]; eexists; reflexivity ] ].

Lemma updateAssumeRolePolicy_loud (d : ResourceData) (w : W) (ev : Event) :
  ev ∈ trace_of (run handle (updateAssumeRolePolicy d) w) -> failedOtherwise ev ->
  exists a, value_of (run handle (updateAssumeRolePolicy d) w) = Return a /\ aborted d a.
Proof.
  unfold updateAssumeRolePolicy. destruct (HasChange d key.assume_role_policy).
  - revert ev. loud_block d.
  - intros H. apply elem_of_nil in H. contradiction.
Qed.

Lemma updateDescription_loud (d : ResourceData) (w : W) (ev : Event) :
  ev ∈ trace_of (run handle (updateDescription d) w) -> failedOtherwise ev ->
  exists a, value_of (run handle (updateDescription d) w) = Return a /\ aborted d a.
Proof.
  unfold updateDescription. destruct (HasChange d key.description).
  - revert ev. loud_block d.
  - intros H. apply elem_of_nil in H. contradiction.
Qed.

Lemma updateMaxSessionDuration_loud (d : ResourceData) (w : W) (ev : Event) :
  ev ∈ trace_of (run handle (updateMaxSessionDuration d) w) -> failedOtherwise ev ->
  exists a, value_of (run handle (updateMaxSessionDuration d) w) = Return a /\ aborted d a.
Proof.
  unfold updateMaxSessionDuration. destruct (HasChange d key.max_session_duration).
  - revert ev. loud_block d.
  - intros H. apply elem_of_nil in H. contradiction.
Qed.

Lemma updatePermissionsBoundary_loud (d : ResourceData) (w : W) (ev : Event) :
  ev ∈ trace_of (run handle (updatePermissionsBoundary d) w) -> failedOtherwise ev ->
  exists a, value_of (run handle (updatePermissionsBoundary d) w) = Return a /\ aborted d a.
Proof.
  unfold updatePermissionsBoundary. destruct (HasChange d key.permissions_boundary).
  - cbn zeta. revert ev. case_bool_decide; loud_block d.
  - intros H. apply elem_of_nil in H. contradiction.
Qed.

Lemma updateTags_loud (d : ResourceData) (w : W) (ev : Event) :
  ev ∈ trace_of (run handle (updateTags d) w) -> failedOtherwise ev ->
  exists a, value_of (run handle (updateTags d) w) = Return a /\ aborted d a.
Proof.
  unfold updateTags. destruct (HasChange d key.tags).
  - revert ev. loud_block d.
  - intros H. apply elem_of_nil in H. contradiction.
Qed.

Lemma updateInlinePolicies_loud (d : ResourceData) (w : W) (ev : Event) :
  ev ∈ trace_of (run handle (updateInlinePolicies host d) w) -> failedOtherwise ev ->
  exists a, value_of (run handle (updateInlinePolicies host d) w) = Return a /\ aborted d a.
Proof.
  unfold updateInlinePolicies. destruct (HasChange d key.inline_policy).
  2:{ intros H. apply elem_of_nil in H. contradiction. }
  cbn zeta. rewrite run_bind. cbn zeta.
  set (names := map (fun m => tfString m "name") _).
  pose proof (deleteAwsIamRolePolicies_loud (name (planned d)) names w ev) as Hdel.
  cbn zeta in Hdel.
  destruct (run handle (deleteAwsIamRolePolicies (name (planned d)) names) w)
    as [[[e|] w1] t1]; simpl_run.
  { intros _ _. eexists. split; [reflexivity|]. eexists. reflexivity. }
  rewrite run_bind. cbn zeta. set (policies := expandIamInlinePolicies host _ _).
  pose proof (fun a => putRolePolicies_loud policies w1 ev a) as Hput. cbn zeta in Hput.
  destruct (run handle (resourceAwsIamRoleCreateInlinePolicies policies) w1)
    as [[[e|] w2] t2]; simpl_run.
  { intros _ _. eexists. split; [reflexivity|]. eexists. reflexivity. }
  rewrite app_nil_r. intros Hev Hf. apply elem_of_app in Hev as [Hev|Hev].
  - destruct (Hdel Hev Hf) as (e & He). discriminate.
  - destruct Hf as (a & Ha & _). destruct (Hput a Hev Ha) as (e & He). discriminate.
Qed.

Lemma updateManagedPolicies_loud (d : ResourceData) (w : W) (ev : Event) :
  ev ∈ trace_of (run handle (updateManagedPolicies d) w) -> failedOtherwise ev ->
  exists a, value_of (run handle (updateManagedPolicies d) w) = Return a /\ aborted d a.
Proof.
  unfold updateManagedPolicies. destruct (HasChange d key.managed_policy_arns).
  2:{ intros H. apply elem_of_nil in H. contradiction. }
  cbn zeta. rewrite run_bind. cbn zeta.
  set (remove := expandStringList _).
  pose proof (deleteAwsIamRolePolicyAttachments_loud (name (planned d)) remove w ev) as Hdel.
  cbn zeta in Hdel.
  destruct (run handle (deleteAwsIamRolePolicyAttachments (name (planned d)) remove) w)
    as [[[e|] w1] t1]; simpl_run.
  { intros _ _. eexists. split; [reflexivity|]. eexists. reflexivity. }
  rewrite run_bind. cbn zeta. set (add := expandStringList _).
  pose proof (fun a => attachRolePolicies_loud (name (planned d)) add w1 ev a) as Hatt.
  cbn zeta in Hatt.
  destruct (run handle (resourceAwsIamRoleAttachManagedPolicies (name (planned d)) add) w1)
    as [[[e|] w2] t2]; simpl_run.
  { intros _ _. eexists. split; [reflexivity|]. eexists. reflexivity. }
  rewrite app_nil_r. intros Hev Hf. apply elem_of_app in Hev as [Hev|Hev].
  - destruct (Hdel Hev Hf) as (e & He). discriminate.
  - destruct Hf as (a & Ha & _). destruct (Hatt a Hev Ha) as (e & He). discriminate.
Qed.

(** The writes of an update are the calls of its first nine steps. *)
Lemma write_steps (ev : Event) (t : list Event) :
  Forall (fun ev' => (step (ev_call ev') <= 9)%nat) t -> ev ∈ t -> ~ reads (ev_call ev).
Proof.
  intros H Hev. rewrite Forall_forall in H. specialize (H ev Hev).
  destruct (ev_call ev); cbn in *; auto; lia.
Qed.

Lemma resourceAwsIamRoleUpdate_aborts (d : ResourceData) (w : W) (ev : Event) :
  let x := run handle (resourceAwsIamRoleUpdate host d) w in
  ev ∈ trace_of x ->
  (step (ev_call ev) <= 9)%nat /\ failedOtherwise ev ->
  aborted d (value_of x) /\ Forall (fun ev' => (step (ev_call ev') <= 9)%nat) (trace_of x).
Proof.
  cbn zeta. revert w ev. unfold resourceAwsIamRoleUpdate.
  assert (Hb : forall {A} lo hi (p : Prog A) w0, inOrder step lo hi p -> (hi <= 9)%nat ->
                 Forall (fun ev' => (step (ev_call ev') <= 9)%nat) (trace_of (run handle p w0))).
  { intros A lo hi p w0 Hp Hhi. destruct (inOrder_trace handle step lo hi p w0 Hp) as [_ H].
    eapply Forall_impl; [exact H|]. cbn. intros; lia. }
  intros w. apply abort_andThen;
    [apply (Hb _ 1%nat 1%nat); [apply updateAssumeRolePolicy_inOrder|lia]
    |intros ev Hev [_ Hf]; apply (updateAssumeRolePolicy_loud d w ev Hev Hf)|clear w; intros w].
  apply abort_andThen;
    [apply (Hb _ 2%nat 2%nat); [apply updateDescription_inOrder|lia]
    |intros ev Hev [_ Hf]; apply (updateDescription_loud d w ev Hev Hf)|clear w; intros w].
  apply abort_andThen;
    [apply (Hb _ 3%nat 3%nat); [apply updateMaxSessionDuration_inOrder|lia]
    |intros ev Hev [_ Hf]; apply (updateMaxSessionDuration_loud d w ev Hev Hf)
    |clear w; intros w].
  apply abort_andThen;
    [apply (Hb _ 4%nat 4%nat); [apply updatePermissionsBoundary_inOrder|lia]
    |intros ev Hev [_ Hf]; apply (updatePermissionsBoundary_loud d w ev Hev Hf)
    |clear w; intros w].
  apply abort_andThen;
    [apply (Hb _ 5%nat 5%nat); [apply updateTags_inOrder|lia]
    |intros ev Hev [_ Hf]; apply (updateTags_loud d w ev Hev Hf)|clear w; intros w].
  apply abort_andThen;
    [apply (Hb _ 6%nat 7%nat); [apply updateInlinePolicies_inOrder|lia]
    |intros ev Hev [_ Hf]; apply (updateInlinePolicies_loud d w ev Hev Hf)|clear w; intros w].
  apply abort_andThen;
    [apply (Hb _ 8%nat 9%nat); [apply updateManagedPolicies_inOrder|lia]
    |intros ev Hev [_ Hf]; apply (updateManagedPolicies_loud d w ev Hev Hf)|clear w; intros w].
  intros ev Hev [Hs _]. exfalso.
  destruct (inOrder_trace handle step 10 13 _ w (resourceAwsIamRoleRead_inOrder host d))
    as [_ H].
  rewrite Forall_forall in H. specialize (H ev Hev). cbn in H. lia.
Qed.

Lemma provision_aborts (d : ResourceData) (role : Role) (w : W) (ev : Event) :
  let x := run handle (provision host d role) w in
  ev ∈ trace_of x ->
  provisions (ev_call ev) /\ ev_err ev <> None ->
  aborted d (value_of x) /\ Forall (fun _ => True) (trace_of x).
Proof.
  cbn zeta. revert w ev. unfold provision. cbn zeta.
  intros w. apply abort_andThen; [apply Forall_true; auto| |clear w; intros w].
  { intros ev Hev [_ Hf]. case_bool_decide; [|apply elem_of_nil in Hev; contradiction].
    rewrite run_bind in *. cbn zeta in *. set (policies := expandIamInlinePolicies host _ _) in *.
    pose proof (fun a => putRolePolicies_loud policies w ev a) as Hput. cbn zeta in Hput.
    destruct (run handle (resourceAwsIamRoleCreateInlinePolicies policies) w)
      as [[[e|] w1] t1]; simpl_run.
    - eexists. split; [reflexivity|]. eexists. reflexivity.
    - rewrite app_nil_r in Hev. destruct (ev_err ev) as [a|] eqn:Ha; [|contradiction].
      destruct (Hput a Hev eq_refl) as (e & He). discriminate. }
  apply abort_andThen; [apply Forall_true; auto| |clear w; intros w].
  { intros ev Hev [_ Hf]. case_bool_decide; [|apply elem_of_nil in Hev; contradiction].
    rewrite run_bind in *. cbn zeta in *.
    pose proof (fun a => attachRolePolicies_loud (RoleName role)
                           (expandStringSet (managed_policy_arns (planned d))) w ev a) as Hatt.
    cbn zeta in Hatt.
    destruct (run handle (resourceAwsIamRoleAttachManagedPolicies (RoleName role)
                            (expandStringSet (managed_policy_arns (planned d)))) w)
      as [[[e|] w1] t1]; simpl_run.
    - eexists. split; [reflexivity|]. eexists. reflexivity.
    - rewrite app_nil_r in Hev. destruct (ev_err ev) as [a|] eqn:Ha; [|contradiction].
      destruct (Hatt a Hev eq_refl) as (e & He). discriminate. }
  intros ev Hev [Hp _]. exfalso.
  pose proof (issues_trace handle reads _ w
                (resourceAwsIamRoleRead_issues host (SetId (RoleName role) d))) as H.
  rewrite Forall_forall in H. specialize (H ev Hev).
  destruct (ev_call ev); cbn in *; contradiction.
Qed.
End Abort.

(** X12.  A failed write ends the update.  If a call of an update that is
    not a read fails with a code other than NoSuchEntity, the update
    returns an error and the resource data as it was, and it does not read
    the role back: no call of the run is a read. *)
Theorem update_aborts_on_failed_write
    {W : Type} (handle : forall c : Call, W -> Reply c * W) (host : Host)
    (d : ResourceData) (w : W) (ev : Event) :
  let x := run handle (resourceAwsIamRoleUpdate host d) w in
  ev ∈ trace_of x -> ~ reads (ev_call ev) -> failedOtherwise ev ->
  (exists e, value_of x = (Some e, d))
  /\ Forall (fun ev' => ~ reads (ev_call ev')) (trace_of x).
Proof.
  cbn zeta. intros Hev Hwrite Hf.
  assert (Hs : (step (ev_call ev) <= 9)%nat).
  { destruct (inOrder_trace handle step 1 13 _ w (resourceAwsIamRoleUpdate_inOrder host d))
      as [_ H].
    rewrite Forall_forall in H. specialize (H ev Hev).
    destruct (ev_call ev); cbn in *; try lia; exfalso; apply Hwrite; exact I. }
  destruct (resourceAwsIamRoleUpdate_aborts handle host d w ev Hev (conj Hs Hf)) as [Ha Hw].
  split; [exact Ha|]. apply Forall_forall. intros ev' Hev'. exact (write_steps ev' _ Hw Hev').
Qed.

(** The description and the tags change and the update of the description
    is refused: the tags are not updated and nothing is read. *)
Lemma update_aborts_on_failed_write_witness :
  let d := {| Id := "app"; prior := values0;
              planned := with_tags {[ "team" := "core" ]}
                           (with_description "batch role" values0) |} in
  let s := with_faults [Some AccessDenied] service0 in
  let x := run serve (resourceAwsIamRoleUpdate host0 d) s in
  (exists e, value_of x = (Some e, d))
  /\ map ev_call (trace_of x) = [UpdateRoleDescription "app" "batch role"].
Proof.
  intros d s x. subst x.
  destruct (update_aborts_on_failed_write serve host0 d s
              (Ev (UpdateRoleDescription "app" "batch role") (Some AccessDenied)))
    as [Habort _].
  - apply (bool_decide_unpack _). vm_compute. reflexivity.
  - intros H. exact H.
  - exists AccessDenied. split; [reflexivity|]. vm_compute. discriminate.
  - split; [exact Habort|]. vm_compute. reflexivity.
Defined.

(** X13.  When a put of an inline policy or an attachment of a managed
    policy fails during a create, with whatever code, the create returns
    an error and the resource data as it was: the id is not set. *)
Theorem create_leaves_id_unset_when_provisioning_fails
    {W : Type} (handle : forall c : Call, W -> Reply c * W) (host : Host)
    (d : ResourceData) (w : W) (ev : Event) :
  let x := run handle (resourceAwsIamRoleCreate host d) w in
  ev ∈ trace_of x -> provisions (ev_call ev) -> ev_err ev <> None ->
  exists e, value_of x = (Some e, d).
Proof.
  cbn zeta. unfold resourceAwsIamRoleCreate. cbn zeta. rewrite run_bind. cbn zeta.
  pose proof (issues_trace handle _ _ w (createRoleWithRetry_issues host (createRoleInput host d)))
    as Hattempts.
  destruct (run handle (createRoleWithRetry host (createRoleInput host d)) w)
    as [[[role|e] w1] t1]; simpl_run; intros Hev Hp Hf.
  - apply elem_of_app in Hev as [Hev|Hev].
    + rewrite Forall_forall in Hattempts. specialize (Hattempts ev Hev). cbn in Hattempts.
      rewrite Hattempts in Hp. contradiction.
    + exact (proj1 (provision_aborts handle host d role w1 ev Hev (conj Hp Hf))).
  - rewrite app_nil_r in Hev. rewrite Forall_forall in Hattempts.
    specialize (Hattempts ev Hev). cbn in Hattempts. rewrite Hattempts in Hp. contradiction.
Qed.

(** The role is created and the put of its inline policy is refused: the
    create fails, the id stays empty, the service has the role. *)
Lemma create_leaves_id_unset_when_provisioning_fails_witness :
  let policy : tfMap := {[ "name" := "logs"; "policy" := "{}" ]} in
  let d := {| Id := ""; prior := values0; planned := with_inline_policy [policy] values0 |} in
  let s := with_faults [None; Some AccessDenied] (with_role None service0) in
  let x := run serve (resourceAwsIamRoleCreate host0 d) s in
  (exists e, value_of x = (Some e, d))
  /\ RoleName <$> svc_role (world_of x) = Some "app".
Proof.
  intros policy d s x. subst x. split.
  - apply (create_leaves_id_unset_when_provisioning_fails serve host0 d s
             (Ev (PutRolePolicy (expandIamInlinePolicy host0 "app" policy)) (Some AccessDenied))).
    + apply (bool_decide_unpack _). vm_compute. reflexivity.
    + exact I.
    + discriminate.
  - vm_compute. reflexivity.
Defined.

(** ** The id after a create *)

Section CreatedId.
Context {W : Type} (handle : forall c : Call, W -> Reply c * W) (host : Host).

(** The service after a run is the service after the calls of the run. *)
Lemma world_replay {A} (p : Prog A) (w : W) :
  world_of (run handle p w) = replay handle (map ev_call (trace_of (run handle p w))) w.
Proof.
  revert w. induction p as [a|c k IH]; intros w; simpl; [reflexivity|].
  destruct (handle c w) as [r w1] eqn:Hh. specialize (IH r w1).
  destruct (run handle (k r) w1) as [[a w2] t]. cbn in *. rewrite Hh. exact IH.
Qed.

Lemma replay_app (l1 l2 : list Call) (w : W) :
  replay handle (l1 ++ l2) w = replay handle l2 (replay handle l1 w).
Proof. revert w. induction l1 as [|c l1 IH]; intros w; cbn; [reflexivity|apply IH]. Qed.

(** A read that succeeds keeps the id, unless GetRole answers that the
    role has gone. *)
Lemma resourceAwsIamRoleRead_id (d : ResourceData) (w : W) :
  let x := run handle (resourceAwsIamRoleRead host d) w in
  (value_of x).1 = None ->
  Id (value_of x).2 = if gone (handle (GetRole (Id d)) w).1 then "" else Id d.
Proof.
  cbn zeta. unfold resourceAwsIamRoleRead. rewrite run_bind, run_invoke. cbn zeta.
  destruct (handle (GetRole (Id d)) w) as [[[role|]|e] w1]; simpl_run; cbn [gone].
  2:{ reflexivity. }
  2:{ destruct (isAWSErr _ _ _); simpl_run; [reflexivity|discriminate]. }
  destruct (QueryUnescape host (AssumeRolePolicyDocument role)) as [doc|text]; simpl_run.
  2:{ discriminate. }
  rewrite run_bind. cbn zeta.
  destruct (run handle (resourceAwsIamRoleListInlinePolicies host (RoleName role)) w1)
    as [[[l [e|]] w2] t2]; simpl_run; [discriminate|].
  rewrite run_bind. cbn zeta.
  destruct (run handle (readAwsIamRolePolicyAttachments (RoleName role)) w2)
    as [[[l' [e|]] w3] t3]; simpl_run; [discriminate|].
  intros _. destruct (PermissionsBoundary role); reflexivity.
Qed.

(** A provisioning block either returns an error with the resource data
    as it was, or falls through after calls that all succeeded. *)
Lemma provisionInline_run (d : ResourceData) (policies : list PutRolePolicyInput) (w : W) :
  let b := run handle
             (err <- resourceAwsIamRoleCreateInlinePolicies policies ;;
              match err with
              | Some e => Ret (Return (Some e, d))
              | None => Ret Next
              end) w in
  (exists e, value_of b = Return (Some e, d))
  \/ (value_of b = Next
      /\ Forall (fun ev => provisions (ev_call ev) /\ ev_err ev = None) (trace_of b)).
Proof.
  cbn zeta. rewrite run_bind. cbn zeta.
  pose proof (putRolePolicies_clean handle policies w) as Hclean. cbn zeta in Hclean.
  pose proof (issues_trace handle _ _ w (putRolePolicies_issues policies [])) as Hcalls.
  fold (resourceAwsIamRoleCreateInlinePolicies policies) in Hcalls.
  destruct (run handle (resourceAwsIamRoleCreateInlinePolicies policies) w)
    as [[[e|] w1] t1]; simpl_run.
  - left. eexists. reflexivity.
  - right. split; [reflexivity|]. rewrite app_nil_r. specialize (Hclean eq_refl).
    rewrite Forall_forall in Hclean, Hcalls. apply Forall_forall. intros ev Hev.
    split; [|exact (Hclean ev Hev)]. destruct (Hcalls ev Hev) as (p & _ & ->). exact I.
Qed.

Lemma provisionManaged_run (d : ResourceData) (roleName : string) (arns : list string) (w : W) :
  let b := run handle
             (err <- resourceAwsIamRoleAttachManagedPolicies roleName arns ;;
              match err with
              | Some e => Ret (Return (Some e, d))
              | None => Ret Next
              end) w in
  (exists e, value_of b = Return (Some e, d))
  \/ (value_of b = Next
      /\ Forall (fun ev => provisions (ev_call ev) /\ ev_err ev = None) (trace_of b)).
Proof.
  cbn zeta. rewrite run_bind. cbn zeta.
  pose proof (attachRolePolicies_clean handle roleName arns w) as Hclean. cbn zeta in Hclean.
  pose proof (issues_trace handle _ _ w (attachRolePolicies_issues roleName arns [])) as Hcalls.
  fold (resourceAwsIamRoleAttachManagedPolicies roleName arns) in Hcalls.
  destruct (run handle (resourceAwsIamRoleAttachManagedPolicies roleName arns) w)
    as [[[e|] w1] t1]; simpl_run.
  - left. eexists. reflexivity.
  - right. split; [reflexivity|]. rewrite app_nil_r. specialize (Hclean eq_refl).
    rewrite Forall_forall in Hclean, Hcalls. apply Forall_forall. intros ev Hev.
    split; [|exact (Hclean ev Hev)]. destruct (Hcalls ev Hev) as (p & _ & ->). exact I.
Qed.

(** A provisioning that returns no error is its puts and attachments, all
    successful, and then the read of the resource data under the new id. *)
Lemma provision_run (d : ResourceData) (role : Role) (w : W) :
  let x := run handle (provision host d role) w in
  (value_of x).1 = None ->
  exists pre,
    let y := run handle (resourceAwsIamRoleRead host (SetId (RoleName role) d))
               (replay handle (map ev_call pre) w) in
    Forall (fun ev => provisions (ev_call ev) /\ ev_err ev = None) pre
    /\ x = (value_of y, world_of y, pre ++ trace_of y).
Proof.
  cbn zeta. unfold provision. cbn zeta. rewrite run_andThen. cbn zeta.
  match goal with
  | |- context [run handle ?p w] =>
      match p with
      | (if _ then _ else _) => set (p1 := p)
      end
  end.
  assert (H1 : (exists e, value_of (run handle p1 w) = Return (Some e, d))
               \/ (value_of (run handle p1 w) = Next
                   /\ Forall (fun ev => provisions (ev_call ev) /\ ev_err ev = None)
                        (trace_of (run handle p1 w)))).
  { subst p1. case_bool_decide; [apply provisionInline_run|].
    right. split; [reflexivity|constructor]. }
  pose proof (world_replay p1 w) as Hw1.
  destruct H1 as [[e H1]|[H1 Hp1]]; rewrite H1; [cbn; discriminate|].
  set (w1 := world_of (run handle p1 w)) in *.
  rewrite run_andThen. cbn zeta.
  match goal with
  | |- context [run handle ?p w1] =>
      match p with
      | (if _ then _ else _) => set (p2 := p)
      end
  end.
  assert (H2 : (exists e, value_of (run handle p2 w1) = Return (Some e, d))
               \/ (value_of (run handle p2 w1) = Next
                   /\ Forall (fun ev => provisions (ev_call ev) /\ ev_err ev = None)
                        (trace_of (run handle p2 w1)))).
  { subst p2. case_bool_decide; [apply provisionManaged_run|].
    right. split; [reflexivity|constructor]. }
  pose proof (world_replay p2 w1) as Hw2.
  destruct H2 as [[e H2]|[H2 Hp2]]; rewrite H2; [cbn; discriminate|].
  simpl_run. intros _.
  exists (trace_of (run handle p1 w) ++ trace_of (run handle p2 w1)).
  split; [apply Forall_app; auto|].
  rewrite map_app, replay_app, <- Hw1. fold w1. rewrite <- Hw2, app_assoc. reflexivity.
Qed.

Lemma createRoleWithRetry_first (request : CreateRoleInput) (role : Role) (w w1 : W) :
  handle (CreateRole request) w = (Ok role, w1) ->
  run handle (createRoleWithRetry host request) w =
    (inl role, w1, [Ev (CreateRole request) None]).
Proof.
  intros Hh. unfold createRoleWithRetry, Retry. rewrite run_bind. cbn zeta.
  destruct (attemptsWithin host (30 * Second)) as [|n]; cbn [retryLoop].
  - cbn. rewrite Hh. reflexivity.
  - cbn. rewrite Hh. reflexivity.
Qed.
End CreatedId.

(** X14.  The id after a create is the name of the role in the answer of
    the service.  When the first CreateRole is answered with a role and the
    create returns no error, the run is that call, then puts and
    attachments that all succeeded, then the read of the resource data
    under the name of the role in the answer, whatever name was asked for;
    the create returns what this read returns.  The id at the end is that
    name, unless the GetRole of the read answers with NoSuchEntity or
    without a role: only then is the id empty. *)
Theorem create_sets_id_to_name_of_created_role
    {W : Type} (handle : forall c : Call, W -> Reply c * W) (host : Host)
    (d : ResourceData) (role : Role) (w w1 : W) :
  let x := run handle (resourceAwsIamRoleCreate host d) w in
  handle (CreateRole (createRoleInput host d)) w = (Ok role, w1) ->
  (value_of x).1 = None ->
  exists pre,
    let w2 := replay handle (map ev_call pre) w1 in
    let y := run handle (resourceAwsIamRoleRead host (SetId (RoleName role) d)) w2 in
    Forall (fun ev => provisions (ev_call ev) /\ ev_err ev = None) pre
    /\ x = (value_of y, world_of y,
            Ev (CreateRole (createRoleInput host d)) None :: pre ++ trace_of y)
    /\ Id (value_of x).2 =
         if gone (handle (GetRole (RoleName role)) w2).1 then "" else RoleName role.
Proof.
  cbn zeta. intros Hh. unfold resourceAwsIamRoleCreate. cbn zeta. rewrite run_bind. cbn zeta.
  rewrite (createRoleWithRetry_first handle host _ role w w1 Hh). simpl_run. intros Hv.
  destruct (provision_run handle host d role w1 Hv) as (pre & Hpre & Hx).
  exists pre. split; [exact Hpre|]. rewrite Hx in Hv |- *. simpl_run.
  split; [reflexivity|].
  exact (resourceAwsIamRoleRead_id handle host (SetId (RoleName role) d) _ Hv).
Qed.

(** A role is created under a generated name, from a prefix, without
    policies: the id is the generated name. *)
Lemma create_sets_id_to_name_of_created_role_witness :
  let v := MkValues "" "" "" "app-" "/" "" "" trustPolicy false "" 0 ∅ [] [] in
  let d := {| Id := ""; prior := v; planned := v |} in
  let s := with_role None service0 in
  let x := run serve (resourceAwsIamRoleCreate host0 d) s in
  Id (value_of x).2 = PrefixedUniqueId host0 "app-".
Proof.
  intros v d s x. subst x.
  destruct (create_sets_id_to_name_of_created_role serve host0 d
              (newRole (createRoleInput host0 d)) s
              (with_role (Some (newRole (createRoleInput host0 d))) s))
    as (pre & Hpre & Hx & Hid).
  - vm_compute. reflexivity.
  - vm_compute. reflexivity.
  - destruct pre as [|ev pre].
    + rewrite Hid. vm_compute. reflexivity.
    + exfalso. apply Forall_cons in Hpre as [[Hp _] _].
      assert (Ht : trace_of (run serve (resourceAwsIamRoleCreate host0 d) s) !! 1%nat =
                   Some (Ev (GetRole "app-20210101000000000000000001") None))
        by (vm_compute; reflexivity).
      rewrite Hx in Ht. cbn in Ht. injection Ht as ->. exact Hp.
Defined.
